(** * Notes organizer: classification and export pipeline

    A shallow embedding of [notes_core.py] (text normalizer, tokenizer,
    folder classifier, aggregator, renderer and exporter) together with the
    properties of its specification.

    Modelling conventions.
    - A Python [str] is a [string]; a character is read as the code point
      0..255 it carries, so the development covers text of the Latin-1 range.
    - A Python [float] is an exact rational ([Q]); the confidence values are
      built from literals, one division and [min]/[max] only.
    - A [dict] whose iteration order is observed is an association list in
      insertion order.
    - The filesystem and the clock are an explicit world threaded through the
      exporter by a state-and-error monad. *)

From Stdlib Require Import String Ascii List Bool Arith NArith ZArith.
From Stdlib Require Import QArith Qround Qminmax Lia Lqa Permutation Sorted.
From Stdlib Require Import DecimalString.
Import ListNotations.

Local Close Scope Q_scope.
Local Open Scope list_scope.
Local Open Scope string_scope.

(* ================================================================== *)
(** * Characters and strings *)

Module Chars.

Definition code (c : ascii) : N := N_of_ascii c.

Definition between (lo hi : N) (c : ascii) : bool :=
  ((lo <=? code c) && (code c <=? hi))%N.

Definition just (a : ascii) (c : ascii) : bool := Ascii.eqb a c.

Definition one_of (cs : string) (c : ascii) : bool :=
  existsb (Ascii.eqb c) (list_ascii_of_string cs).

Definition any (_ : ascii) : bool := true.

(** The double-quote character, U+0022. *)
Definition dquote : ascii := ascii_of_N 34.

Definition neg (p : ascii -> bool) (c : ascii) : bool := negb (p c).

Definition either (p q : ascii -> bool) (c : ascii) : bool := p c || q c.

(** [str.isspace] / the regex class [\s] on a one-character string:
    TAB..CR, FS..US, SPACE, NEL (0x85) and NBSP (0xA0). *)
Definition isspace (c : ascii) : bool :=
  between 9 13 c || between 28 32 c || (code c =? 133)%N || (code c =? 160)%N.

Definition isdigit (c : ascii) : bool := between 48 57 c.

Definition islower_ascii (c : ascii) : bool := between 97 122 c.

Definition ishex (c : ascii) : bool :=
  isdigit c || between 97 102 c || between 65 70 c.

(** [a-z0-9] *)
Definition isalnum_lower (c : ascii) : bool := islower_ascii c || isdigit c.

(** One character of [str.lower]: A-Z and the Latin-1 capitals
    (0xC0-0xDE without the multiplication sign 0xD7) move up by 32. *)
Definition lower_char (c : ascii) : ascii :=
  if between 65 90 c || between 192 214 c || between 216 222 c
  then ascii_of_N (code c + 32)
  else c.

(** A literal character of a pattern compiled with [re.IGNORECASE]. *)
Definition is_nocase (a : ascii) (c : ascii) : bool :=
  Ascii.eqb (lower_char a) (lower_char c).

End Chars.

Module Str.

Fixpoint map (f : ascii -> ascii) (s : string) : string :=
  match s with
  | EmptyString => EmptyString
  | String c s' => String (f c) (map f s')
  end.

Fixpoint forallb (p : ascii -> bool) (s : string) : bool :=
  match s with
  | EmptyString => true
  | String c s' => p c && forallb p s'
  end.

Fixpoint existsb (p : ascii -> bool) (s : string) : bool :=
  match s with
  | EmptyString => false
  | String c s' => p c || existsb p s'
  end.

(** [c in s] for a one-character [c]. *)
Definition contains (c : ascii) (s : string) : bool := existsb (Chars.just c) s.

(** [bool(s)]: a string is truthy when it is not empty. *)
Definition truthy (s : string) : bool :=
  match s with
  | EmptyString => false
  | String _ _ => true
  end.

(** [a or b] on strings. *)
Definition or_else (a b : string) : string := if truthy a then a else b.

(** [str.lower]. *)
Definition lower (s : string) : string := map Chars.lower_char s.

(** [str.lstrip] with the default argument. *)
Fixpoint lstrip (s : string) : string :=
  match s with
  | EmptyString => EmptyString
  | String c s' => if Chars.isspace c then lstrip s' else s
  end.

(** [str.rstrip(chars)] for the class [p] of characters to drop. *)
Fixpoint rstrip_of (p : ascii -> bool) (s : string) : string :=
  match s with
  | EmptyString => EmptyString
  | String c s' =>
      match rstrip_of p s' with
      | EmptyString => if p c then EmptyString else String c EmptyString
      | r => String c r
      end
  end.

Definition rstrip (s : string) : string := rstrip_of Chars.isspace s.

(** [str.strip] with the default argument. *)
Definition strip (s : string) : string := rstrip (lstrip s).

(** [s[:n]] and [s[n:]]. *)
Definition take (n : nat) (s : string) : string := substring 0 n s.

Fixpoint drop (n : nat) (s : string) : string :=
  match n, s with
  | O, _ => s
  | S n', String _ s' => drop n' s'
  | S _, EmptyString => EmptyString
  end.

(** [str(n)] for a non-negative [int]. *)
Definition of_nat (n : nat) : string := NilEmpty.string_of_uint (Nat.to_uint n).

(** Membership of a string in a list or set of strings ([x in xs]). *)
Definition mem (x : string) (xs : list string) : bool :=
  List.existsb (String.eqb x) xs.

End Str.

(* ================================================================== *)
(** * Regular expressions

    The fragment of Python's [re] that the program uses, with the
    backtracking semantics of the library: alternatives are tried left to
    right, a greedy repetition tries the longest run first, a lazy one the
    shortest.  Repetition is over a character class, which is all the
    program's patterns need. *)

Module Re.

Inductive regex : Type :=
| Eps
| Cls (p : ascii -> bool)
| Seq (r1 r2 : regex)
| Alt (r1 r2 : regex)
| Star (p : ascii -> bool)
| LazyStar (p : ascii -> bool).

(** [p+], [r?], a literal, a literal under [re.IGNORECASE], [p{0,n}]. *)
Definition Plus (p : ascii -> bool) : regex := Seq (Cls p) (Star p).

Definition Opt (r : regex) : regex := Alt r Eps.

Fixpoint Lit (s : string) : regex :=
  match s with
  | EmptyString => Eps
  | String c s' => Seq (Cls (Chars.just c)) (Lit s')
  end.

Fixpoint LitNoCase (s : string) : regex :=
  match s with
  | EmptyString => Eps
  | String c s' => Seq (Cls (Chars.is_nocase c)) (LitNoCase s')
  end.

Fixpoint UpTo (n : nat) (p : ascii -> bool) : regex :=
  match n with
  | O => Eps
  | S n' => Alt (Seq (Cls p) (UpTo n' p)) Eps
  end.

Definition orelse {A} (x y : option A) : option A :=
  match x with
  | Some _ => x
  | None => y
  end.

(** [p*] followed by [k]: the longest run of [p] is tried first, then the
    shorter ones. *)
Fixpoint greedy (p : ascii -> bool) (k : string -> option string) (t : string)
  : option string :=
  match t with
  | String c t' => if p c then orelse (greedy p k t') (k t) else k t
  | EmptyString => k t
  end.

(** [p*?] followed by [k]: the shortest run of [p] is tried first. *)
Fixpoint lazy (p : ascii -> bool) (k : string -> option string) (t : string)
  : option string :=
  match k t with
  | Some rest => Some rest
  | None =>
      match t with
      | String c t' => if p c then lazy p k t' else None
      | EmptyString => None
      end
  end.

(** [run r k s]: match [r] at the start of [s], then the continuation [k]
    on what is left; the first success in priority order wins. *)
Fixpoint run (r : regex) (k : string -> option string) (s : string)
  : option string :=
  match r with
  | Eps => k s
  | Cls p =>
      match s with
      | String c s' => if p c then k s' else None
      | EmptyString => None
      end
  | Seq r1 r2 => run r1 (run r2 k) s
  | Alt r1 r2 => orelse (run r1 k s) (run r2 k s)
  | Star p => greedy p k s
  | LazyStar p => lazy p k s
  end.

(** A match anchored at the start of [s]; the result is the unmatched rest. *)
Definition match_at (r : regex) (s : string) : option string := run r Some s.

(** Length of the match of [r] at the start of [s], if any. *)
Definition match_len (r : regex) (s : string) : option nat :=
  match match_at r s with
  | Some rest => Some (String.length s - String.length rest)
  | None => None
  end.

(** [re.sub(r, repl, s)] with a replacement computed from the matched text.
    [skip] counts the characters of the current match still to be consumed.
    Every pattern of the program consumes at least one character, so the
    empty match needs no treatment of its own. *)
Fixpoint sub_loop (r : regex) (repl : string -> string) (skip : nat)
  (s : string) : string :=
  match s with
  | EmptyString => EmptyString
  | String c s' =>
      match skip with
      | S n => sub_loop r repl n s'
      | O =>
          match match_len r s with
          | Some (S n) => repl (Str.take (S n) s) ++ sub_loop r repl n s'
          | _ => String c (sub_loop r repl 0 s')
          end
      end
  end.

Definition sub_with (r : regex) (repl : string -> string) (s : string)
  : string := sub_loop r repl 0 s.

Definition sub (r : regex) (repl : string) (s : string) : string :=
  sub_with r (fun _ => repl) s.

(** [re.findall(r, s)] for a pattern without groups. *)
Fixpoint findall_loop (r : regex) (skip : nat) (s : string) : list string :=
  match s with
  | EmptyString => []
  | String c s' =>
      match skip with
      | S n => findall_loop r n s'
      | O =>
          match match_len r s with
          | Some (S n) => Str.take (S n) s :: findall_loop r n s'
          | _ => findall_loop r 0 s'
          end
      end
  end.

Definition findall (r : regex) (s : string) : list string :=
  findall_loop r 0 s.

End Re.

(* ================================================================== *)
(** * The [html] library functions the program calls *)

Module Html.

(** [str.replace] of a single character by a string. *)
Fixpoint replace_char (c : ascii) (by_ : string) (s : string) : string :=
  match s with
  | EmptyString => EmptyString
  | String a s' =>
      if Ascii.eqb a c then by_ ++ replace_char c by_ s'
      else String a (replace_char c by_ s')
  end.

(** [html.escape(s)] with [quote=True]: five replacements, [&] first. *)
Definition escape (s : string) : string :=
  let s := replace_char "&" "&amp;" s in
  let s := replace_char "<" "&lt;" s in
  let s := replace_char ">" "&gt;" s in
  let s := replace_char Chars.dquote "&quot;" s in
  replace_char "'" "&#x27;" s.

(** A text given by the code points of its characters. *)
Definition chars (codes : list N) : string :=
  fold_right (fun n s => String (ascii_of_N n) s) EmptyString codes.

(** [html.entities.html5], in two parts.  [html5] holds the names whose
    text lies within U+0000..U+00FF, the alphabet of this model, with that
    text; [html5_beyond] holds the other names of the table, whose
    characters lie above U+00FF.  A name is listed with its semicolon, and
    without it where the table has that spelling too. *)
Definition html5 : list (string * string) :=
  [
    ("AElig", chars [198]); ("AElig;", chars [198]); ("AMP", chars [38]);
    ("AMP;", chars [38]); ("Aacute", chars [193]); ("Aacute;", chars [193]);
    ("Acirc", chars [194]); ("Acirc;", chars [194]); ("Agrave", chars [192]);
    ("Agrave;", chars [192]); ("Aring", chars [197]);
    ("Aring;", chars [197]); ("Atilde", chars [195]);
    ("Atilde;", chars [195]); ("Auml", chars [196]); ("Auml;", chars [196]);
    ("COPY", chars [169]); ("COPY;", chars [169]); ("Ccedil", chars [199]);
    ("Ccedil;", chars [199]); ("Cedilla;", chars [184]);
    ("CenterDot;", chars [183]); ("DiacriticalAcute;", chars [180]);
    ("DiacriticalGrave;", chars [96]); ("Dot;", chars [168]);
    ("DoubleDot;", chars [168]); ("ETH", chars [208]); ("ETH;", chars [208]);
    ("Eacute", chars [201]); ("Eacute;", chars [201]);
    ("Ecirc", chars [202]); ("Ecirc;", chars [202]); ("Egrave", chars [200]);
    ("Egrave;", chars [200]); ("Euml", chars [203]); ("Euml;", chars [203]);
    ("GT", chars [62]); ("GT;", chars [62]); ("Hat;", chars [94]);
    ("Iacute", chars [205]); ("Iacute;", chars [205]);
    ("Icirc", chars [206]); ("Icirc;", chars [206]); ("Igrave", chars [204]);
    ("Igrave;", chars [204]); ("Iuml", chars [207]); ("Iuml;", chars [207]);
    ("LT", chars [60]); ("LT;", chars [60]); ("NewLine;", chars [10]);
    ("NonBreakingSpace;", chars [160]); ("Ntilde", chars [209]);
    ("Ntilde;", chars [209]); ("Oacute", chars [211]);
    ("Oacute;", chars [211]); ("Ocirc", chars [212]);
    ("Ocirc;", chars [212]); ("Ograve", chars [210]);
    ("Ograve;", chars [210]); ("Oslash", chars [216]);
    ("Oslash;", chars [216]); ("Otilde", chars [213]);
    ("Otilde;", chars [213]); ("Ouml", chars [214]); ("Ouml;", chars [214]);
    ("PlusMinus;", chars [177]); ("QUOT", chars [34]); ("QUOT;", chars [34]);
    ("REG", chars [174]); ("REG;", chars [174]); ("THORN", chars [222]);
    ("THORN;", chars [222]); ("Tab;", chars [9]); ("Uacute", chars [218]);
    ("Uacute;", chars [218]); ("Ucirc", chars [219]);
    ("Ucirc;", chars [219]); ("Ugrave", chars [217]);
    ("Ugrave;", chars [217]); ("UnderBar;", chars [95]);
    ("Uuml", chars [220]); ("Uuml;", chars [220]);
    ("VerticalLine;", chars [124]); ("Yacute", chars [221]);
    ("Yacute;", chars [221]); ("aacute", chars [225]);
    ("aacute;", chars [225]); ("acirc", chars [226]);
    ("acirc;", chars [226]); ("acute", chars [180]); ("acute;", chars [180]);
    ("aelig", chars [230]); ("aelig;", chars [230]); ("agrave", chars [224]);
    ("agrave;", chars [224]); ("amp", chars [38]); ("amp;", chars [38]);
    ("angst;", chars [197]); ("apos;", chars [39]); ("aring", chars [229]);
    ("aring;", chars [229]); ("ast;", chars [42]); ("atilde", chars [227]);
    ("atilde;", chars [227]); ("auml", chars [228]); ("auml;", chars [228]);
    ("brvbar", chars [166]); ("brvbar;", chars [166]); ("bsol;", chars [92]);
    ("ccedil", chars [231]); ("ccedil;", chars [231]);
    ("cedil", chars [184]); ("cedil;", chars [184]); ("cent", chars [162]);
    ("cent;", chars [162]); ("centerdot;", chars [183]);
    ("circledR;", chars [174]); ("colon;", chars [58]);
    ("comma;", chars [44]); ("commat;", chars [64]); ("copy", chars [169]);
    ("copy;", chars [169]); ("curren", chars [164]);
    ("curren;", chars [164]); ("deg", chars [176]); ("deg;", chars [176]);
    ("die;", chars [168]); ("div;", chars [247]); ("divide", chars [247]);
    ("divide;", chars [247]); ("dollar;", chars [36]);
    ("eacute", chars [233]); ("eacute;", chars [233]);
    ("ecirc", chars [234]); ("ecirc;", chars [234]); ("egrave", chars [232]);
    ("egrave;", chars [232]); ("equals;", chars [61]); ("eth", chars [240]);
    ("eth;", chars [240]); ("euml", chars [235]); ("euml;", chars [235]);
    ("excl;", chars [33]); ("fjlig;", chars [102; 106]);
    ("frac12", chars [189]); ("frac12;", chars [189]);
    ("frac14", chars [188]); ("frac14;", chars [188]);
    ("frac34", chars [190]); ("frac34;", chars [190]);
    ("grave;", chars [96]); ("gt", chars [62]); ("gt;", chars [62]);
    ("half;", chars [189]); ("iacute", chars [237]);
    ("iacute;", chars [237]); ("icirc", chars [238]);
    ("icirc;", chars [238]); ("iexcl", chars [161]); ("iexcl;", chars [161]);
    ("igrave", chars [236]); ("igrave;", chars [236]);
    ("iquest", chars [191]); ("iquest;", chars [191]); ("iuml", chars [239]);
    ("iuml;", chars [239]); ("laquo", chars [171]); ("laquo;", chars [171]);
    ("lbrace;", chars [123]); ("lbrack;", chars [91]);
    ("lcub;", chars [123]); ("lowbar;", chars [95]); ("lpar;", chars [40]);
    ("lsqb;", chars [91]); ("lt", chars [60]); ("lt;", chars [60]);
    ("macr", chars [175]); ("macr;", chars [175]); ("micro", chars [181]);
    ("micro;", chars [181]); ("midast;", chars [42]);
    ("middot", chars [183]); ("middot;", chars [183]); ("nbsp", chars [160]);
    ("nbsp;", chars [160]); ("not", chars [172]); ("not;", chars [172]);
    ("ntilde", chars [241]); ("ntilde;", chars [241]); ("num;", chars [35]);
    ("oacute", chars [243]); ("oacute;", chars [243]);
    ("ocirc", chars [244]); ("ocirc;", chars [244]); ("ograve", chars [242]);
    ("ograve;", chars [242]); ("ordf", chars [170]); ("ordf;", chars [170]);
    ("ordm", chars [186]); ("ordm;", chars [186]); ("oslash", chars [248]);
    ("oslash;", chars [248]); ("otilde", chars [245]);
    ("otilde;", chars [245]); ("ouml", chars [246]); ("ouml;", chars [246]);
    ("para", chars [182]); ("para;", chars [182]); ("percnt;", chars [37]);
    ("period;", chars [46]); ("plus;", chars [43]); ("plusmn", chars [177]);
    ("plusmn;", chars [177]); ("pm;", chars [177]); ("pound", chars [163]);
    ("pound;", chars [163]); ("quest;", chars [63]); ("quot", chars [34]);
    ("quot;", chars [34]); ("raquo", chars [187]); ("raquo;", chars [187]);
    ("rbrace;", chars [125]); ("rbrack;", chars [93]);
    ("rcub;", chars [125]); ("reg", chars [174]); ("reg;", chars [174]);
    ("rpar;", chars [41]); ("rsqb;", chars [93]); ("sect", chars [167]);
    ("sect;", chars [167]); ("semi;", chars [59]); ("shy", chars [173]);
    ("shy;", chars [173]); ("sol;", chars [47]); ("strns;", chars [175]);
    ("sup1", chars [185]); ("sup1;", chars [185]); ("sup2", chars [178]);
    ("sup2;", chars [178]); ("sup3", chars [179]); ("sup3;", chars [179]);
    ("szlig", chars [223]); ("szlig;", chars [223]); ("thorn", chars [254]);
    ("thorn;", chars [254]); ("times", chars [215]); ("times;", chars [215]);
    ("uacute", chars [250]); ("uacute;", chars [250]);
    ("ucirc", chars [251]); ("ucirc;", chars [251]); ("ugrave", chars [249]);
    ("ugrave;", chars [249]); ("uml", chars [168]); ("uml;", chars [168]);
    ("uuml", chars [252]); ("uuml;", chars [252]); ("verbar;", chars [124]);
    ("vert;", chars [124]); ("yacute", chars [253]);
    ("yacute;", chars [253]); ("yen", chars [165]); ("yen;", chars [165]);
    ("yuml", chars [255]); ("yuml;", chars [255])
  ]%N.

Definition html5_beyond : list string :=
  [
    "Abreve;"; "Acy;"; "Afr;"; "Alpha;"; "Amacr;"; "And;"; "Aogon;"; "Aopf;";
    "ApplyFunction;"; "Ascr;"; "Assign;"; "Backslash;"; "Barv;"; "Barwed;";
    "Bcy;"; "Because;"; "Bernoullis;"; "Beta;"; "Bfr;"; "Bopf;"; "Breve;";
    "Bscr;"; "Bumpeq;"; "CHcy;"; "Cacute;"; "Cap;"; "CapitalDifferentialD;";
    "Cayleys;"; "Ccaron;"; "Ccirc;"; "Cconint;"; "Cdot;"; "Cfr;"; "Chi;";
    "CircleDot;"; "CircleMinus;"; "CirclePlus;"; "CircleTimes;";
    "ClockwiseContourIntegral;"; "CloseCurlyDoubleQuote;";
    "CloseCurlyQuote;"; "Colon;"; "Colone;"; "Congruent;"; "Conint;";
    "ContourIntegral;"; "Copf;"; "Coproduct;";
    "CounterClockwiseContourIntegral;"; "Cross;"; "Cscr;"; "Cup;"; "CupCap;";
    "DD;"; "DDotrahd;"; "DJcy;"; "DScy;"; "DZcy;"; "Dagger;"; "Darr;";
    "Dashv;"; "Dcaron;"; "Dcy;"; "Del;"; "Delta;"; "Dfr;"; "DiacriticalDot;";
    "DiacriticalDoubleAcute;"; "DiacriticalTilde;"; "Diamond;";
    "DifferentialD;"; "Dopf;"; "DotDot;"; "DotEqual;";
    "DoubleContourIntegral;"; "DoubleDownArrow;"; "DoubleLeftArrow;";
    "DoubleLeftRightArrow;"; "DoubleLeftTee;"; "DoubleLongLeftArrow;";
    "DoubleLongLeftRightArrow;"; "DoubleLongRightArrow;";
    "DoubleRightArrow;"; "DoubleRightTee;"; "DoubleUpArrow;";
    "DoubleUpDownArrow;"; "DoubleVerticalBar;"; "DownArrow;";
    "DownArrowBar;"; "DownArrowUpArrow;"; "DownBreve;";
    "DownLeftRightVector;"; "DownLeftTeeVector;"; "DownLeftVector;";
    "DownLeftVectorBar;"; "DownRightTeeVector;"; "DownRightVector;";
    "DownRightVectorBar;"; "DownTee;"; "DownTeeArrow;"; "Downarrow;";
    "Dscr;"; "Dstrok;"; "ENG;"; "Ecaron;"; "Ecy;"; "Edot;"; "Efr;";
    "Element;"; "Emacr;"; "EmptySmallSquare;"; "EmptyVerySmallSquare;";
    "Eogon;"; "Eopf;"; "Epsilon;"; "Equal;"; "EqualTilde;"; "Equilibrium;";
    "Escr;"; "Esim;"; "Eta;"; "Exists;"; "ExponentialE;"; "Fcy;"; "Ffr;";
    "FilledSmallSquare;"; "FilledVerySmallSquare;"; "Fopf;"; "ForAll;";
    "Fouriertrf;"; "Fscr;"; "GJcy;"; "Gamma;"; "Gammad;"; "Gbreve;";
    "Gcedil;"; "Gcirc;"; "Gcy;"; "Gdot;"; "Gfr;"; "Gg;"; "Gopf;";
    "GreaterEqual;"; "GreaterEqualLess;"; "GreaterFullEqual;";
    "GreaterGreater;"; "GreaterLess;"; "GreaterSlantEqual;"; "GreaterTilde;";
    "Gscr;"; "Gt;"; "HARDcy;"; "Hacek;"; "Hcirc;"; "Hfr;"; "HilbertSpace;";
    "Hopf;"; "HorizontalLine;"; "Hscr;"; "Hstrok;"; "HumpDownHump;";
    "HumpEqual;"; "IEcy;"; "IJlig;"; "IOcy;"; "Icy;"; "Idot;"; "Ifr;"; "Im;";
    "Imacr;"; "ImaginaryI;"; "Implies;"; "Int;"; "Integral;";
    "Intersection;"; "InvisibleComma;"; "InvisibleTimes;"; "Iogon;"; "Iopf;";
    "Iota;"; "Iscr;"; "Itilde;"; "Iukcy;"; "Jcirc;"; "Jcy;"; "Jfr;"; "Jopf;";
    "Jscr;"; "Jsercy;"; "Jukcy;"; "KHcy;"; "KJcy;"; "Kappa;"; "Kcedil;";
    "Kcy;"; "Kfr;"; "Kopf;"; "Kscr;"; "LJcy;"; "Lacute;"; "Lambda;"; "Lang;";
    "Laplacetrf;"; "Larr;"; "Lcaron;"; "Lcedil;"; "Lcy;";
    "LeftAngleBracket;"; "LeftArrow;"; "LeftArrowBar;";
    "LeftArrowRightArrow;"; "LeftCeiling;"; "LeftDoubleBracket;";
    "LeftDownTeeVector;"; "LeftDownVector;"; "LeftDownVectorBar;";
    "LeftFloor;"; "LeftRightArrow;"; "LeftRightVector;"; "LeftTee;";
    "LeftTeeArrow;"; "LeftTeeVector;"; "LeftTriangle;"; "LeftTriangleBar;";
    "LeftTriangleEqual;"; "LeftUpDownVector;"; "LeftUpTeeVector;";
    "LeftUpVector;"; "LeftUpVectorBar;"; "LeftVector;"; "LeftVectorBar;";
    "Leftarrow;"; "Leftrightarrow;"; "LessEqualGreater;"; "LessFullEqual;";
    "LessGreater;"; "LessLess;"; "LessSlantEqual;"; "LessTilde;"; "Lfr;";
    "Ll;"; "Lleftarrow;"; "Lmidot;"; "LongLeftArrow;"; "LongLeftRightArrow;";
    "LongRightArrow;"; "Longleftarrow;"; "Longleftrightarrow;";
    "Longrightarrow;"; "Lopf;"; "LowerLeftArrow;"; "LowerRightArrow;";
    "Lscr;"; "Lsh;"; "Lstrok;"; "Lt;"; "Map;"; "Mcy;"; "MediumSpace;";
    "Mellintrf;"; "Mfr;"; "MinusPlus;"; "Mopf;"; "Mscr;"; "Mu;"; "NJcy;";
    "Nacute;"; "Ncaron;"; "Ncedil;"; "Ncy;"; "NegativeMediumSpace;";
    "NegativeThickSpace;"; "NegativeThinSpace;"; "NegativeVeryThinSpace;";
    "NestedGreaterGreater;"; "NestedLessLess;"; "Nfr;"; "NoBreak;"; "Nopf;";
    "Not;"; "NotCongruent;"; "NotCupCap;"; "NotDoubleVerticalBar;";
    "NotElement;"; "NotEqual;"; "NotEqualTilde;"; "NotExists;";
    "NotGreater;"; "NotGreaterEqual;"; "NotGreaterFullEqual;";
    "NotGreaterGreater;"; "NotGreaterLess;"; "NotGreaterSlantEqual;";
    "NotGreaterTilde;"; "NotHumpDownHump;"; "NotHumpEqual;";
    "NotLeftTriangle;"; "NotLeftTriangleBar;"; "NotLeftTriangleEqual;";
    "NotLess;"; "NotLessEqual;"; "NotLessGreater;"; "NotLessLess;";
    "NotLessSlantEqual;"; "NotLessTilde;"; "NotNestedGreaterGreater;";
    "NotNestedLessLess;"; "NotPrecedes;"; "NotPrecedesEqual;";
    "NotPrecedesSlantEqual;"; "NotReverseElement;"; "NotRightTriangle;";
    "NotRightTriangleBar;"; "NotRightTriangleEqual;"; "NotSquareSubset;";
    "NotSquareSubsetEqual;"; "NotSquareSuperset;"; "NotSquareSupersetEqual;";
    "NotSubset;"; "NotSubsetEqual;"; "NotSucceeds;"; "NotSucceedsEqual;";
    "NotSucceedsSlantEqual;"; "NotSucceedsTilde;"; "NotSuperset;";
    "NotSupersetEqual;"; "NotTilde;"; "NotTildeEqual;"; "NotTildeFullEqual;";
    "NotTildeTilde;"; "NotVerticalBar;"; "Nscr;"; "Nu;"; "OElig;"; "Ocy;";
    "Odblac;"; "Ofr;"; "Omacr;"; "Omega;"; "Omicron;"; "Oopf;";
    "OpenCurlyDoubleQuote;"; "OpenCurlyQuote;"; "Or;"; "Oscr;"; "Otimes;";
    "OverBar;"; "OverBrace;"; "OverBracket;"; "OverParenthesis;";
    "PartialD;"; "Pcy;"; "Pfr;"; "Phi;"; "Pi;"; "Poincareplane;"; "Popf;";
    "Pr;"; "Precedes;"; "PrecedesEqual;"; "PrecedesSlantEqual;";
    "PrecedesTilde;"; "Prime;"; "Product;"; "Proportion;"; "Proportional;";
    "Pscr;"; "Psi;"; "Qfr;"; "Qopf;"; "Qscr;"; "RBarr;"; "Racute;"; "Rang;";
    "Rarr;"; "Rarrtl;"; "Rcaron;"; "Rcedil;"; "Rcy;"; "Re;";
    "ReverseElement;"; "ReverseEquilibrium;"; "ReverseUpEquilibrium;";
    "Rfr;"; "Rho;"; "RightAngleBracket;"; "RightArrow;"; "RightArrowBar;";
    "RightArrowLeftArrow;"; "RightCeiling;"; "RightDoubleBracket;";
    "RightDownTeeVector;"; "RightDownVector;"; "RightDownVectorBar;";
    "RightFloor;"; "RightTee;"; "RightTeeArrow;"; "RightTeeVector;";
    "RightTriangle;"; "RightTriangleBar;"; "RightTriangleEqual;";
    "RightUpDownVector;"; "RightUpTeeVector;"; "RightUpVector;";
    "RightUpVectorBar;"; "RightVector;"; "RightVectorBar;"; "Rightarrow;";
    "Ropf;"; "RoundImplies;"; "Rrightarrow;"; "Rscr;"; "Rsh;";
    "RuleDelayed;"; "SHCHcy;"; "SHcy;"; "SOFTcy;"; "Sacute;"; "Sc;";
    "Scaron;"; "Scedil;"; "Scirc;"; "Scy;"; "Sfr;"; "ShortDownArrow;";
    "ShortLeftArrow;"; "ShortRightArrow;"; "ShortUpArrow;"; "Sigma;";
    "SmallCircle;"; "Sopf;"; "Sqrt;"; "Square;"; "SquareIntersection;";
    "SquareSubset;"; "SquareSubsetEqual;"; "SquareSuperset;";
    "SquareSupersetEqual;"; "SquareUnion;"; "Sscr;"; "Star;"; "Sub;";
    "Subset;"; "SubsetEqual;"; "Succeeds;"; "SucceedsEqual;";
    "SucceedsSlantEqual;"; "SucceedsTilde;"; "SuchThat;"; "Sum;"; "Sup;";
    "Superset;"; "SupersetEqual;"; "Supset;"; "TRADE;"; "TSHcy;"; "TScy;";
    "Tau;"; "Tcaron;"; "Tcedil;"; "Tcy;"; "Tfr;"; "Therefore;"; "Theta;";
    "ThickSpace;"; "ThinSpace;"; "Tilde;"; "TildeEqual;"; "TildeFullEqual;";
    "TildeTilde;"; "Topf;"; "TripleDot;"; "Tscr;"; "Tstrok;"; "Uarr;";
    "Uarrocir;"; "Ubrcy;"; "Ubreve;"; "Ucy;"; "Udblac;"; "Ufr;"; "Umacr;";
    "UnderBrace;"; "UnderBracket;"; "UnderParenthesis;"; "Union;";
    "UnionPlus;"; "Uogon;"; "Uopf;"; "UpArrow;"; "UpArrowBar;";
    "UpArrowDownArrow;"; "UpDownArrow;"; "UpEquilibrium;"; "UpTee;";
    "UpTeeArrow;"; "Uparrow;"; "Updownarrow;"; "UpperLeftArrow;";
    "UpperRightArrow;"; "Upsi;"; "Upsilon;"; "Uring;"; "Uscr;"; "Utilde;";
    "VDash;"; "Vbar;"; "Vcy;"; "Vdash;"; "Vdashl;"; "Vee;"; "Verbar;";
    "Vert;"; "VerticalBar;"; "VerticalSeparator;"; "VerticalTilde;";
    "VeryThinSpace;"; "Vfr;"; "Vopf;"; "Vscr;"; "Vvdash;"; "Wcirc;";
    "Wedge;"; "Wfr;"; "Wopf;"; "Wscr;"; "Xfr;"; "Xi;"; "Xopf;"; "Xscr;";
    "YAcy;"; "YIcy;"; "YUcy;"; "Ycirc;"; "Ycy;"; "Yfr;"; "Yopf;"; "Yscr;";
    "Yuml;"; "ZHcy;"; "Zacute;"; "Zcaron;"; "Zcy;"; "Zdot;";
    "ZeroWidthSpace;"; "Zeta;"; "Zfr;"; "Zopf;"; "Zscr;"; "abreve;"; "ac;";
    "acE;"; "acd;"; "acy;"; "af;"; "afr;"; "alefsym;"; "aleph;"; "alpha;";
    "amacr;"; "amalg;"; "and;"; "andand;"; "andd;"; "andslope;"; "andv;";
    "ang;"; "ange;"; "angle;"; "angmsd;"; "angmsdaa;"; "angmsdab;";
    "angmsdac;"; "angmsdad;"; "angmsdae;"; "angmsdaf;"; "angmsdag;";
    "angmsdah;"; "angrt;"; "angrtvb;"; "angrtvbd;"; "angsph;"; "angzarr;";
    "aogon;"; "aopf;"; "ap;"; "apE;"; "apacir;"; "ape;"; "apid;"; "approx;";
    "approxeq;"; "ascr;"; "asymp;"; "asympeq;"; "awconint;"; "awint;";
    "bNot;"; "backcong;"; "backepsilon;"; "backprime;"; "backsim;";
    "backsimeq;"; "barvee;"; "barwed;"; "barwedge;"; "bbrk;"; "bbrktbrk;";
    "bcong;"; "bcy;"; "bdquo;"; "becaus;"; "because;"; "bemptyv;"; "bepsi;";
    "bernou;"; "beta;"; "beth;"; "between;"; "bfr;"; "bigcap;"; "bigcirc;";
    "bigcup;"; "bigodot;"; "bigoplus;"; "bigotimes;"; "bigsqcup;";
    "bigstar;"; "bigtriangledown;"; "bigtriangleup;"; "biguplus;"; "bigvee;";
    "bigwedge;"; "bkarow;"; "blacklozenge;"; "blacksquare;";
    "blacktriangle;"; "blacktriangledown;"; "blacktriangleleft;";
    "blacktriangleright;"; "blank;"; "blk12;"; "blk14;"; "blk34;"; "block;";
    "bne;"; "bnequiv;"; "bnot;"; "bopf;"; "bot;"; "bottom;"; "bowtie;";
    "boxDL;"; "boxDR;"; "boxDl;"; "boxDr;"; "boxH;"; "boxHD;"; "boxHU;";
    "boxHd;"; "boxHu;"; "boxUL;"; "boxUR;"; "boxUl;"; "boxUr;"; "boxV;";
    "boxVH;"; "boxVL;"; "boxVR;"; "boxVh;"; "boxVl;"; "boxVr;"; "boxbox;";
    "boxdL;"; "boxdR;"; "boxdl;"; "boxdr;"; "boxh;"; "boxhD;"; "boxhU;";
    "boxhd;"; "boxhu;"; "boxminus;"; "boxplus;"; "boxtimes;"; "boxuL;";
    "boxuR;"; "boxul;"; "boxur;"; "boxv;"; "boxvH;"; "boxvL;"; "boxvR;";
    "boxvh;"; "boxvl;"; "boxvr;"; "bprime;"; "breve;"; "bscr;"; "bsemi;";
    "bsim;"; "bsime;"; "bsolb;"; "bsolhsub;"; "bull;"; "bullet;"; "bump;";
    "bumpE;"; "bumpe;"; "bumpeq;"; "cacute;"; "cap;"; "capand;"; "capbrcup;";
    "capcap;"; "capcup;"; "capdot;"; "caps;"; "caret;"; "caron;"; "ccaps;";
    "ccaron;"; "ccirc;"; "ccups;"; "ccupssm;"; "cdot;"; "cemptyv;"; "cfr;";
    "chcy;"; "check;"; "checkmark;"; "chi;"; "cir;"; "cirE;"; "circ;";
    "circeq;"; "circlearrowleft;"; "circlearrowright;"; "circledS;";
    "circledast;"; "circledcirc;"; "circleddash;"; "cire;"; "cirfnint;";
    "cirmid;"; "cirscir;"; "clubs;"; "clubsuit;"; "colone;"; "coloneq;";
    "comp;"; "compfn;"; "complement;"; "complexes;"; "cong;"; "congdot;";
    "conint;"; "copf;"; "coprod;"; "copysr;"; "crarr;"; "cross;"; "cscr;";
    "csub;"; "csube;"; "csup;"; "csupe;"; "ctdot;"; "cudarrl;"; "cudarrr;";
    "cuepr;"; "cuesc;"; "cularr;"; "cularrp;"; "cup;"; "cupbrcap;";
    "cupcap;"; "cupcup;"; "cupdot;"; "cupor;"; "cups;"; "curarr;";
    "curarrm;"; "curlyeqprec;"; "curlyeqsucc;"; "curlyvee;"; "curlywedge;";
    "curvearrowleft;"; "curvearrowright;"; "cuvee;"; "cuwed;"; "cwconint;";
    "cwint;"; "cylcty;"; "dArr;"; "dHar;"; "dagger;"; "daleth;"; "darr;";
    "dash;"; "dashv;"; "dbkarow;"; "dblac;"; "dcaron;"; "dcy;"; "dd;";
    "ddagger;"; "ddarr;"; "ddotseq;"; "delta;"; "demptyv;"; "dfisht;";
    "dfr;"; "dharl;"; "dharr;"; "diam;"; "diamond;"; "diamondsuit;";
    "diams;"; "digamma;"; "disin;"; "divideontimes;"; "divonx;"; "djcy;";
    "dlcorn;"; "dlcrop;"; "dopf;"; "dot;"; "doteq;"; "doteqdot;";
    "dotminus;"; "dotplus;"; "dotsquare;"; "doublebarwedge;"; "downarrow;";
    "downdownarrows;"; "downharpoonleft;"; "downharpoonright;"; "drbkarow;";
    "drcorn;"; "drcrop;"; "dscr;"; "dscy;"; "dsol;"; "dstrok;"; "dtdot;";
    "dtri;"; "dtrif;"; "duarr;"; "duhar;"; "dwangle;"; "dzcy;"; "dzigrarr;";
    "eDDot;"; "eDot;"; "easter;"; "ecaron;"; "ecir;"; "ecolon;"; "ecy;";
    "edot;"; "ee;"; "efDot;"; "efr;"; "eg;"; "egs;"; "egsdot;"; "el;";
    "elinters;"; "ell;"; "els;"; "elsdot;"; "emacr;"; "empty;"; "emptyset;";
    "emptyv;"; "emsp13;"; "emsp14;"; "emsp;"; "eng;"; "ensp;"; "eogon;";
    "eopf;"; "epar;"; "eparsl;"; "eplus;"; "epsi;"; "epsilon;"; "epsiv;";
    "eqcirc;"; "eqcolon;"; "eqsim;"; "eqslantgtr;"; "eqslantless;";
    "equest;"; "equiv;"; "equivDD;"; "eqvparsl;"; "erDot;"; "erarr;";
    "escr;"; "esdot;"; "esim;"; "eta;"; "euro;"; "exist;"; "expectation;";
    "exponentiale;"; "fallingdotseq;"; "fcy;"; "female;"; "ffilig;";
    "fflig;"; "ffllig;"; "ffr;"; "filig;"; "flat;"; "fllig;"; "fltns;";
    "fnof;"; "fopf;"; "forall;"; "fork;"; "forkv;"; "fpartint;"; "frac13;";
    "frac15;"; "frac16;"; "frac18;"; "frac23;"; "frac25;"; "frac35;";
    "frac38;"; "frac45;"; "frac56;"; "frac58;"; "frac78;"; "frasl;";
    "frown;"; "fscr;"; "gE;"; "gEl;"; "gacute;"; "gamma;"; "gammad;"; "gap;";
    "gbreve;"; "gcirc;"; "gcy;"; "gdot;"; "ge;"; "gel;"; "geq;"; "geqq;";
    "geqslant;"; "ges;"; "gescc;"; "gesdot;"; "gesdoto;"; "gesdotol;";
    "gesl;"; "gesles;"; "gfr;"; "gg;"; "ggg;"; "gimel;"; "gjcy;"; "gl;";
    "glE;"; "gla;"; "glj;"; "gnE;"; "gnap;"; "gnapprox;"; "gne;"; "gneq;";
    "gneqq;"; "gnsim;"; "gopf;"; "gscr;"; "gsim;"; "gsime;"; "gsiml;";
    "gtcc;"; "gtcir;"; "gtdot;"; "gtlPar;"; "gtquest;"; "gtrapprox;";
    "gtrarr;"; "gtrdot;"; "gtreqless;"; "gtreqqless;"; "gtrless;"; "gtrsim;";
    "gvertneqq;"; "gvnE;"; "hArr;"; "hairsp;"; "hamilt;"; "hardcy;"; "harr;";
    "harrcir;"; "harrw;"; "hbar;"; "hcirc;"; "hearts;"; "heartsuit;";
    "hellip;"; "hercon;"; "hfr;"; "hksearow;"; "hkswarow;"; "hoarr;";
    "homtht;"; "hookleftarrow;"; "hookrightarrow;"; "hopf;"; "horbar;";
    "hscr;"; "hslash;"; "hstrok;"; "hybull;"; "hyphen;"; "ic;"; "icy;";
    "iecy;"; "iff;"; "ifr;"; "ii;"; "iiiint;"; "iiint;"; "iinfin;"; "iiota;";
    "ijlig;"; "imacr;"; "image;"; "imagline;"; "imagpart;"; "imath;";
    "imof;"; "imped;"; "in;"; "incare;"; "infin;"; "infintie;"; "inodot;";
    "int;"; "intcal;"; "integers;"; "intercal;"; "intlarhk;"; "intprod;";
    "iocy;"; "iogon;"; "iopf;"; "iota;"; "iprod;"; "iscr;"; "isin;";
    "isinE;"; "isindot;"; "isins;"; "isinsv;"; "isinv;"; "it;"; "itilde;";
    "iukcy;"; "jcirc;"; "jcy;"; "jfr;"; "jmath;"; "jopf;"; "jscr;";
    "jsercy;"; "jukcy;"; "kappa;"; "kappav;"; "kcedil;"; "kcy;"; "kfr;";
    "kgreen;"; "khcy;"; "kjcy;"; "kopf;"; "kscr;"; "lAarr;"; "lArr;";
    "lAtail;"; "lBarr;"; "lE;"; "lEg;"; "lHar;"; "lacute;"; "laemptyv;";
    "lagran;"; "lambda;"; "lang;"; "langd;"; "langle;"; "lap;"; "larr;";
    "larrb;"; "larrbfs;"; "larrfs;"; "larrhk;"; "larrlp;"; "larrpl;";
    "larrsim;"; "larrtl;"; "lat;"; "latail;"; "late;"; "lates;"; "lbarr;";
    "lbbrk;"; "lbrke;"; "lbrksld;"; "lbrkslu;"; "lcaron;"; "lcedil;";
    "lceil;"; "lcy;"; "ldca;"; "ldquo;"; "ldquor;"; "ldrdhar;"; "ldrushar;";
    "ldsh;"; "le;"; "leftarrow;"; "leftarrowtail;"; "leftharpoondown;";
    "leftharpoonup;"; "leftleftarrows;"; "leftrightarrow;";
    "leftrightarrows;"; "leftrightharpoons;"; "leftrightsquigarrow;";
    "leftthreetimes;"; "leg;"; "leq;"; "leqq;"; "leqslant;"; "les;";
    "lescc;"; "lesdot;"; "lesdoto;"; "lesdotor;"; "lesg;"; "lesges;";
    "lessapprox;"; "lessdot;"; "lesseqgtr;"; "lesseqqgtr;"; "lessgtr;";
    "lesssim;"; "lfisht;"; "lfloor;"; "lfr;"; "lg;"; "lgE;"; "lhard;";
    "lharu;"; "lharul;"; "lhblk;"; "ljcy;"; "ll;"; "llarr;"; "llcorner;";
    "llhard;"; "lltri;"; "lmidot;"; "lmoust;"; "lmoustache;"; "lnE;";
    "lnap;"; "lnapprox;"; "lne;"; "lneq;"; "lneqq;"; "lnsim;"; "loang;";
    "loarr;"; "lobrk;"; "longleftarrow;"; "longleftrightarrow;";
    "longmapsto;"; "longrightarrow;"; "looparrowleft;"; "looparrowright;";
    "lopar;"; "lopf;"; "loplus;"; "lotimes;"; "lowast;"; "loz;"; "lozenge;";
    "lozf;"; "lparlt;"; "lrarr;"; "lrcorner;"; "lrhar;"; "lrhard;"; "lrm;";
    "lrtri;"; "lsaquo;"; "lscr;"; "lsh;"; "lsim;"; "lsime;"; "lsimg;";
    "lsquo;"; "lsquor;"; "lstrok;"; "ltcc;"; "ltcir;"; "ltdot;"; "lthree;";
    "ltimes;"; "ltlarr;"; "ltquest;"; "ltrPar;"; "ltri;"; "ltrie;"; "ltrif;";
    "lurdshar;"; "luruhar;"; "lvertneqq;"; "lvnE;"; "mDDot;"; "male;";
    "malt;"; "maltese;"; "map;"; "mapsto;"; "mapstodown;"; "mapstoleft;";
    "mapstoup;"; "marker;"; "mcomma;"; "mcy;"; "mdash;"; "measuredangle;";
    "mfr;"; "mho;"; "mid;"; "midcir;"; "minus;"; "minusb;"; "minusd;";
    "minusdu;"; "mlcp;"; "mldr;"; "mnplus;"; "models;"; "mopf;"; "mp;";
    "mscr;"; "mstpos;"; "mu;"; "multimap;"; "mumap;"; "nGg;"; "nGt;";
    "nGtv;"; "nLeftarrow;"; "nLeftrightarrow;"; "nLl;"; "nLt;"; "nLtv;";
    "nRightarrow;"; "nVDash;"; "nVdash;"; "nabla;"; "nacute;"; "nang;";
    "nap;"; "napE;"; "napid;"; "napos;"; "napprox;"; "natur;"; "natural;";
    "naturals;"; "nbump;"; "nbumpe;"; "ncap;"; "ncaron;"; "ncedil;";
    "ncong;"; "ncongdot;"; "ncup;"; "ncy;"; "ndash;"; "ne;"; "neArr;";
    "nearhk;"; "nearr;"; "nearrow;"; "nedot;"; "nequiv;"; "nesear;";
    "nesim;"; "nexist;"; "nexists;"; "nfr;"; "ngE;"; "nge;"; "ngeq;";
    "ngeqq;"; "ngeqslant;"; "nges;"; "ngsim;"; "ngt;"; "ngtr;"; "nhArr;";
    "nharr;"; "nhpar;"; "ni;"; "nis;"; "nisd;"; "niv;"; "njcy;"; "nlArr;";
    "nlE;"; "nlarr;"; "nldr;"; "nle;"; "nleftarrow;"; "nleftrightarrow;";
    "nleq;"; "nleqq;"; "nleqslant;"; "nles;"; "nless;"; "nlsim;"; "nlt;";
    "nltri;"; "nltrie;"; "nmid;"; "nopf;"; "notin;"; "notinE;"; "notindot;";
    "notinva;"; "notinvb;"; "notinvc;"; "notni;"; "notniva;"; "notnivb;";
    "notnivc;"; "npar;"; "nparallel;"; "nparsl;"; "npart;"; "npolint;";
    "npr;"; "nprcue;"; "npre;"; "nprec;"; "npreceq;"; "nrArr;"; "nrarr;";
    "nrarrc;"; "nrarrw;"; "nrightarrow;"; "nrtri;"; "nrtrie;"; "nsc;";
    "nsccue;"; "nsce;"; "nscr;"; "nshortmid;"; "nshortparallel;"; "nsim;";
    "nsime;"; "nsimeq;"; "nsmid;"; "nspar;"; "nsqsube;"; "nsqsupe;"; "nsub;";
    "nsubE;"; "nsube;"; "nsubset;"; "nsubseteq;"; "nsubseteqq;"; "nsucc;";
    "nsucceq;"; "nsup;"; "nsupE;"; "nsupe;"; "nsupset;"; "nsupseteq;";
    "nsupseteqq;"; "ntgl;"; "ntlg;"; "ntriangleleft;"; "ntrianglelefteq;";
    "ntriangleright;"; "ntrianglerighteq;"; "nu;"; "numero;"; "numsp;";
    "nvDash;"; "nvHarr;"; "nvap;"; "nvdash;"; "nvge;"; "nvgt;"; "nvinfin;";
    "nvlArr;"; "nvle;"; "nvlt;"; "nvltrie;"; "nvrArr;"; "nvrtrie;"; "nvsim;";
    "nwArr;"; "nwarhk;"; "nwarr;"; "nwarrow;"; "nwnear;"; "oS;"; "oast;";
    "ocir;"; "ocy;"; "odash;"; "odblac;"; "odiv;"; "odot;"; "odsold;";
    "oelig;"; "ofcir;"; "ofr;"; "ogon;"; "ogt;"; "ohbar;"; "ohm;"; "oint;";
    "olarr;"; "olcir;"; "olcross;"; "oline;"; "olt;"; "omacr;"; "omega;";
    "omicron;"; "omid;"; "ominus;"; "oopf;"; "opar;"; "operp;"; "oplus;";
    "or;"; "orarr;"; "ord;"; "order;"; "orderof;"; "origof;"; "oror;";
    "orslope;"; "orv;"; "oscr;"; "osol;"; "otimes;"; "otimesas;"; "ovbar;";
    "par;"; "parallel;"; "parsim;"; "parsl;"; "part;"; "pcy;"; "permil;";
    "perp;"; "pertenk;"; "pfr;"; "phi;"; "phiv;"; "phmmat;"; "phone;"; "pi;";
    "pitchfork;"; "piv;"; "planck;"; "planckh;"; "plankv;"; "plusacir;";
    "plusb;"; "pluscir;"; "plusdo;"; "plusdu;"; "pluse;"; "plussim;";
    "plustwo;"; "pointint;"; "popf;"; "pr;"; "prE;"; "prap;"; "prcue;";
    "pre;"; "prec;"; "precapprox;"; "preccurlyeq;"; "preceq;";
    "precnapprox;"; "precneqq;"; "precnsim;"; "precsim;"; "prime;";
    "primes;"; "prnE;"; "prnap;"; "prnsim;"; "prod;"; "profalar;";
    "profline;"; "profsurf;"; "prop;"; "propto;"; "prsim;"; "prurel;";
    "pscr;"; "psi;"; "puncsp;"; "qfr;"; "qint;"; "qopf;"; "qprime;"; "qscr;";
    "quaternions;"; "quatint;"; "questeq;"; "rAarr;"; "rArr;"; "rAtail;";
    "rBarr;"; "rHar;"; "race;"; "racute;"; "radic;"; "raemptyv;"; "rang;";
    "rangd;"; "range;"; "rangle;"; "rarr;"; "rarrap;"; "rarrb;"; "rarrbfs;";
    "rarrc;"; "rarrfs;"; "rarrhk;"; "rarrlp;"; "rarrpl;"; "rarrsim;";
    "rarrtl;"; "rarrw;"; "ratail;"; "ratio;"; "rationals;"; "rbarr;";
    "rbbrk;"; "rbrke;"; "rbrksld;"; "rbrkslu;"; "rcaron;"; "rcedil;";
    "rceil;"; "rcy;"; "rdca;"; "rdldhar;"; "rdquo;"; "rdquor;"; "rdsh;";
    "real;"; "realine;"; "realpart;"; "reals;"; "rect;"; "rfisht;";
    "rfloor;"; "rfr;"; "rhard;"; "rharu;"; "rharul;"; "rho;"; "rhov;";
    "rightarrow;"; "rightarrowtail;"; "rightharpoondown;"; "rightharpoonup;";
    "rightleftarrows;"; "rightleftharpoons;"; "rightrightarrows;";
    "rightsquigarrow;"; "rightthreetimes;"; "ring;"; "risingdotseq;";
    "rlarr;"; "rlhar;"; "rlm;"; "rmoust;"; "rmoustache;"; "rnmid;"; "roang;";
    "roarr;"; "robrk;"; "ropar;"; "ropf;"; "roplus;"; "rotimes;"; "rpargt;";
    "rppolint;"; "rrarr;"; "rsaquo;"; "rscr;"; "rsh;"; "rsquo;"; "rsquor;";
    "rthree;"; "rtimes;"; "rtri;"; "rtrie;"; "rtrif;"; "rtriltri;";
    "ruluhar;"; "rx;"; "sacute;"; "sbquo;"; "sc;"; "scE;"; "scap;";
    "scaron;"; "sccue;"; "sce;"; "scedil;"; "scirc;"; "scnE;"; "scnap;";
    "scnsim;"; "scpolint;"; "scsim;"; "scy;"; "sdot;"; "sdotb;"; "sdote;";
    "seArr;"; "searhk;"; "searr;"; "searrow;"; "seswar;"; "setminus;";
    "setmn;"; "sext;"; "sfr;"; "sfrown;"; "sharp;"; "shchcy;"; "shcy;";
    "shortmid;"; "shortparallel;"; "sigma;"; "sigmaf;"; "sigmav;"; "sim;";
    "simdot;"; "sime;"; "simeq;"; "simg;"; "simgE;"; "siml;"; "simlE;";
    "simne;"; "simplus;"; "simrarr;"; "slarr;"; "smallsetminus;"; "smashp;";
    "smeparsl;"; "smid;"; "smile;"; "smt;"; "smte;"; "smtes;"; "softcy;";
    "solb;"; "solbar;"; "sopf;"; "spades;"; "spadesuit;"; "spar;"; "sqcap;";
    "sqcaps;"; "sqcup;"; "sqcups;"; "sqsub;"; "sqsube;"; "sqsubset;";
    "sqsubseteq;"; "sqsup;"; "sqsupe;"; "sqsupset;"; "sqsupseteq;"; "squ;";
    "square;"; "squarf;"; "squf;"; "srarr;"; "sscr;"; "ssetmn;"; "ssmile;";
    "sstarf;"; "star;"; "starf;"; "straightepsilon;"; "straightphi;"; "sub;";
    "subE;"; "subdot;"; "sube;"; "subedot;"; "submult;"; "subnE;"; "subne;";
    "subplus;"; "subrarr;"; "subset;"; "subseteq;"; "subseteqq;";
    "subsetneq;"; "subsetneqq;"; "subsim;"; "subsub;"; "subsup;"; "succ;";
    "succapprox;"; "succcurlyeq;"; "succeq;"; "succnapprox;"; "succneqq;";
    "succnsim;"; "succsim;"; "sum;"; "sung;"; "sup;"; "supE;"; "supdot;";
    "supdsub;"; "supe;"; "supedot;"; "suphsol;"; "suphsub;"; "suplarr;";
    "supmult;"; "supnE;"; "supne;"; "supplus;"; "supset;"; "supseteq;";
    "supseteqq;"; "supsetneq;"; "supsetneqq;"; "supsim;"; "supsub;";
    "supsup;"; "swArr;"; "swarhk;"; "swarr;"; "swarrow;"; "swnwar;";
    "target;"; "tau;"; "tbrk;"; "tcaron;"; "tcedil;"; "tcy;"; "tdot;";
    "telrec;"; "tfr;"; "there4;"; "therefore;"; "theta;"; "thetasym;";
    "thetav;"; "thickapprox;"; "thicksim;"; "thinsp;"; "thkap;"; "thksim;";
    "tilde;"; "timesb;"; "timesbar;"; "timesd;"; "tint;"; "toea;"; "top;";
    "topbot;"; "topcir;"; "topf;"; "topfork;"; "tosa;"; "tprime;"; "trade;";
    "triangle;"; "triangledown;"; "triangleleft;"; "trianglelefteq;";
    "triangleq;"; "triangleright;"; "trianglerighteq;"; "tridot;"; "trie;";
    "triminus;"; "triplus;"; "trisb;"; "tritime;"; "trpezium;"; "tscr;";
    "tscy;"; "tshcy;"; "tstrok;"; "twixt;"; "twoheadleftarrow;";
    "twoheadrightarrow;"; "uArr;"; "uHar;"; "uarr;"; "ubrcy;"; "ubreve;";
    "ucy;"; "udarr;"; "udblac;"; "udhar;"; "ufisht;"; "ufr;"; "uharl;";
    "uharr;"; "uhblk;"; "ulcorn;"; "ulcorner;"; "ulcrop;"; "ultri;";
    "umacr;"; "uogon;"; "uopf;"; "uparrow;"; "updownarrow;";
    "upharpoonleft;"; "upharpoonright;"; "uplus;"; "upsi;"; "upsih;";
    "upsilon;"; "upuparrows;"; "urcorn;"; "urcorner;"; "urcrop;"; "uring;";
    "urtri;"; "uscr;"; "utdot;"; "utilde;"; "utri;"; "utrif;"; "uuarr;";
    "uwangle;"; "vArr;"; "vBar;"; "vBarv;"; "vDash;"; "vangrt;";
    "varepsilon;"; "varkappa;"; "varnothing;"; "varphi;"; "varpi;";
    "varpropto;"; "varr;"; "varrho;"; "varsigma;"; "varsubsetneq;";
    "varsubsetneqq;"; "varsupsetneq;"; "varsupsetneqq;"; "vartheta;";
    "vartriangleleft;"; "vartriangleright;"; "vcy;"; "vdash;"; "vee;";
    "veebar;"; "veeeq;"; "vellip;"; "vfr;"; "vltri;"; "vnsub;"; "vnsup;";
    "vopf;"; "vprop;"; "vrtri;"; "vscr;"; "vsubnE;"; "vsubne;"; "vsupnE;";
    "vsupne;"; "vzigzag;"; "wcirc;"; "wedbar;"; "wedge;"; "wedgeq;";
    "weierp;"; "wfr;"; "wopf;"; "wp;"; "wr;"; "wreath;"; "wscr;"; "xcap;";
    "xcirc;"; "xcup;"; "xdtri;"; "xfr;"; "xhArr;"; "xharr;"; "xi;"; "xlArr;";
    "xlarr;"; "xmap;"; "xnis;"; "xodot;"; "xopf;"; "xoplus;"; "xotime;";
    "xrArr;"; "xrarr;"; "xscr;"; "xsqcup;"; "xuplus;"; "xutri;"; "xvee;";
    "xwedge;"; "yacy;"; "ycirc;"; "ycy;"; "yfr;"; "yicy;"; "yopf;"; "yscr;";
    "yucy;"; "zacute;"; "zcaron;"; "zcy;"; "zdot;"; "zeetrf;"; "zeta;";
    "zfr;"; "zhcy;"; "zigrarr;"; "zopf;"; "zscr;"; "zwj;"; "zwnj;"
  ].

Fixpoint lookup (k : string) (table : list (string * string)) : option string :=
  match table with
  | [] => None
  | (k', v) :: rest => if String.eqb k k' then Some v else lookup k rest
  end.

(** [s in _html5] and [_html5[s]]: the text of a name of the table, [Some
    None] for a name whose text this model cannot write, [None] for a
    name that the table does not have. *)
Definition entity (k : string) : option (option string) :=
  match lookup k html5 with
  | Some v => Some (Some v)
  | None => if Str.mem k html5_beyond then Some None else None
  end.

Definition digit_value (c : ascii) : N :=
  let n := Chars.code c in
  if Chars.isdigit c then n - 48
  else if Chars.between 97 102 c then n - 87
  else if Chars.between 65 70 c then n - 55
  else 0.

(** [int(s, base)] on a run of digits of that base. *)
Fixpoint parse_int (base : N) (acc : N) (s : string) : N :=
  match s with
  | EmptyString => acc
  | String c s' => parse_int base (acc * base + digit_value c) s'
  end.

(** The numeric branch of [_replace_charref]: [_invalid_charrefs], the
    surrogate and range test, [_invalid_codepoints], then [chr(num)].
    Where Python answers with a character above U+00FF (among them the
    replacement character U+FFFD) the text has no counterpart in the
    alphabet of this model and the reference [whole] is left as written. *)
Definition numeric_charref (whole : string) (num : N) : string :=
  let chr := String (ascii_of_N num) "" in
  if (num =? 0)%N then whole
  else if (num =? 13)%N then chr
  else if ((128 <=? num) && (num <=? 159))%N then
    if existsb (N.eqb num) [129; 141; 143; 144; 157]%N then chr else whole
  else if ((55296 <=? num) && (num <=? 57343) || (1114111 <? num))%N then whole
  else if ((1 <=? num) && (num <=? 8) || (14 <=? num) && (num <=? 31)
           || (num =? 127) || (num =? 11)
           || (64976 <=? num) && (num <=? 65007)
           || (65534 <=? num mod 65536))%N then ""
  else if (num <? 256)%N then chr
  else whole.

(** The named branch: the whole name, else its longest prefix of at least
    two characters found in the table, else the text unchanged.  Where the
    table answers with characters above U+00FF the text has no counterpart
    in the alphabet of this model and the reference is left as written. *)
Fixpoint named_prefix (x : nat) (s : string) : string :=
  match x with
  | S x' =>
      if (2 <=? x)%nat then
        match entity (Str.take x s) with
        | Some (Some v) => v ++ Str.drop x s
        | Some None => "&" ++ s
        | None => named_prefix x' s
        end
      else "&" ++ s
  | O => "&" ++ s
  end.

Definition named_charref (s : string) : string :=
  match entity s with
  | Some (Some v) => v
  | Some None => "&" ++ s
  | None => named_prefix (String.length s - 1) s
  end.

Definition semicolon : ascii -> bool := Chars.just ";".

(** [_replace_charref], applied to the whole match ([s] is group 1). *)
Definition replace_charref (whole : string) : string :=
  let s := Str.drop 1 whole in
  match s with
  | String "#" (String c t as d) =>
      if Chars.one_of "xX" c
      then numeric_charref whole (parse_int 16 0 (Str.rstrip_of semicolon t))
      else numeric_charref whole (parse_int 10 0 (Str.rstrip_of semicolon d))
  | _ => named_charref s
  end.

(** [[^\t\n\f <&#;]] *)
Definition name_char : ascii -> bool :=
  Chars.neg (fun c => Chars.between 9 10 c || (Chars.code c =? 12)%N
                      || Chars.one_of " <&#;" c).

(** [&(#[0-9]+;?|#[xX][0-9a-fA-F]+;?|[^\t\n\f <&#;]{1,32};?)] *)
Definition charref : Re.regex :=
  Re.Seq (Re.Lit "&")
    (Re.Alt
       (Re.Seq (Re.Lit "#") (Re.Seq (Re.Plus Chars.isdigit) (Re.Opt (Re.Lit ";"))))
       (Re.Alt
          (Re.Seq (Re.Lit "#")
             (Re.Seq (Re.Cls (Chars.one_of "xX"))
                (Re.Seq (Re.Plus Chars.ishex) (Re.Opt (Re.Lit ";")))))
          (Re.Seq (Re.Cls name_char)
             (Re.Seq (Re.UpTo 31 name_char) (Re.Opt (Re.Lit ";")))))).

(** [html.unescape]. *)
Definition unescape (s : string) : string :=
  if negb (Str.contains "&" s) then s
  else Re.sub_with charref replace_charref s.

End Html.

(* ================================================================== *)
(** * Data model *)

Record NoteRecord : Type := mkNote {
  folder : string;
  title : string;
  created : string;
  body_html : string
}.

Record SuggestedFolder : Type := mkSuggested {
  name : string;
  confidence : Q;
  reason : string
}.

Definition nl : string := String (ascii_of_N 10) "".

(** [SAMPLE_NOTES], the built-in fixture. *)
Definition SAMPLE_NOTES : list NoteRecord :=
  [ mkNote "Inbox" "Client meeting follow-up" "2024-11-02"
      (nl ++ "        <p>Send project timeline and updated budget to client.</p>"
       ++ nl ++ "        <p>Schedule next meeting for Thursday.</p>"
       ++ nl ++ "        ");
    mkNote "Personal" "Weekend meal prep ideas" "2024-11-01"
      (nl ++ "        <ul><li>Chicken bowls</li><li>Vegetarian chili</li></ul>"
       ++ nl ++ "        ");
    mkNote "Ideas" "New product brainstorm" "2024-10-29"
      (nl ++ "        <p>Focus on onboarding UX and real-time insights.</p>"
       ++ nl ++ "        ") ].

(* ================================================================== *)
(** * Text normalizer, slug and tokenizer *)

(** [<style[\s\S]*?>[\s\S]*?</style>] and the same for [script]. *)
Definition block_re (tag : string) : Re.regex :=
  Re.Seq (Re.Lit ("<" ++ tag))
    (Re.Seq (Re.LazyStar Chars.any)
       (Re.Seq (Re.Lit ">")
          (Re.Seq (Re.LazyStar Chars.any) (Re.Lit ("</" ++ tag ++ ">"))))).

(** [<br\s*/?>] under [re.IGNORECASE]. *)
Definition br_re : Re.regex :=
  Re.Seq (Re.LitNoCase "<br")
    (Re.Seq (Re.Star Chars.isspace)
       (Re.Seq (Re.Opt (Re.LitNoCase "/")) (Re.LitNoCase ">"))).

(** [</p>] under [re.IGNORECASE]. *)
Definition p_close_re : Re.regex := Re.LitNoCase "</p>".

(** [<[^>]+>] *)
Definition tag_re : Re.regex :=
  Re.Seq (Re.Lit "<") (Re.Seq (Re.Plus (Chars.neg (Chars.just ">"))) (Re.Lit ">")).

Definition strip_html (html_text : string) : string :=
  let text := Re.sub (block_re "style") "" html_text in
  let text := Re.sub (block_re "script") "" text in
  let text := Re.sub br_re nl text in
  let text := Re.sub p_close_re (nl ++ nl) text in
  let text := Re.sub tag_re "" text in
  let text := Html.unescape text in
  Str.strip text.

(** [[^a-z0-9\-\s]] *)
Definition not_slug_char : ascii -> bool :=
  Chars.neg (Chars.either Chars.isalnum_lower
               (Chars.either (Chars.just "-") Chars.isspace)).

Definition slugify (value : string) : string :=
  let value := Str.lower (Str.strip value) in
  let value := Re.sub (Re.Cls not_slug_char) "" value in
  let value := Re.sub (Re.Plus Chars.isspace) "-" value in
  Str.or_else value "untitled".

Definition tokenize (text : string) : list string :=
  Re.findall (Re.Plus Chars.isalnum_lower) (Str.lower text).

(* ================================================================== *)
(** * Folder classifier *)

(** The keyword table, in the insertion order of the [dict] literal. *)
Definition keyword_map : list (string * list string) :=
  [ ("Work", ["meeting"; "client"; "project"; "deadline"; "invoice";
              "deliverable"; "followup"]);
    ("Personal", ["family"; "birthday"; "travel"; "recipe"; "meal"; "weekend"]);
    ("Finance", ["budget"; "tax"; "expense"; "invoice"; "payment"]);
    ("Ideas", ["idea"; "brainstorm"; "concept"; "draft"]);
    ("Journal", ["today"; "gratitude"; "mood"; "reflection"; "diary"]) ].

(** [scores[folder] += 1] *)
Definition incr (folder : string) (scores : list (string * nat))
  : list (string * nat) :=
  List.map (fun item => if String.eqb (fst item) folder
                        then (fst item, S (snd item)) else item) scores.

(** The inner loop over [keyword_map.items()] for one token. *)
Definition score_token (table : list (string * list string))
  (scores : list (string * nat)) (token : string) : list (string * nat) :=
  fold_left (fun sc entry => if Str.mem token (snd entry)
                             then incr (fst entry) sc else sc) table scores.

(** [{folder: 0 for folder in keyword_map}] followed by the loop over
    the tokens. *)
Definition score_tokens (table : list (string * list string))
  (tokens : list string) : list (string * nat) :=
  fold_left (score_token table) tokens
    (List.map (fun entry => (fst entry, 0)) table).

(** [max(items, key=lambda item: item[1])]: the running best is replaced
    only by an item whose key is strictly greater, so the first of the
    maximal items wins. *)
Fixpoint max_from (best : string * nat) (rest : list (string * nat))
  : string * nat :=
  match rest with
  | [] => best
  | item :: rest' =>
      if (snd best <? snd item)%nat then max_from item rest' else max_from best rest'
  end.

Definition max_item (items : list (string * nat)) : option (string * nat) :=
  match items with
  | [] => None
  | first :: rest => Some (max_from first rest)
  end.

(** [max(a, b)] and [min(a, b)] on numbers: the second argument is
    returned only when it is strictly greater (respectively smaller). *)
Definition py_max (a b : Q) : Q := if Qle_bool b a then a else b.

Definition py_min (a b : Q) : Q := if Qle_bool a b then a else b.

Definition Qnat (n : nat) : Q := inject_Z (Z.of_nat n).

(** [min(1.0, best_score / max(3, len(tokens) / 4)) if best_score else 0.35] *)
Definition confidence_of (best_score token_count : nat) : Q :=
  if (best_score =? 0)%nat then (35 # 100)%Q
  else py_min 1 (Qnat best_score / py_max 3 (Qnat token_count / 4))%Q.

Definition suggest_folder (note : NoteRecord) (known_folders : list string)
  : SuggestedFolder :=
  let content := title note ++ " " ++ strip_html (body_html note) in
  let tokens := tokenize content in
  match tokens with
  | [] =>
      mkSuggested (Str.or_else (folder note) "Uncategorized") (2 # 10)%Q
        "Empty note"
  | _ :: _ =>
      let scores := score_tokens keyword_map tokens in
      match max_item scores with
      | None =>
          (* [max()] of an empty sequence raises; [scores] has one entry
             per folder of the table, which is not empty. *)
          mkSuggested "" 0%Q ""
      | Some (best_folder, best_score) =>
          let confidence := confidence_of best_score (List.length tokens) in
          if (best_score =? 0)%nat then
            let fallback := Str.or_else (folder note) "Uncategorized" in
            let reason := "No strong keyword match; keeping original folder" in
            if Str.mem fallback known_folders
            then mkSuggested fallback confidence reason
            else mkSuggested "Uncategorized" confidence reason
          else
            let reason := "Matched " ++ Str.of_nat best_score
                          ++ " keyword(s) for " ++ best_folder in
            let reason :=
              if negb (Str.mem best_folder known_folders)
                 && Str.truthy (folder note)
              then reason ++ "; original folder was " ++ folder note
              else reason in
            mkSuggested best_folder confidence reason
      end
  end.

(* ================================================================== *)
(** * Renderer *)

Definition format_note (record : NoteRecord) (output_format : string) : string :=
  let header := "# " ++ title record ++ nl ++ nl in
  let metadata := "Folder: " ++ folder record ++ nl
                  ++ "Created: " ++ created record ++ nl ++ nl in
  if String.eqb output_format "html" then
    "<h1>" ++ Html.escape (title record) ++ "</h1>" ++ nl
    ++ "<p><strong>Folder:</strong> " ++ Html.escape (folder record) ++ "<br/>"
    ++ "<strong>Created:</strong> " ++ Html.escape (created record) ++ "</p>" ++ nl
    ++ body_html record ++ nl
  else if String.eqb output_format "text" then
    title record ++ nl ++ folder record ++ nl ++ created record ++ nl ++ nl
    ++ strip_html (body_html record) ++ nl
  else header ++ metadata ++ strip_html (body_html record) ++ nl.

(* ================================================================== *)
(** * Aggregator *)

(** [sorted] on strings (code-point order), as an insertion sort on a key. *)
Fixpoint insert_by {A} (key : A -> string) (x : A) (xs : list A) : list A :=
  match xs with
  | [] => [x]
  | y :: ys =>
      if String.leb (key x) (key y) then x :: xs else y :: insert_by key x ys
  end.

Definition sorted_by {A} (key : A -> string) (xs : list A) : list A :=
  fold_right (insert_by key) [] xs.

(** [{note.folder for note in notes if note.folder}] *)
Definition folder_set (notes : list NoteRecord) : list string :=
  nodup string_dec (filter Str.truthy (List.map folder notes)).

(** [counts.setdefault(k, []).append(v)] on the insertion-ordered dict. *)
Fixpoint setdefault_append (k : string) (v : Q) (counts : list (string * list Q))
  : list (string * list Q) :=
  match counts with
  | [] => [(k, [v])]
  | (k', vs) :: rest =>
      if String.eqb k k' then (k', vs ++ [v])%list :: rest
      else (k', vs) :: setdefault_append k v rest
  end.

Record Bucket : Type := mkBucket {
  bucket_folder : string;
  count : nat;
  avg_confidence : Q
}.

Record Summary : Type := mkSummary {
  total : nat;
  buckets : list Bucket
}.

Definition Qsum (xs : list Q) : Q := fold_left Qplus xs 0%Q.

(** [round(x, 2)], read on exact rationals: the nearest hundredth, a tie
    going to the even one.  Python rounds the binary float nearest to [x],
    so on an exact tie of the rational the last digit may differ; no
    property below depends on the rounding. *)
Definition round2 (x : Q) : Q :=
  let y := (x * 100)%Q in
  let lo := Qfloor y in
  let up := match Qcompare (y - inject_Z lo) (1 # 2) with
            | Lt => lo
            | Gt => (lo + 1)%Z
            | Eq => if Z.even lo then lo else (lo + 1)%Z
            end in
  (inject_Z up / 100)%Q.

Definition assess_suggestions (notes : list NoteRecord) : Summary :=
  let known_folders := sorted_by (fun s => s) (folder_set notes) in
  let counts :=
    fold_left (fun counts note =>
                 let suggestion := suggest_folder note known_folders in
                 setdefault_append (name suggestion) (confidence suggestion) counts)
      notes [] in
  let buckets :=
    List.map (fun item =>
                let confidences := snd item in
                let average := (Qsum confidences / Qnat (List.length confidences))%Q in
                mkBucket (fst item) (List.length confidences) (round2 average))
      (sorted_by fst counts) in
  mkSummary (List.length notes) buckets.

(* ================================================================== *)
(** * Filesystem, clock and the exporter *)

Module Fs.

(** A path is the list of its components below the root it is read from. *)
Definition Path : Type := list string.

Definition path_eq_dec : forall p q : Path, {p = q} + {p <> q} :=
  list_eq_dec string_dec.

Fixpoint split_on (sep : ascii) (s : string) : list string :=
  match s with
  | EmptyString => [EmptyString]
  | String c s' =>
      if Ascii.eqb c sep then EmptyString :: split_on sep s'
      else match split_on sep s' with
           | [] => [String c EmptyString]
           | w :: ws => String c w :: ws
           end
  end.

(** A path component that [pathlib] keeps: neither empty nor [.]. *)
Definition kept_component (c : string) : bool :=
  negb (String.eqb c "" || String.eqb c ".").

(** The components of a relative segment: split at [/], empty and [.]
    components dropped. *)
Definition segments (seg : string) : list string :=
  filter kept_component (split_on "/" seg).

(** [path / seg] of [pathlib] for a relative segment.  Both segments the
    exporter appends begin with a slug, which never starts with [/]. *)
Definition div (p : Path) (seg : string) : Path := (p ++ segments seg)%list.

Inductive node : Type :=
| Dir
| File (content : string).

(** The exceptions of the filesystem calls.  The first four are the
    subclasses of [OSError] that the tree itself explains.  The others are
    those with which the system refuses a path for reasons the tree does
    not show: [PermissionError]; [NameTooLong], the plain [OSError] with
    errno [ENAMETOOLONG]; any other [OSError] by its errno (a full or
    read-only device); and [ValueError], which Python raises for a NUL
    character in a path and does not derive from [OSError]. *)
Inductive OSError : Type :=
| FileExistsError
| FileNotFoundError
| NotADirectoryError
| IsADirectoryError
| PermissionError
| NameTooLong
| OtherOSError (errno : nat)
| ValueError.

(** A [datetime] value, as far as the exporter looks at it. *)
Record datetime : Type := mkDatetime {
  year : nat;
  month : nat;
  day : nat;
  hour : nat;
  minute : nat;
  second : nat
}.

Fixpoint zeros (n : nat) : string :=
  match n with
  | O => EmptyString
  | S n' => String "0" (zeros n')
  end.

(** A number as a zero-padded decimal of at least [width] digits. *)
Definition padded (width n : nat) : string :=
  zeros (width - String.length (Str.of_nat n)) ++ Str.of_nat n.

(** [strftime("%Y%m%d-%H%M%S")] *)
Definition strftime (t : datetime) : string :=
  padded 4 (year t) ++ padded 2 (month t) ++ padded 2 (day t) ++ "-"
  ++ padded 2 (hour t) ++ padded 2 (minute t) ++ padded 2 (second t).

(** The world the exporter runs in: the filesystem tree, without links; a
    clock whose [n]-th reading is [clock n], with [reads] counting the
    readings taken; the refusals of the system; and the working directory
    of the process.  [denied p] is the exception with which the system
    answers a call ([os.mkdir], [open], [os.stat]) that is about to create
    or write the entry at [p], or to look at the directory it asked for
    at [p]; it is [None] where the system lets the call proceed. *)
Record World : Type := mkWorld {
  nodes : Path -> option node;
  clock : nat -> datetime;
  reads : nat;
  denied : Path -> option OSError;
  cwd : Path
}.

Definition node_at (w : World) (p : Path) : option node :=
  match p with
  | [] => Some Dir
  | _ => nodes w p
  end.

Definition put (p : Path) (n : node) (w : World) : World :=
  mkWorld (fun q => if path_eq_dec q p then Some n else nodes w q)
    (clock w) (reads w) (denied w) (cwd w).

Inductive outcome (A : Type) : Type :=
| Ok (a : A)
| Raise (e : OSError).

Arguments Ok {A} a.
Arguments Raise {A} e.

(** A computation reads and updates the world and returns or raises; the
    world reached is kept in both cases (nothing is rolled back). *)
Definition M (A : Type) : Type := World -> outcome A * World.

Definition ret {A} (a : A) : M A := fun w => (Ok a, w).

Definition raise {A} (e : OSError) : M A := fun w => (Raise e, w).

Definition bind {A B} (m : M A) (f : A -> M B) : M B :=
  fun w => match m w with
           | (Ok a, w') => f a w'
           | (Raise e, w') => (Raise e, w')
           end.

(** [Path.mkdir(parents=True, exist_ok=True)]: walking down from the root,
    an existing directory is kept, a missing one is created unless the
    system refuses it, and a regular file in the way raises.  Where the
    directory asked for exists, [exist_ok] has [is_dir] look at it, which
    the system may refuse as well.  The directories made before an
    exception stay. *)
Fixpoint mkdir_from (base : Path) (comps : list string) : M unit :=
  match comps with
  | [] => ret tt
  | c :: rest =>
      let p := (base ++ [c])%list in
      fun w =>
        match node_at w p with
        | Some Dir =>
            match rest with
            | [] =>
                match denied w p with
                | Some e => raise e w
                | None => ret tt w
                end
            | _ :: _ => mkdir_from p rest w
            end
        | Some (File _) =>
            match rest with
            | [] => raise FileExistsError w
            | _ :: _ => raise NotADirectoryError w
            end
        | None =>
            match denied w p with
            | Some e => raise e w
            | None => mkdir_from p rest (put p Dir w)
            end
        end
  end.

Definition mkdir (p : Path) : M unit := mkdir_from [] p.

(** [Path.write_text(content)]: the parent must be a directory and the
    path itself must not be one; unless the system refuses the path, the
    file is created, or overwritten if it exists. *)
Definition write_text (p : Path) (content : string) : M unit :=
  fun w =>
    match node_at w (removelast p) with
    | Some Dir =>
        match node_at w p with
        | Some Dir => raise IsADirectoryError w
        | _ =>
            match denied w p with
            | Some e => raise e w
            | None => (Ok tt, put p (File content) w)
            end
        end
    | Some (File _) => raise NotADirectoryError w
    | None => raise FileNotFoundError w
    end.

(** [datetime.now()]: one reading of the clock. *)
Definition now : M datetime :=
  fun w =>
    (Ok (clock w (reads w)),
     mkWorld (nodes w) (clock w) (S (reads w)) (denied w) (cwd w)).

(** The length of a name in bytes, as the system counts it: the UTF-8
    encoding takes one byte below U+0080 and two from there to U+00FF. *)
Fixpoint utf8_length (s : string) : nat :=
  match s with
  | EmptyString => 0
  | String c s' => (if (Chars.code c <? 128)%N then 1 else 2) + utf8_length s'
  end.

(** The refusals of a system without access restrictions and with the
    common limit of 255 bytes on a name: [ValueError] for a path with a NUL
    character, [NameTooLong] for one with a longer component. *)
Definition name_limits (p : Path) : option OSError :=
  if existsb (Str.contains (ascii_of_N 0)) p then Some ValueError
  else if existsb (fun c => (255 <? utf8_length c)%nat) p then Some NameTooLong
  else None.

End Fs.

Notation "x <- m ;; k" := (Fs.bind m (fun x => k))
  (at level 61, m at next level, right associativity).
Notation "m ;;; k" := (Fs.bind m (fun _ => k))
  (at level 61, right associativity).

(** [d.get(k, default)] on a dict given by its items. *)
Fixpoint dict_get (d : list (string * string)) (k : string) (default : string)
  : string :=
  match d with
  | [] => default
  | (k', v) :: rest => if String.eqb k k' then v else dict_get rest k default
  end.

(** [bool(folder_overrides)]: [None] and the empty dict are falsy. *)
Definition overrides_truthy (o : option (list (string * string))) : bool :=
  match o with
  | Some (_ :: _) => true
  | _ => false
  end.

(** [folder_overrides.get(record.title, record.folder) if folder_overrides
    else record.folder] *)
Definition folder_name_of (folder_overrides : option (list (string * string)))
  (record : NoteRecord) : string :=
  if overrides_truthy folder_overrides then
    match folder_overrides with
    | Some d => dict_get d (title record) (folder record)
    | None => folder record
    end
  else folder record.

(** The body of the [for record in notes] loop, then the rest of the loop. *)
Fixpoint export_loop (notes : list NoteRecord) (output_dir : Fs.Path)
  (output_format timestamp : string)
  (folder_overrides : option (list (string * string)))
  (created_paths : list Fs.Path) : Fs.M (list Fs.Path) :=
  match notes with
  | [] => Fs.ret created_paths
  | record :: rest =>
      let folder_name := folder_name_of folder_overrides record in
      let folder_dir :=
        Fs.div output_dir (slugify (Str.or_else folder_name "Uncategorized")) in
      Fs.mkdir folder_dir ;;;
      let filename :=
        slugify (title record) ++ "-" ++ timestamp ++ "." ++ output_format in
      let output_path := Fs.div folder_dir filename in
      let content := format_note record output_format in
      Fs.write_text output_path content ;;;
      export_loop rest output_dir output_format timestamp folder_overrides
        (created_paths ++ [output_path])%list
  end.

Definition export_notes (notes : list NoteRecord) (output_dir : Fs.Path)
  (output_format : string) (folder_overrides : option (list (string * string)))
  : Fs.M (list Fs.Path) :=
  Fs.mkdir output_dir ;;;
  t <- Fs.now ;;
  let timestamp := Fs.strftime t in
  export_loop notes output_dir output_format timestamp folder_overrides [].

(* ================================================================== *)
(** * Specification-side definitions

    The notions the specification speaks in, stated on their own so that
    the theorems below compare them with what the code computes. *)

(** The token sequence of a note: title and normalized body, tokenized. *)
Definition note_tokens (note : NoteRecord) : list string :=
  tokenize (title note ++ " " ++ strip_html (body_html note)).

(** How many tokens, with repetition, belong to a keyword set. *)
Definition hits (keywords tokens : list string) : nat :=
  List.length (filter (fun t => Str.mem t keywords) tokens).

(** [bestFolder] with [bestScore] is the arg-max of the table, the first in
    table order among the folders of maximal score. *)
Definition first_argmax (table : list (string * list string))
  (tokens : list string) (bestFolder : string) (bestScore : nat) : Prop :=
  exists before keywords after,
    table = (before ++ (bestFolder, keywords) :: after)%list
    /\ bestScore = hits keywords tokens
    /\ Forall (fun e => hits (snd e) tokens < bestScore) before
    /\ Forall (fun e => hits (snd e) tokens <= bestScore) after.

(** The reason text of the positive-score branch. *)
Definition matched_reason (bestScore : nat) (bestFolder : string)
  (knownFolders : list string) (note : NoteRecord) : string :=
  "Matched " ++ Str.of_nat bestScore ++ " keyword(s) for " ++ bestFolder
  ++ (if negb (Str.mem bestFolder knownFolders) && negb (String.eqb (folder note) "")
      then "; original folder was " ++ folder note
      else "").

(** Auxiliary notions for the score loop.  A score dict over the folders of
    the table, given by a function of the folder name. *)
Definition tally (table : list (string * list string)) (g : string -> nat)
  : list (string * nat) :=
  List.map (fun e => (fst e, g (fst e))) table.

(** Entries of [entries] filed under folder [x] whose keywords hold [token]. *)
Definition entry_hits (entries : list (string * list string))
  (token x : string) : nat :=
  List.length (filter (fun e => String.eqb (fst e) x && Str.mem token (snd e))
                 entries).

(** Total increment that the token loop gives to folder [x]. *)
Fixpoint folder_hits (table : list (string * list string))
  (tokens : list string) (x : string) : nat :=
  match tokens with
  | [] => 0
  | t :: ts => entry_hits table t x + folder_hits table ts x
  end.

(** What the grouping dict of the aggregator satisfies after [n] notes:
    distinct keys, no empty group, [n] confidences in all. *)
Definition counts_ok (counts : list (string * list Q)) (n : nat) : Prop :=
  NoDup (List.map fst counts)
  /\ Forall (fun kv => snd kv <> []) counts
  /\ list_sum (List.map (fun kv => List.length (snd kv)) counts) = n.

(** HTML escaping as the specification describes it: character by
    character, the five markup-significant characters become entities. *)
Definition escape_char (c : ascii) : string :=
  if Ascii.eqb c "&" then "&amp;"
  else if Ascii.eqb c "<" then "&lt;"
  else if Ascii.eqb c ">" then "&gt;"
  else if Ascii.eqb c Chars.dquote then "&quot;"
  else if Ascii.eqb c "'" then "&#x27;"
  else String c "".

Fixpoint escape_each (s : string) : string :=
  match s with
  | EmptyString => EmptyString
  | String c s' => escape_char c ++ escape_each s'
  end.

(** Characters that open or close markup or delimit an attribute value. *)
Definition markup_char : ascii -> bool :=
  Chars.either (Chars.one_of "<>'") (Chars.just Chars.dquote).

(** A pattern that can only match where the text has a character of [p]. *)
Definition starts_in (r : Re.regex) (p : ascii -> bool) : Prop :=
  forall c t, p c = false -> Re.match_at r (String c t) = None.

(** What [lstrip] returns does not begin with white space. *)
Definition no_leading_space (s : string) : Prop :=
  match s with
  | EmptyString => True
  | String c _ => Chars.isspace c = false
  end.

(** The alphabet of a time stamp: digits and the hyphen. *)
Definition stamp_char : ascii -> bool :=
  Chars.either Chars.isdigit (Chars.just "-").

(** [[a-z0-9-]], the alphabet of a slug. *)
Definition slug_char : ascii -> bool :=
  Chars.either Chars.isalnum_lower (Chars.just "-").

(** The folder a note is exported under, in the words of the
    specification: the override recorded for its title if there is one,
    else its own folder, and "Uncategorized" when that is empty. *)
Definition effective_folder (overrides : option (list (string * string)))
  (note : NoteRecord) : string :=
  let chosen :=
    match overrides with
    | Some d =>
        match find (fun kv => String.eqb (fst kv) (title note)) d with
        | Some kv => snd kv
        | None => folder note
        end
    | None => folder note
    end in
  if String.eqb chosen "" then "Uncategorized" else chosen.

(** [outputDir / slug(effectiveFolder) / "{slug(title)}-{timestamp}.{ext}"] *)
Definition destination (outputDir : Fs.Path) (ext timestamp : string)
  (overrides : option (list (string * string))) (note : NoteRecord) : Fs.Path :=
  Fs.div (Fs.div outputDir (slugify (effective_folder overrides note)))
    (slugify (title note) ++ "-" ++ timestamp ++ "." ++ ext).






(** An empty filesystem with a given clock, the name limits of
    [Fs.name_limits], and the root as working directory. *)
Definition fresh_world (clock : nat -> Fs.datetime) : Fs.World :=
  Fs.mkWorld (fun _ => None) clock 0 Fs.name_limits [].


(** A clock that starts at 10:15:00 on 2 November 2024 and gains a second
    with every reading. *)
Definition sample_clock (n : nat) : Fs.datetime :=
  Fs.mkDatetime 2024 11 2 10 15 n.

(** The time stamp an export started in world [w] puts into its paths. *)
Definition run_timestamp (w : Fs.World) : string :=
  Fs.strftime (Fs.clock w (Fs.reads w)).




(** [re.search(r, s) is not None]: the pattern matches somewhere in [s]. *)
Fixpoint has_match (r : Re.regex) (s : string) : bool :=
  match Re.match_at r s with
  | Some _ => true
  | None =>
      match s with
      | EmptyString => false
      | String _ s' => has_match r s'
      end
  end.

(** A text contains a markup tag when the tag pattern of the normalizer
    matches somewhere in it. *)
Definition has_tag (s : string) : bool := has_match tag_re s.

(** A tag begins here: [<], a character other than [>], and a [>] later on. *)
Definition tag_at (s : string) : bool :=
  match s with
  | String c (String d t) =>
      Chars.just "<" c && negb (Chars.just ">" d) && Str.contains ">" t
  | _ => false
  end.

(** A continuation that succeeds only on text holding a character of [q]. *)
Definition needs (q : ascii -> bool) (k : string -> option string) : Prop :=
  forall u r, k u = Some r -> Str.existsb q u = true.


(* ================================================================== *)
(** * The note source

    The script prints one record per note, the four fields of a note
    separated by U+001F and every record closed by U+001E; [parse_notes]
    reads that text back. *)

Definition RECORD_SEPARATOR : ascii := ascii_of_N 30.

Definition FIELD_SEPARATOR : ascii := ascii_of_N 31.

(** [s.split(sep)] for a one-character separator. *)
Definition split (s : string) (sep : ascii) : list string := Fs.split_on sep s.

(** The text the script appends to its output for one note, and its whole
    output for the notes of the application. *)
Definition script_record (note : NoteRecord) : string :=
  folder note ++ String FIELD_SEPARATOR (title note)
  ++ String FIELD_SEPARATOR (created note)
  ++ String FIELD_SEPARATOR (body_html note)
  ++ String RECORD_SEPARATOR "".

Fixpoint script_output (notes : list NoteRecord) : string :=
  match notes with
  | [] => EmptyString
  | note :: rest => script_record note ++ script_output rest
  end.

(** One turn of the loop of [parse_notes]: what a record appends to
    [notes]. *)
Definition parse_record (record : string) : list NoteRecord :=
  if negb (Str.truthy (Str.strip record)) then []
  else
    match split record FIELD_SEPARATOR with
    | folder :: title :: created :: body_html :: _ =>
        [mkNote (Str.strip folder) (Str.strip title) (Str.strip created)
           (Str.strip body_html)]
    | _ => []
    end.

Definition parse_notes (raw : string) : list NoteRecord :=
  fold_left (fun notes record => (notes ++ parse_record record)%list)
    (split raw RECORD_SEPARATOR) [].

(** What [subprocess.run] yields for the script: a completed process, or
    no [osascript] to run ([FileNotFoundError]). *)
Inductive process : Type :=
| Completed (returncode : Z) (stdout stderr : string)
| NoInterpreter.

Inductive SourceError : Type :=
| NotesExportError (message : string)
| FileNotFound.

Definition run_applescript (p : process) : SourceError + string :=
  match p with
  | NoInterpreter => inl FileNotFound
  | Completed returncode stdout stderr =>
      if negb (returncode =? 0)%Z then
        inl (NotesExportError (Str.or_else (Str.strip stderr) "AppleScript failed"))
      else if String.prefix "ERROR:" stdout then
        inl (NotesExportError (Str.strip stdout))
      else inr stdout
  end.

(** The [try] block of [fetch_notes], then its [except] clause. *)
Definition fetch_notes_try (p : process) : SourceError + list NoteRecord :=
  match run_applescript p with
  | inl e => inl e
  | inr raw =>
      match parse_notes raw with
      | [] => inl (NotesExportError "No notes found")
      | notes => inr notes
      end
  end.

Definition fetch_notes (p : process) : list NoteRecord :=
  match fetch_notes_try p with
  | inr notes => notes
  | inl (NotesExportError _) => SAMPLE_NOTES
  | inl FileNotFound => SAMPLE_NOTES
  end.

(* ================================================================== *)
(** * The command line and the web interface *)

(** [str(path)] for an absolute path. *)
Definition path_str (p : Fs.Path) : string :=
  match p with
  | [] => "/"
  | _ => fold_right (fun c s => "/" ++ c ++ s) "" p
  end.

(** The parsed arguments; [output] is the directory after
    [expanduser().resolve()]. *)
Record Args : Type := mkArgs {
  output : Fs.Path;
  format : string;
  dry_run : bool
}.

(** How a run of [main] ends: normally, or with an exception that leaves
    the program. *)
Inductive Exit : Type :=
| Returned
| RaisedSource (e : SourceError)
| RaisedOS (e : Fs.OSError).

(** What [main] leaves behind: how it ended, what it printed (one entry
    per [print]), and the world. *)
Record Run : Type := mkRun {
  exit : Exit;
  printed : list string;
  world : Fs.World
}.

Definition main (args : Args) (p : process) (w : Fs.World) : Run :=
  match run_applescript p with
  | inl (NotesExportError exc) =>
      mkRun (RaisedSource (NotesExportError ("Unable to read Notes: " ++ exc))) [] w
  | inl FileNotFound => mkRun (RaisedSource FileNotFound) [] w
  | inr raw =>
      match parse_notes raw with
      | [] =>
          mkRun (RaisedSource
                   (NotesExportError "No notes found. Ensure Notes access is permitted."))
            [] w
      | (first :: _) as notes =>
          if dry_run args then
            mkRun Returned
              [ "Found " ++ Str.of_nat (List.length notes)
                ++ " notes. Sample output:" ++ nl;
                format_note first (format args) ] w
          else
            match export_notes notes (output args) (format args) None w with
            | (Fs.Ok created, w') =>
                mkRun Returned
                  [ "Exported " ++ Str.of_nat (List.length created)
                    ++ " notes to " ++ path_str (output args) ] w'
            | (Fs.Raise e, w') => mkRun (RaisedOS e) [] w'
            end
      end
  end.

(** One entry of the listing of [api_notes]. *)
Record Listed : Type := mkListed {
  listed_title : string;
  listed_folder : string;
  listed_created : string;
  listed_body_html : string;
  suggested_folder : string;
  listed_confidence : Q;
  listed_reason : string
}.

(** [sorted({note.folder for note in notes if note.folder})] *)
Definition known_folders_of (notes : list NoteRecord) : list string :=
  sorted_by (fun s => s) (folder_set notes).

(** [api_notes]: the listing and the known folders. *)
Definition api_notes (p : process) : list Listed * list string :=
  let notes := fetch_notes p in
  let known_folders := known_folders_of notes in
  (List.map (fun note =>
               let suggestion := suggest_folder note known_folders in
               mkListed (title note) (folder note) (created note) (body_html note)
                 (name suggestion) (confidence suggestion) (reason suggestion))
     notes,
   known_folders).

Definition api_assess (p : process) : Summary :=
  assess_suggestions (fetch_notes p).






(** The four fields of a note, and what the parser guarantees of a field:
    trimmed, and free of both separators. *)
Definition note_fields (note : NoteRecord) : list string :=
  [folder note; title note; created note; body_html note].

Definition clean_field (f : string) : Prop :=
  Str.strip f = f
  /\ Str.contains RECORD_SEPARATOR f = false
  /\ Str.contains FIELD_SEPARATOR f = false.

(** A character that is not white space. *)
Definition ink : ascii -> bool := Chars.neg Chars.isspace.

(** A record as the parser meets it, without the closing separator. *)
Definition record_text (note : NoteRecord) : string :=
  folder note ++ String FIELD_SEPARATOR (title note)
  ++ String FIELD_SEPARATOR (created note)
  ++ String FIELD_SEPARATOR (body_html note).

(** Ascending order of strings (code points), as [sorted] leaves them. *)
Definition ascending (a b : string) : Prop := String.leb a b = true.

(** [counts.get(k, [])] on the grouping dict of the aggregator. *)
Definition confidences_of (k : string) (counts : list (string * list Q)) : list Q :=
  match find (fun kv => String.eqb (fst kv) k) counts with
  | Some kv => snd kv
  | None => []
  end.

(** The notes of a list that the classifier files under [k]. *)
Definition filed_under (known : list string) (k : string)
  (notes : list NoteRecord) : list NoteRecord :=
  filter (fun note => String.eqb (name (suggest_folder note known)) k) notes.

(** A clock reading whose fields fit the widths of the time stamp. *)
Definition plausible (t : Fs.datetime) : Prop :=
  Fs.year t < 100 * 100 /\ Fs.month t < 100 /\ Fs.day t < 100
  /\ Fs.hour t < 100 /\ Fs.minute t < 100 /\ Fs.second t < 100.

(** A number between 0 and 1. *)
Definition unit_interval (x : Q) : Prop := (0 <= x /\ x <= 1)%Q.

(** The spellings of a line break that the normalizer looks for: [<br] in
    either letter case, white space, an optional [/], and [>]. *)
Definition br_tag (b r : ascii) (space : string) (closed : bool) : string :=
  String "<" (String b (String r (space ++ (if closed then "/>" else ">")))).

(** The end of a paragraph, [</p>] in either letter case. *)
Definition p_close_tag (p : ascii) : string :=
  String "<" (String "/" (String p ">")).


(* ================================================================== *)
(** * Strings *)

Lemma append_assoc (a b c : string) : (a ++ b) ++ c = a ++ (b ++ c).
Proof. induction a as [|x a IH]; simpl; [reflexivity | now rewrite IH]. Qed.

Lemma append_empty_r (a : string) : a ++ "" = a.
Proof. induction a as [|x a IH]; simpl; [reflexivity | now rewrite IH]. Qed.

Lemma length_append (a b : string) :
  String.length (a ++ b) = String.length a + String.length b.
Proof. induction a as [|x a IH]; simpl; [reflexivity | now rewrite IH]. Qed.

Lemma append_inv_tail (r : string) :
  forall a b, a ++ r = b ++ r -> a = b.
Proof.
  induction a as [|x a IH]; intros [|y b] E; simpl in E.
  - reflexivity.
  - apply (f_equal String.length) in E. simpl in E.
    rewrite length_append in E. lia.
  - apply (f_equal String.length) in E. simpl in E.
    rewrite length_append in E. lia.
  - injection E as -> E. now rewrite (IH b E).
Qed.

Lemma existsb_app (p : ascii -> bool) (a b : string) :
  Str.existsb p (a ++ b) = Str.existsb p a || Str.existsb p b.
Proof.
  induction a as [|x a IH]; simpl; [reflexivity|].
  now rewrite IH, orb_assoc.
Qed.

Lemma forallb_app (p : ascii -> bool) (a b : string) :
  Str.forallb p (a ++ b) = Str.forallb p a && Str.forallb p b.
Proof.
  induction a as [|x a IH]; simpl; [reflexivity|].
  now rewrite IH, andb_assoc.
Qed.

Lemma truthy_nonempty (s : string) : Str.truthy s = negb (String.eqb s "").
Proof. destruct s; reflexivity. Qed.

(* ================================================================== *)
(** * The classifier: scores and arg-max *)

Section Tally.

Variable table : list (string * list string).

Local Abbreviation tally := (tally table).
Local Abbreviation folder_hits := (folder_hits table).

Lemma incr_tally (k : string) (g : string -> nat) :
  incr k (tally g)
  = tally (fun x => if String.eqb x k then S (g x) else g x).
Proof.
  unfold incr, tally. rewrite map_map. apply map_ext. intros e. simpl.
  destruct (String.eqb (fst e) k); reflexivity.
Qed.

Lemma tally_ext (g h : string -> nat) :
  (forall x, g x = h x) -> tally g = tally h.
Proof.
  intros E. unfold tally. apply map_ext. intros e. now rewrite E.
Qed.

Lemma fold_entries_tally (token : string) :
  forall entries g,
    fold_left (fun sc entry => if Str.mem token (snd entry)
                               then incr (fst entry) sc else sc)
      entries (tally g)
    = tally (fun x => g x + entry_hits entries token x).
Proof.
  induction entries as [|e entries IH]; intros g; simpl.
  - apply tally_ext. intros x. unfold entry_hits. simpl. lia.
  - destruct (Str.mem token (snd e)) eqn:Hm.
    + rewrite incr_tally, IH. apply tally_ext. intros x.
      unfold entry_hits. simpl. rewrite Hm, String.eqb_sym.
      destruct (String.eqb (fst e) x); simpl; lia.
    + rewrite IH. apply tally_ext. intros x.
      unfold entry_hits. simpl. rewrite Hm, andb_false_r. reflexivity.
Qed.

Lemma fold_tokens_tally :
  forall tokens g,
    fold_left (score_token table) tokens (tally g)
    = tally (fun x => g x + folder_hits tokens x).
Proof.
  induction tokens as [|t ts IH]; intros g; simpl.
  - apply tally_ext. intros x. lia.
  - unfold score_token at 2. rewrite fold_entries_tally, IH.
    apply tally_ext. intros x. lia.
Qed.

Lemma entry_hits_absent (token x : string) :
  forall entries, ~ In x (List.map fst entries) -> entry_hits entries token x = 0.
Proof.
  induction entries as [|e es IH]; intros Hn; [reflexivity|].
  unfold entry_hits in *. simpl in *.
  destruct (String.eqb_spec (fst e) x) as [E|E].
  - exfalso. apply Hn. now left.
  - simpl. apply IH. intros Hi. apply Hn. now right.
Qed.

Lemma entry_hits_unique (token : string) :
  forall entries e,
    NoDup (List.map fst entries) -> In e entries ->
    entry_hits entries token (fst e) = if Str.mem token (snd e) then 1 else 0.
Proof.
  induction entries as [|e0 es IH]; intros e Hnd Hin; [contradiction|].
  inversion Hnd as [|? ? Hnot Hnd']; subst.
  destruct Hin as [->|Hin].
  - pose proof (entry_hits_absent token (fst e) es Hnot) as H0.
    unfold entry_hits in *. simpl. rewrite String.eqb_refl. simpl.
    destruct (Str.mem token (snd e)); simpl; now rewrite H0.
  - unfold entry_hits. simpl.
    destruct (String.eqb_spec (fst e0) (fst e)) as [E|E].
    + exfalso. apply Hnot. rewrite E. now apply in_map.
    + simpl. now apply IH.
Qed.

Lemma folder_hits_unique :
  forall tokens e,
    NoDup (List.map fst table) -> In e table ->
    folder_hits tokens (fst e) = hits (snd e) tokens.
Proof.
  induction tokens as [|t ts IH]; intros e Hnd Hin; [reflexivity|].
  simpl. rewrite (entry_hits_unique t table e Hnd Hin), (IH e Hnd Hin).
  unfold hits. simpl. destruct (Str.mem t (snd e)); reflexivity.
Qed.

(** The score dict after the loops holds, for every folder of the table,
    the number of tokens found in its keyword set. *)
Lemma score_tokens_hits (tokens : list string) :
  NoDup (List.map fst table) ->
  score_tokens table tokens
  = List.map (fun e => (fst e, hits (snd e) tokens)) table.
Proof.
  intros Hnd. unfold score_tokens.
  change (List.map (fun entry => (fst entry, 0)) table) with (tally (fun _ => 0)).
  rewrite fold_tokens_tally. unfold tally. apply map_ext_in.
  intros e Hin. simpl. now rewrite (folder_hits_unique tokens e Hnd Hin).
Qed.

End Tally.

Lemma keyword_map_folders :
  List.map fst keyword_map = ["Work"; "Personal"; "Finance"; "Ideas"; "Journal"].
Proof. reflexivity. Qed.

Lemma keyword_map_NoDup : NoDup (List.map fst keyword_map).
Proof.
  rewrite keyword_map_folders.
  repeat (constructor; [simpl; intuition discriminate|]). constructor.
Qed.

(** [max] returns the first item of maximal key. *)
Lemma max_from_first_max :
  forall rest best,
  exists l1 l2,
    best :: rest = (l1 ++ max_from best rest :: l2)%list
    /\ Forall (fun x => snd x < snd (max_from best rest)) l1
    /\ Forall (fun x => snd x <= snd (max_from best rest)) l2.
Proof.
  induction rest as [|item rest IH]; intros best.
  - exists [], []. repeat split; constructor.
  - simpl. destruct (Nat.ltb_spec (snd best) (snd item)) as [Hlt|Hge].
    + destruct (IH item) as (l1 & l2 & E & H1 & H2).
      exists (best :: l1), l2. repeat split; auto.
      * simpl. now rewrite <- E.
      * constructor; auto.
        destruct l1 as [|y l1]; simpl in E; injection E as E1 E2.
        -- now rewrite <- E1.
        -- subst y. inversion H1; subst. lia.
    + destruct (IH best) as (l1 & l2 & E & H1 & H2).
      destruct l1 as [|y l1]; simpl in E; injection E as E1 E2.
      * exists [], (item :: rest). repeat split.
        -- simpl. now rewrite <- E1.
        -- constructor.
        -- constructor; [rewrite <- E1; lia | now rewrite E2 at 1].
      * subst y. exists (best :: item :: l1), l2. repeat split; auto.
        -- simpl. now rewrite <- E2.
        -- inversion H1; subst. constructor; auto. constructor; auto. lia.
Qed.

(** The first item of maximal key is unique. *)
Lemma first_max_unique {A} (key : A -> nat) :
  forall l1 (m : A) l2 l1' m' l2',
    (l1 ++ m :: l2 = l1' ++ m' :: l2')%list ->
    Forall (fun x => key x < key m) l1 ->
    Forall (fun x => key x <= key m) l2 ->
    Forall (fun x => key x < key m') l1' ->
    Forall (fun x => key x <= key m') l2' ->
    l1 = l1' /\ m = m' /\ l2 = l2'.
Proof.
  induction l1 as [|a l1 IH]; intros m l2 l1' m' l2' E H1 H2 H1' H2'.
  - destruct l1' as [|a' l1']; simpl in E; inversion E; subst; auto.
    exfalso. inversion H1'; subst.
    assert (Hin : In m' (l1' ++ m' :: l2')%list) by (apply in_or_app; right; now left).
    rewrite Forall_forall in H2. specialize (H2 _ Hin). lia.
  - destruct l1' as [|a' l1']; simpl in E; inversion E; subst.
    + exfalso. inversion H1; subst.
      assert (Hin : In m (l1 ++ m :: l2)%list) by (apply in_or_app; right; now left).
      rewrite Forall_forall in H2'. specialize (H2' _ Hin). lia.
    + apply Forall_cons_iff in H1 as [_ H1].
      apply Forall_cons_iff in H1' as [_ H1'].
      destruct (IH m l2 l1' m' l2' H3 H1 H2 H1' H2') as (-> & -> & ->). auto.
Qed.

(** What [max(scores.items(), ...)] yields on the score dict of a note. *)
Lemma max_item_scores (tokens : list string) (bestFolder : string) (bestScore : nat) :
  first_argmax keyword_map tokens bestFolder bestScore ->
  max_item (score_tokens keyword_map tokens) = Some (bestFolder, bestScore).
Proof.
  intros (before & kws & after & E & Hs & Hb & Ha).
  rewrite (score_tokens_hits keyword_map tokens keyword_map_NoDup).
  set (f := fun e : string * list string => (fst e, hits (snd e) tokens)).
  destruct (List.map f keyword_map) as [|first rest] eqn:Hmap; [discriminate|].
  simpl. f_equal.
  destruct (max_from_first_max rest first) as (l1 & l2 & E' & H1 & H2).
  rewrite <- Hmap, E, map_app in E'. simpl in E'.
  assert (Hb' : Forall (fun x => snd x < snd (f (bestFolder, kws))) (List.map f before)).
  { apply Forall_map. simpl. now rewrite <- Hs. }
  assert (Ha' : Forall (fun x => snd x <= snd (f (bestFolder, kws))) (List.map f after)).
  { apply Forall_map. simpl. now rewrite <- Hs. }
  destruct (first_max_unique snd _ _ _ _ _ _ E' Hb' Ha' H1 H2) as (_ & <- & _).
  unfold f. simpl. now rewrite Hs.
Qed.

(** Every token sequence has an arg-max folder in the table. *)
Lemma first_argmax_exists (tokens : list string) :
  exists bestFolder bestScore,
    first_argmax keyword_map tokens bestFolder bestScore.
Proof.
  set (f := fun e : string * list string => (fst e, hits (snd e) tokens)).
  destruct (List.map f keyword_map) as [|first rest] eqn:Hmap; [discriminate|].
  destruct (max_from_first_max rest first) as (l1 & l2 & E & H1 & H2).
  rewrite <- Hmap in E.
  apply map_eq_app in E as (before & tail & Ek & Eb & Et).
  apply map_eq_cons in Et as (e & after & -> & Ee & Ea).
  exists (fst e), (hits (snd e) tokens), before, (snd e), after.
  rewrite <- Ee in H1, H2. subst l1 l2. simpl in H1, H2.
  repeat split.
  - rewrite Ek. now destruct e.
  - rewrite Forall_map in H1. exact H1.
  - rewrite Forall_map in H2. exact H2.
Qed.

(* ================================================================== *)
(** * The classifier: the three branches *)

Lemma py_min_Qmin (a b : Q) : py_min a b = Qmin a b.
Proof.
  unfold py_min, Qmin, GenericMinMax.gmin.
  destruct (Qle_bool a b) eqn:L; destruct (Qcompare a b) eqn:C; try reflexivity.
  - apply Qle_bool_iff in L. rewrite <- Qgt_alt in C.
    exfalso. exact (Qlt_not_le _ _ C L).
  - rewrite <- Qeq_alt in C. assert (Qle_bool a b = true) as L'.
    { apply Qle_bool_iff. rewrite C. apply Qle_refl. }
    congruence.
  - rewrite <- Qlt_alt in C. assert (Qle_bool a b = true) as L'.
    { apply Qle_bool_iff. now apply Qlt_le_weak. }
    congruence.
Qed.

Lemma py_max_Qmax (a b : Q) : py_max a b = Qmax a b.
Proof.
  unfold py_max, Qmax, GenericMinMax.gmax.
  destruct (Qle_bool b a) eqn:L; destruct (Qcompare a b) eqn:C; try reflexivity.
  - apply Qle_bool_iff in L. rewrite <- Qlt_alt in C.
    exfalso. exact (Qlt_not_le _ _ C L).
  - rewrite <- Qeq_alt in C. assert (Qle_bool b a = true) as L'.
    { apply Qle_bool_iff. rewrite C. apply Qle_refl. }
    congruence.
  - rewrite <- Qgt_alt in C. assert (Qle_bool b a = true) as L'.
    { apply Qle_bool_iff. now apply Qlt_le_weak. }
    congruence.
Qed.

Lemma hits_nil (keywords : list string) : hits keywords [] = 0.
Proof. reflexivity. Qed.

(** The score dict is never empty, so [max] does not raise. *)
Lemma max_item_scores_some (tokens : list string) :
  exists best, max_item (score_tokens keyword_map tokens) = Some best.
Proof.
  rewrite (score_tokens_hits keyword_map tokens keyword_map_NoDup).
  simpl. eauto.
Qed.

(** C4. A note whose title and normalized body hold no token gets its own
    folder (or "Uncategorized" when that is empty), confidence 0.2 and the
    reason "Empty note"; the keyword table plays no part. *)
Theorem suggest_folder_empty_note (note : NoteRecord) (knownFolders : list string) :
  note_tokens note = [] ->
  suggest_folder note knownFolders
  = mkSuggested (if String.eqb (folder note) "" then "Uncategorized" else folder note)
      0.2%Q "Empty note".
Proof.
  intros Hempty. unfold suggest_folder. fold (note_tokens note). rewrite Hempty.
  unfold Str.or_else. rewrite truthy_nonempty.
  destruct (String.eqb (folder note) ""); reflexivity.
Qed.

Lemma suggest_folder_empty_note_witness :
  note_tokens (mkNote "Inbox" "" "2024-11-02" "<p> </p>") = []
  /\ suggest_folder (mkNote "Inbox" "" "2024-11-02" "<p> </p>") ["Inbox"]
     = mkSuggested "Inbox" 0.2%Q "Empty note".
Proof.
  split; [reflexivity|].
  apply (suggest_folder_empty_note (mkNote "Inbox" "" "2024-11-02" "<p> </p>") ["Inbox"]).
  reflexivity.
Defined.

(** C3. A note with tokens but no keyword hit for any folder of the table
    gets confidence 0.35 and the reason "No strong keyword match; keeping
    original folder"; the name is the note's folder when that is not empty
    and belongs to the known folders, and "Uncategorized" otherwise. *)
Theorem suggest_folder_zero_score (note : NoteRecord) (knownFolders : list string) :
  note_tokens note <> [] ->
  (forall folder keywords,
      In (folder, keywords) keyword_map -> hits keywords (note_tokens note) = 0) ->
  suggest_folder note knownFolders
  = mkSuggested
      (if negb (String.eqb (folder note) "") && Str.mem (folder note) knownFolders
       then folder note else "Uncategorized")
      0.35%Q "No strong keyword match; keeping original folder".
Proof.
  intros Hne Hzero. unfold suggest_folder. fold (note_tokens note).
  destruct (note_tokens note) as [|t ts] eqn:Htok; [contradiction|].
  assert (Hbest : first_argmax keyword_map (t :: ts) "Work" 0).
  { unfold keyword_map at 1.
    eexists [], _, _. split; [reflexivity|]. split.
    - symmetry. apply (Hzero "Work"). now left.
    - split; [constructor|]. apply Forall_forall. intros [f k] Hin. simpl.
      rewrite (Hzero f k); [lia|]. now right. }
  rewrite (max_item_scores _ _ _ Hbest). simpl Nat.eqb. cbv iota.
  unfold Str.or_else. rewrite truthy_nonempty.
  destruct (String.eqb (folder note) "") eqn:Hf; simpl.
  - match goal with |- context [if ?b then _ else _] => destruct b end;
      reflexivity.
  - destruct (Str.mem (folder note) knownFolders); reflexivity.
Qed.

Lemma suggest_folder_zero_score_witness :
  suggest_folder (mkNote "Recipes" "Shopping list" "2024-11-02" "<p>Eggs, milk</p>")
    ["Inbox"; "Recipes"]
  = mkSuggested "Recipes" 0.35%Q "No strong keyword match; keeping original folder".
Proof.
  apply (suggest_folder_zero_score
           (mkNote "Recipes" "Shopping list" "2024-11-02" "<p>Eggs, milk</p>")
           ["Inbox"; "Recipes"]).
  - vm_compute. discriminate.
  - intros f k Hin. vm_compute in Hin.
    repeat (destruct Hin as [Hin|Hin]; [injection Hin as <- <-; reflexivity|]).
    contradiction.
Defined.

(** C1. When the best score is positive the suggestion names the arg-max
    folder of the table, the first in the order Work, Personal, Finance,
    Ideas, Journal among those of maximal score; its confidence is
    min(1.0, bestScore / max(3, tokenCount/4)); its reason is
    "Matched {bestScore} keyword(s) for {bestFolder}", followed by
    "; original folder was {folder}" exactly when the best folder is not a
    known folder and the note's folder is not empty. *)
Theorem suggest_folder_positive_score (note : NoteRecord)
  (knownFolders : list string) (bestFolder : string) (bestScore : nat) :
  first_argmax keyword_map (note_tokens note) bestFolder bestScore ->
  0 < bestScore ->
  List.map fst keyword_map = ["Work"; "Personal"; "Finance"; "Ideas"; "Journal"]
  /\ suggest_folder note knownFolders
     = mkSuggested bestFolder
         (Qmin 1 (Qnat bestScore
                  / Qmax 3 (Qnat (List.length (note_tokens note)) / 4)))%Q
         (matched_reason bestScore bestFolder knownFolders note).
Proof.
  intros Hbest Hpos. split; [reflexivity|].
  unfold suggest_folder. fold (note_tokens note).
  destruct (note_tokens note) as [|t ts] eqn:Htok.
  - destruct Hbest as (? & kws & ? & _ & Hs & _). rewrite hits_nil in Hs. lia.
  - rewrite (max_item_scores _ _ _ Hbest).
    unfold confidence_of.
    destruct (Nat.eqb_spec bestScore 0) as [E|_]; [lia|].
    rewrite py_min_Qmin, py_max_Qmax. f_equal.
    unfold matched_reason. rewrite truthy_nonempty.
    destruct (negb (Str.mem bestFolder knownFolders)
              && negb (String.eqb (folder note) "")).
    + now rewrite !append_assoc.
    + now rewrite append_empty_r.
Qed.

Lemma suggest_folder_positive_score_witness :
  suggest_folder (List.nth 0 SAMPLE_NOTES (mkNote "" "" "" "")) ["Inbox"; "Personal"; "Ideas"]
  = mkSuggested "Work" 1%Q "Matched 5 keyword(s) for Work; original folder was Inbox".
Proof.
  pose proof (suggest_folder_positive_score
                (List.nth 0 SAMPLE_NOTES (mkNote "" "" "" ""))
                ["Inbox"; "Personal"; "Ideas"] "Work" 5) as H.
  destruct H as [_ H].
  - exists [], (snd (List.nth 0 keyword_map ("", []))), (List.tl keyword_map).
    split; [reflexivity|]. split; [reflexivity|].
    split; [constructor|].
    repeat (constructor; [vm_compute; lia|]). constructor.
  - lia.
  - rewrite H. reflexivity.
Defined.

(** C2. Whatever the note and the known folders, the confidence of the
    suggestion lies between 0 and 1. *)
Theorem suggest_folder_confidence_bounds (note : NoteRecord)
  (knownFolders : list string) :
  (0 <= confidence (suggest_folder note knownFolders)
   /\ confidence (suggest_folder note knownFolders) <= 1)%Q.
Proof.
  unfold suggest_folder. fold (note_tokens note).
  destruct (note_tokens note) as [|t ts]; [simpl; split; discriminate|].
  destruct (max_item _) as [[bf bs]|]; [|simpl; split; discriminate].
  assert (Hc : (0 <= confidence_of bs (List.length (t :: ts))
                /\ confidence_of bs (List.length (t :: ts)) <= 1)%Q).
  { unfold confidence_of. destruct (Nat.eqb_spec bs 0) as [E|E].
    - split; discriminate.
    - rewrite py_min_Qmin, py_max_Qmax. split.
      + apply Q.min_glb; [discriminate|].
        apply Qle_shift_div_l.
        * apply Qlt_le_trans with (y := 3%Q); [reflexivity | apply Q.le_max_l].
        * rewrite Qmult_0_l. unfold Qnat, Qle. simpl. lia.
      + apply Q.le_min_l. }
  destruct (bs =? 0)%nat.
  - destruct (Str.mem _ knownFolders); exact Hc.
  - exact Hc.
Qed.

Example suggest_folder_sample_personal :
  suggest_folder (List.nth 1 SAMPLE_NOTES (mkNote "" "" "" "")) ["Inbox"; "Personal"; "Ideas"]
  = mkSuggested "Personal" (2 # 3)%Q "Matched 2 keyword(s) for Personal".
Proof. vm_compute. reflexivity. Qed.

(* ================================================================== *)
(** * The aggregator *)

Lemma setdefault_append_keys (k : string) (v : Q) :
  forall counts x,
    In x (List.map fst (setdefault_append k v counts))
    <-> x = k \/ In x (List.map fst counts).
Proof.
  induction counts as [|[k' vs] rest IH]; intros x; simpl.
  - intuition.
  - destruct (String.eqb_spec k k') as [->|Hne]; simpl.
    + intuition.
    + rewrite IH. intuition.
Qed.

Lemma setdefault_append_invariant (k : string) (v : Q) :
  forall counts n,
    counts_ok counts n -> counts_ok (setdefault_append k v counts) (S n).
Proof.
  unfold counts_ok.
  induction counts as [|[k' vs] rest IH]; intros n (Hnd & Hne & Hsum); simpl in *.
  - repeat split.
    + constructor; [intros []|constructor].
    + constructor; [discriminate|constructor].
    + now rewrite <- Hsum.
  - inversion Hnd as [|? ? Hnot Hnd']; subst.
    inversion Hne as [|? ? Hvs Hne']; subst.
    destruct (String.eqb_spec k k') as [->|Hk]; simpl.
    + repeat split.
      * now constructor.
      * constructor; [|assumption]. simpl. now destruct vs.
      * rewrite length_app. simpl. lia.
    + destruct (IH (list_sum (List.map (fun kv => List.length (snd kv)) rest)))
        as (Hnd2 & Hne2 & Hsum2); [repeat split; assumption|].
      repeat split.
      * constructor; [|assumption].
        rewrite setdefault_append_keys. intros [E|Hin]; [congruence|contradiction].
      * now constructor.
      * simpl in *. lia.
Qed.

Lemma fold_setdefault_invariant (name_of : NoteRecord -> string)
  (conf_of : NoteRecord -> Q) :
  forall notes counts n,
    counts_ok counts n ->
    counts_ok
      (fold_left (fun counts note =>
                    setdefault_append (name_of note) (conf_of note) counts)
         notes counts)
      (List.length notes + n).
Proof.
  induction notes as [|note notes IH]; intros counts n Hok; simpl.
  - exact Hok.
  - replace (S (List.length notes + n)) with (List.length notes + S n) by lia.
    apply IH. now apply setdefault_append_invariant.
Qed.

Lemma insert_by_perm {A} (key : A -> string) (x : A) :
  forall xs, Permutation (insert_by key x xs) (x :: xs).
Proof.
  induction xs as [|y ys IH]; simpl.
  - apply Permutation_refl.
  - destruct (String.leb (key x) (key y)).
    + apply Permutation_refl.
    + apply Permutation_trans with (l' := y :: x :: ys).
      * now apply perm_skip.
      * apply perm_swap.
Qed.

(** [sorted] only reorders. *)
Lemma sorted_by_perm {A} (key : A -> string) :
  forall xs, Permutation (sorted_by key xs) xs.
Proof.
  induction xs as [|x xs IH]; simpl.
  - apply perm_nil.
  - apply Permutation_trans with (l' := x :: sorted_by key xs).
    + apply insert_by_perm.
    + now apply perm_skip.
Qed.

Lemma list_sum_perm (l l' : list nat) :
  Permutation l l' -> list_sum l = list_sum l'.
Proof.
  induction 1; simpl; lia.
Qed.

(** C10. The assessment reports as total the number of notes; its buckets
    carry pairwise distinct folder names, each counts at least one note, and
    the counts add up to the total. *)
Theorem assess_suggestions_buckets (notes : list NoteRecord) :
  total (assess_suggestions notes) = List.length notes
  /\ NoDup (List.map bucket_folder (buckets (assess_suggestions notes)))
  /\ Forall (fun b => 1 <= count b) (buckets (assess_suggestions notes))
  /\ list_sum (List.map count (buckets (assess_suggestions notes)))
     = total (assess_suggestions notes).
Proof.
  unfold assess_suggestions. simpl.
  set (known := sorted_by (fun s => s) (folder_set notes)).
  set (counts := fold_left _ notes []).
  assert (Hok : counts_ok counts (List.length notes + 0)).
  { apply (fold_setdefault_invariant
             (fun note => name (suggest_folder note known))
             (fun note => confidence (suggest_folder note known))).
    repeat split; constructor. }
  destruct Hok as (Hnd & Hne & Hsum).
  pose proof (sorted_by_perm fst counts) as Hperm.
  split; [reflexivity|]. split; [|split].
  - rewrite map_map. simpl.
    apply (Permutation_NoDup (l := List.map fst counts)); [|assumption].
    apply Permutation_sym. now apply Permutation_map.
  - apply Forall_map. simpl.
    apply (Permutation_Forall (Permutation_sym Hperm)).
    revert Hne. apply Forall_impl. intros [k vs] Hvs. simpl in *.
    destruct vs; [congruence | simpl; lia].
  - rewrite map_map. simpl.
    rewrite (list_sum_perm _ _ (Permutation_map (fun kv => List.length (snd kv)) Hperm)).
    lia.
Qed.

Example assess_suggestions_sample :
  assess_suggestions SAMPLE_NOTES
  = mkSummary 3 [ mkBucket "Ideas" 1 (33 # 100)%Q;
                  mkBucket "Personal" 1 (67 # 100)%Q;
                  mkBucket "Work" 1 (100 # 100)%Q ].
Proof. vm_compute. reflexivity. Qed.

(* ================================================================== *)
(** * The renderer: HTML escaping *)

Lemma replace_char_app (c : ascii) (by_ a b : string) :
  Html.replace_char c by_ (a ++ b)
  = Html.replace_char c by_ a ++ Html.replace_char c by_ b.
Proof.
  induction a as [|x a IH]; simpl; [reflexivity|].
  destruct (Ascii.eqb x c); simpl; rewrite IH; [|reflexivity].
  now rewrite append_assoc.
Qed.

Lemma escape_single (c : ascii) : Html.escape (String c "") = escape_char c.
Proof.
  destruct c as [[] [] [] [] [] [] [] []]; reflexivity.
Qed.

Lemma escape_cons (c : ascii) (s : string) :
  Html.escape (String c s) = escape_char c ++ Html.escape s.
Proof.
  rewrite <- escape_single. unfold Html.escape.
  change (String c s) with (String c "" ++ s).
  now rewrite !replace_char_app.
Qed.

(** The five successive replacements of [html.escape] amount to escaping
    each character on its own. *)
Lemma escape_escape_each (s : string) : Html.escape s = escape_each s.
Proof.
  induction s as [|c s IH]; [reflexivity|].
  rewrite escape_cons, IH. reflexivity.
Qed.

Lemma escape_char_no_markup (c : ascii) :
  Str.existsb markup_char (escape_char c) = false.
Proof.
  destruct c as [[] [] [] [] [] [] [] []]; reflexivity.
Qed.

Lemma escape_each_no_markup (s : string) :
  Str.existsb markup_char (escape_each s) = false.
Proof.
  induction s as [|c s IH]; [reflexivity|]. simpl.
  now rewrite existsb_app, escape_char_no_markup, IH.
Qed.

(** C9. The "html" rendering escapes title, folder and creation date
    character by character ([&] becomes [&amp;], and no [<], [>] or quote
    is left in them) and puts the body markup after them as it is. *)
Theorem format_note_html_escapes (record : NoteRecord) :
  format_note record "html"
  = "<h1>" ++ escape_each (title record) ++ "</h1>" ++ nl
    ++ "<p><strong>Folder:</strong> " ++ escape_each (folder record) ++ "<br/>"
    ++ "<strong>Created:</strong> " ++ escape_each (created record) ++ "</p>" ++ nl
    ++ body_html record ++ nl
  /\ escape_char "&" = "&amp;"
  /\ Str.existsb markup_char (escape_each (title record)) = false
  /\ Str.existsb markup_char (escape_each (folder record)) = false
  /\ Str.existsb markup_char (escape_each (created record)) = false.
Proof.
  split; [|split; [reflexivity|]].
  - unfold format_note. simpl String.eqb. cbv iota.
    now rewrite !escape_escape_each.
  - repeat split; apply escape_each_no_markup.
Qed.

Example format_note_html_sample :
  format_note (mkNote "R&D" "Q&A <draft>" "2024-11-02" "<p>a &amp; b</p>") "html"
  = "<h1>Q&amp;A &lt;draft&gt;</h1>" ++ nl
    ++ "<p><strong>Folder:</strong> R&amp;D<br/><strong>Created:</strong> 2024-11-02</p>"
    ++ nl ++ "<p>a &amp; b</p>" ++ nl.
Proof. reflexivity. Qed.

(* ================================================================== *)
(** * The normalizer *)

Lemma sub_loop_no_match (r : Re.regex) (repl : string -> string) :
  forall s, has_match r s = false -> Re.sub_loop r repl 0 s = s.
Proof.
  induction s as [|c s IH]; intros H; [reflexivity|].
  cbn [has_match] in H.
  destruct (Re.match_at r (String c s)) eqn:E; [discriminate|].
  cbn [Re.sub_loop]. unfold Re.match_len. rewrite E. now rewrite IH.
Qed.

(** A match of [r] followed by [k] ends in a success of [k] further on, so
    whatever [k] needs in the text, [r] followed by [k] needs as well. *)
Lemma run_needs (q : ascii -> bool) :
  forall r k, needs q k -> needs q (Re.run r k).
Proof.
  induction r as [|p|r1 IH1 r2 IH2|r1 IH1 r2 IH2|p|p]; intros k Hk u res H;
    cbn [Re.run] in H.
  - exact (Hk _ _ H).
  - destruct u as [|c u]; [discriminate|]. destruct (p c); [|discriminate].
    cbn [Str.existsb]. rewrite (Hk _ _ H). apply orb_true_r.
  - exact (IH1 _ (IH2 _ Hk) _ _ H).
  - unfold Re.orelse in H. destruct (Re.run r1 k u) eqn:E1.
    + exact (IH1 _ Hk _ _ E1).
    + exact (IH2 _ Hk _ _ H).
  - revert res H. induction u as [|c u IHu]; intros res H; cbn [Re.greedy] in H.
    + exact (Hk _ _ H).
    + destruct (p c); [|exact (Hk _ _ H)].
      unfold Re.orelse in H. destruct (Re.greedy p k u) eqn:E.
      * cbn [Str.existsb]. rewrite (IHu _ eq_refl). apply orb_true_r.
      * exact (Hk _ _ H).
  - revert res H. induction u as [|c u IHu]; intros res H; cbn [Re.lazy] in H.
    + destruct (k "") eqn:E; [exact (Hk _ _ E) | discriminate].
    + destruct (k (String c u)) eqn:E; [exact (Hk _ _ E)|].
      destruct (p c); [|discriminate].
      cbn [Str.existsb]. rewrite (IHu _ H). apply orb_true_r.
Qed.

Lemma needs_cls (q p : ascii -> bool) (k : string -> option string) :
  (forall c, p c = true -> q c = true) -> needs q (Re.run (Re.Cls p) k).
Proof.
  intros Hpq [|c u] res H; cbn [Re.run] in H; [discriminate|].
  destruct (p c) eqn:Hp; [|discriminate].
  cbn [Str.existsb]. now rewrite (Hpq c Hp).
Qed.

Lemma is_nocase_lt (c : ascii) : Chars.is_nocase "<" c = Chars.just "<" c.
Proof. destruct c as [[] [] [] [] [] [] [] []]; reflexivity. Qed.

Lemma is_nocase_gt (c : ascii) : Chars.is_nocase ">" c = Chars.just ">" c.
Proof. destruct c as [[] [] [] [] [] [] [] []]; reflexivity. Qed.

Lemma is_nocase_not_gt (a c : ascii) :
  Chars.just ">" a = false -> Chars.is_nocase a c = true ->
  Chars.just ">" c = false.
Proof.
  intros Ha Hc. destruct (Chars.just ">" c) eqn:E; [|reflexivity].
  unfold Chars.just in E. apply Ascii.eqb_eq in E. subst c.
  unfold Chars.is_nocase in Hc. rewrite Ascii.eqb_sym in Hc.
  change (Ascii.eqb (Chars.lower_char ">") (Chars.lower_char a))
    with (Chars.is_nocase ">" a) in Hc.
  rewrite is_nocase_gt in Hc. congruence.
Qed.

(** The greedy run of [[^>]] followed by [>] succeeds exactly when a [>]
    is left in the text. *)
Lemma greedy_until_gt :
  forall t,
    match Re.greedy (Chars.neg (Chars.just ">")) (Re.run (Re.Lit ">") Some) t with
    | Some _ => true
    | None => false
    end = Str.contains ">" t.
Proof.
  unfold Str.contains.
  induction t as [|c t IH]; [reflexivity|].
  cbn [Re.greedy Str.existsb Re.run Re.Lit]. unfold Chars.neg.
  destruct (Chars.just ">" c); cbn [negb orb]; [reflexivity|].
  unfold Re.orelse.
  destruct (Re.greedy _ _ t); [exact IH | exact IH].
Qed.

(** The tag pattern matches at the start of a text exactly when a tag
    begins there. *)
Lemma match_at_tag_re (s : string) :
  match Re.match_at tag_re s with Some _ => true | None => false end = tag_at s.
Proof.
  unfold Re.match_at, tag_re, Re.Plus.
  destruct s as [|c [|d t]]; cbn [Re.run Re.Lit tag_at].
  - reflexivity.
  - now destruct (Chars.just "<" c).
  - destruct (Chars.just "<" c); [|reflexivity].
    unfold Chars.neg at 1. destruct (Chars.just ">" d); [reflexivity|].
    cbn [negb andb]. apply greedy_until_gt.
Qed.

Lemma has_tag_step (s : string) :
  has_tag s
  = tag_at s || match s with
                | EmptyString => false
                | String _ s' => has_tag s'
                end.
Proof.
  unfold has_tag. rewrite <- match_at_tag_re.
  destruct s as [|c s]; cbn [has_match];
    now destruct (Re.match_at tag_re _).
Qed.

(** Two pattern characters, the first only [<] and the second never [>],
    followed by something that needs a [>]: a tag begins where this matches. *)
Lemma tag_at_of_run (p1 p2 : ascii -> bool) (k : string -> option string) :
  (forall c, p1 c = true -> Chars.just "<" c = true) ->
  (forall d, p2 d = true -> Chars.just ">" d = false) ->
  needs (Chars.just ">") k ->
  forall s res,
    Re.run (Re.Cls p1) (Re.run (Re.Cls p2) k) s = Some res -> tag_at s = true.
Proof.
  intros H1 H2 Hk [|c [|d t]] res H; cbn [Re.run] in H; try discriminate.
  - destruct (p1 c); discriminate.
  - destruct (p1 c) eqn:E1; [|discriminate].
    destruct (p2 d) eqn:E2; [|discriminate].
    cbn [tag_at]. rewrite (H1 c E1), (H2 d E2).
    exact (Hk _ _ H).
Qed.

Lemma gt_needs_gt (k : string -> option string) :
  needs (Chars.just ">") (Re.run (Re.Lit ">") k).
Proof. cbn [Re.Lit Re.run]. apply needs_cls. auto. Qed.

Lemma block_re_is_tag (t0 : ascii) (t : string) :
  Chars.just ">" t0 = false ->
  forall s res,
    Re.match_at (block_re (String t0 t)) s = Some res -> tag_at s = true.
Proof.
  intros Ht0 s res H. unfold Re.match_at, block_re in H.
  cbn [append Re.Lit Re.run] in H.
  revert H. apply tag_at_of_run.
  - auto.
  - intros d Hd. unfold Chars.just in *. apply Ascii.eqb_eq in Hd. now subst d.
  - apply run_needs. fold (Re.run (Re.LazyStar Chars.any)).
    intros u r Hu. revert Hu.
    apply (run_needs _ (Re.LazyStar Chars.any)). apply gt_needs_gt.
Qed.

Lemma br_re_is_tag (s res : string) :
  Re.match_at br_re s = Some res -> tag_at s = true.
Proof.
  intros H. unfold Re.match_at, br_re in H.
  cbn [Re.LitNoCase Re.run] in H.
  revert H. apply tag_at_of_run.
  - intros c Hc. now rewrite <- is_nocase_lt.
  - intros d. now apply is_nocase_not_gt.
  - apply (run_needs _ (Re.Cls (Chars.is_nocase "r"))).
    intros u r Hu. cbn [Re.run] in Hu. revert Hu.
    apply (run_needs _ (Re.Star Chars.isspace)).
    apply (run_needs _ (Re.Opt (Re.LitNoCase "/"))).
    cbn [Re.run]. apply needs_cls. intros c. now rewrite is_nocase_gt.
Qed.

Lemma p_close_re_is_tag (s res : string) :
  Re.match_at p_close_re s = Some res -> tag_at s = true.
Proof.
  intros H. unfold Re.match_at, p_close_re in H.
  cbn [Re.LitNoCase Re.run] in H.
  revert H. apply tag_at_of_run.
  - intros c Hc. now rewrite <- is_nocase_lt.
  - intros d. now apply is_nocase_not_gt.
  - apply (run_needs _ (Re.Cls (Chars.is_nocase "p"))).
    apply needs_cls. intros c. now rewrite is_nocase_gt.
Qed.

(** A pattern that only matches where a tag begins finds nothing in a text
    without tags. *)
Lemma no_tag_no_match (r : Re.regex) :
  (forall s res, Re.match_at r s = Some res -> tag_at s = true) ->
  forall s, has_tag s = false -> has_match r s = false.
Proof.
  intros Hr. induction s as [|c s IH]; intros H;
    rewrite has_tag_step in H; apply orb_false_iff in H as [Hat Hrest];
    cbn [has_match].
  - destruct (Re.match_at r "") eqn:E; [|reflexivity].
    rewrite (Hr _ _ E) in Hat. discriminate.
  - destruct (Re.match_at r (String c s)) eqn:E; [|now apply IH].
    rewrite (Hr _ _ E) in Hat. discriminate.
Qed.

(** Without tags and without [&] there is nothing to remove or decode: the
    normalizer only trims. *)
Lemma strip_html_plain (x : string) :
  has_tag x = false -> Str.contains "&" x = false ->
  strip_html x = Str.strip x.
Proof.
  intros Htag Hamp. unfold strip_html, Re.sub, Re.sub_with.
  rewrite (sub_loop_no_match (block_re "style")), (sub_loop_no_match (block_re "script")),
    (sub_loop_no_match br_re), (sub_loop_no_match p_close_re),
    (sub_loop_no_match tag_re).
  - unfold Html.unescape. now rewrite Hamp.
  - exact Htag.
  - revert Htag. apply no_tag_no_match, p_close_re_is_tag.
  - revert Htag. apply no_tag_no_match, br_re_is_tag.
  - revert Htag. apply no_tag_no_match, block_re_is_tag. reflexivity.
  - revert Htag. apply no_tag_no_match, block_re_is_tag. reflexivity.
Qed.

Lemma lstrip_existsb (p : ascii -> bool) :
  forall s, Str.existsb p s = false -> Str.existsb p (Str.lstrip s) = false.
Proof.
  induction s as [|c s IH]; intros H; [reflexivity|].
  cbn [Str.lstrip]. destruct (Chars.isspace c); [|exact H].
  cbn [Str.existsb] in H. apply orb_false_iff in H as [_ H]. now apply IH.
Qed.

(** [rstrip] returns a beginning of the text. *)
Lemma rstrip_of_prefix (q : ascii -> bool) :
  forall s, exists z, s = Str.rstrip_of q s ++ z.
Proof.
  induction s as [|c s (z & E)]; [now exists ""|].
  cbn [Str.rstrip_of]. destruct (Str.rstrip_of q s) as [|d r].
  - destruct (q c).
    + now exists (String c s).
    + exists s. reflexivity.
  - exists z. cbn [append] in *. now f_equal.
Qed.

Lemma rstrip_of_existsb (q p : ascii -> bool) (s : string) :
  Str.existsb p s = false -> Str.existsb p (Str.rstrip_of q s) = false.
Proof.
  destruct (rstrip_of_prefix q s) as (z & E). intros H.
  rewrite E, existsb_app in H. now apply orb_false_iff in H as [H _].
Qed.

Lemma strip_existsb (p : ascii -> bool) (s : string) :
  Str.existsb p s = false -> Str.existsb p (Str.strip s) = false.
Proof.
  intros H. unfold Str.strip, Str.rstrip.
  now apply rstrip_of_existsb, lstrip_existsb.
Qed.

Lemma rstrip_of_idem (q : ascii -> bool) :
  forall s, Str.rstrip_of q (Str.rstrip_of q s) = Str.rstrip_of q s.
Proof.
  induction s as [|c s IH]; [reflexivity|].
  simpl. destruct (Str.rstrip_of q s) as [|d r] eqn:E.
  - destruct (q c) eqn:Hq; simpl; [reflexivity | now rewrite Hq].
  - simpl in *. now rewrite IH.
Qed.

Lemma lstrip_no_leading_space : forall s, no_leading_space (Str.lstrip s).
Proof.
  induction s as [|c s IH]; simpl; [exact I|].
  destruct (Chars.isspace c) eqn:E; [exact IH | exact E].
Qed.

Lemma lstrip_fixed (s : string) : no_leading_space s -> Str.lstrip s = s.
Proof.
  destruct s as [|c s]; simpl; [reflexivity|]. now intros ->.
Qed.

Lemma rstrip_of_no_leading_space (q : ascii -> bool) (s : string) :
  no_leading_space s -> no_leading_space (Str.rstrip_of q s).
Proof.
  destruct s as [|c s]; simpl; [trivial|]. intros Hc.
  destruct (Str.rstrip_of q s); [destruct (q c)|]; simpl; trivial.
Qed.

Lemma strip_idem (s : string) : Str.strip (Str.strip s) = Str.strip s.
Proof.
  unfold Str.strip, Str.rstrip.
  rewrite (lstrip_fixed (Str.rstrip_of Chars.isspace (Str.lstrip s))).
  - apply rstrip_of_idem.
  - apply rstrip_of_no_leading_space, lstrip_no_leading_space.
Qed.

Lemma strip_html_stripped (x : string) : Str.strip (strip_html x) = strip_html x.
Proof. unfold strip_html. apply strip_idem. Qed.

Lemma tag_at_app (s z : string) : tag_at s = true -> tag_at (s ++ z) = true.
Proof.
  destruct s as [|c [|d t]]; cbn [tag_at append]; try discriminate.
  intros H. apply andb_true_iff in H as [H1 H2]. rewrite H1.
  unfold Str.contains in *. now rewrite existsb_app, H2.
Qed.

(** Trimming does not create a tag. *)
Lemma has_tag_prefix (z : string) :
  forall s, has_tag (s ++ z) = false -> has_tag s = false.
Proof.
  induction s as [|c s IH]; intros H; [reflexivity|].
  rewrite has_tag_step in H. rewrite has_tag_step. cbn [append] in H.
  apply orb_false_iff in H as [Hat Hrest].
  rewrite (IH Hrest), orb_false_r.
  destruct (tag_at (String c s)) eqn:E; [|reflexivity].
  apply (tag_at_app _ z) in E. cbn [append] in E. congruence.
Qed.

Lemma has_tag_lstrip :
  forall s, has_tag s = false -> has_tag (Str.lstrip s) = false.
Proof.
  induction s as [|c s IH]; intros H; [reflexivity|].
  cbn [Str.lstrip]. destruct (Chars.isspace c); [|exact H].
  rewrite has_tag_step in H. apply orb_false_iff in H as [_ H]. now apply IH.
Qed.

Lemma has_tag_strip (s : string) :
  has_tag s = false -> has_tag (Str.strip s) = false.
Proof.
  intros H. unfold Str.strip, Str.rstrip.
  destruct (rstrip_of_prefix Chars.isspace (Str.lstrip s)) as (z & E).
  apply (has_tag_prefix z). rewrite <- E. now apply has_tag_lstrip.
Qed.

(** Normalizing again changes nothing once the normalized text is free of
    tags and of [&]. *)
Lemma strip_html_idem_on_plain_output (x : string) :
  has_tag (strip_html x) = false ->
  Str.contains "&" (strip_html x) = false ->
  strip_html (strip_html x) = strip_html x.
Proof.
  intros Htag Hamp. rewrite (strip_html_plain _ Htag Hamp).
  apply strip_html_stripped.
Qed.

(** C5, as the code has it. On text that contains no markup tag and no [&]
    (hence no character reference) the normalizer is idempotent. *)
Theorem strip_html_idempotent_plain (x : string) :
  has_tag x = false ->
  Str.contains "&" x = false ->
  strip_html (strip_html x) = strip_html x.
Proof.
  intros Htag Hamp. apply strip_html_idem_on_plain_output;
    rewrite (strip_html_plain x Htag Hamp).
  - now apply has_tag_strip.
  - now apply strip_existsb.
Qed.

Lemma strip_html_idempotent_plain_witness :
  has_tag "  Buy milk <2l, eggs; call mum  " = false
  /\ strip_html (strip_html "  Buy milk <2l, eggs; call mum  ")
     = strip_html "  Buy milk <2l, eggs; call mum  ".
Proof.
  split; [reflexivity|].
  apply (strip_html_idempotent_plain "  Buy milk <2l, eggs; call mum  ");
    reflexivity.
Defined.

(** C5 as stated fails: a text without any tag (not even a [<] or [>])
    whose character references decode to a tag is normalized differently
    the second time. *)
Lemma strip_html_not_idempotent :
  has_tag "a &lt;b&gt; c" = false
  /\ Str.contains "<" "a &lt;b&gt; c" = false
  /\ Str.contains ">" "a &lt;b&gt; c" = false
  /\ strip_html "a &lt;b&gt; c" = "a <b> c"
  /\ strip_html (strip_html "a &lt;b&gt; c") = "a  c"
  /\ strip_html (strip_html "a &lt;b&gt; c") <> strip_html "a &lt;b&gt; c".
Proof.
  repeat split; try reflexivity. vm_compute. discriminate.
Qed.

Lemma run_lit_app (k : string -> option string) (u : string) :
  forall w, Re.run (Re.Lit w) k (w ++ u) = k u.
Proof.
  induction w as [|c w IH]; [reflexivity|].
  cbn [Re.Lit Re.run append]. unfold Chars.just.
  now rewrite Ascii.eqb_refl.
Qed.

(** The lazy star walks over text on which what follows cannot start. *)
Lemma lazy_skip (p bad : ascii -> bool) (k : string -> option string) (u : string) :
  (forall c t, bad c = true -> k (String c t) = None) ->
  forall a,
    Str.forallb (fun c => bad c && p c) a = true ->
    Re.lazy p k (a ++ u) = Re.lazy p k u.
Proof.
  intros Hbad. induction a as [|c a IH]; intros Ha; [reflexivity|].
  cbn [Str.forallb] in Ha. apply andb_true_iff in Ha as [Hc Ha].
  apply andb_true_iff in Hc as [Hc Hp].
  cbn [append]. rewrite <- (IH Ha).
  change (Re.lazy p k (String c (a ++ u)))
    with (match k (String c (a ++ u)) with
          | Some rest => Some rest
          | None => if p c then Re.lazy p k (a ++ u) else None
          end).
  now rewrite (Hbad c _ Hc), Hp.
Qed.

Lemma lazy_hit (p : ascii -> bool) (k : string -> option string) (u r : string) :
  k u = Some r -> Re.lazy p k u = Some r.
Proof. intros H. destruct u; cbn [Re.lazy]; now rewrite H. Qed.

Lemma forallb_of_not_contains (c : ascii) :
  forall s, Str.contains c s = false ->
            Str.forallb (fun x => negb (Chars.just c x) && Chars.any x) s = true.
Proof.
  unfold Str.contains. induction s as [|x s IH]; intros H; [reflexivity|].
  cbn [Str.existsb] in H. apply orb_false_iff in H as [Hx H].
  cbn [Str.forallb]. now rewrite Hx, (IH H).
Qed.

(** A block whose opening tag has no [>] inside and whose content has no
    [<] is matched from its first to its last character. *)
Lemma block_re_match (tag attrs inner rest : string) :
  Str.contains ">" attrs = false ->
  Str.contains "<" inner = false ->
  Re.match_at (block_re tag)
    (("<" ++ tag) ++ attrs ++ ">" ++ inner ++ ("</" ++ tag ++ ">") ++ rest)
  = Some rest.
Proof.
  intros Hattrs Hinner. unfold Re.match_at, block_re.
  cbn [Re.run]. rewrite run_lit_app. cbn [Re.run].
  rewrite (lazy_skip Chars.any (fun x => negb (Chars.just ">" x)));
    [| |now apply forallb_of_not_contains].
  2:{ intros c t Hc. cbn [Re.Lit Re.run].
      now destruct (Chars.just ">" c). }
  apply lazy_hit. rewrite run_lit_app. cbn [Re.run].
  rewrite (lazy_skip Chars.any (fun x => negb (Chars.just "<" x)));
    [| |now apply forallb_of_not_contains].
  2:{ intros c t Hc. cbn [append Re.Lit Re.run].
      now destruct (Chars.just "<" c). }
  apply lazy_hit. apply run_lit_app.
Qed.

Lemma sub_loop_skip (r : Re.regex) (repl : string -> string) (rest : string) :
  forall a,
    Re.sub_loop r repl (String.length a) (a ++ rest) = Re.sub_loop r repl 0 rest.
Proof.
  induction a as [|c a IH]; [reflexivity|]. exact IH.
Qed.

(** The substitution for [style] or [script] blocks deletes such a block,
    content included. *)
Lemma sub_block_removed (tag attrs inner rest : string) :
  Str.contains ">" attrs = false ->
  Str.contains "<" inner = false ->
  Re.sub (block_re tag) ""
    (("<" ++ tag) ++ attrs ++ ">" ++ inner ++ ("</" ++ tag ++ ">") ++ rest)
  = Re.sub (block_re tag) "" rest.
Proof.
  intros Hattrs Hinner. unfold Re.sub, Re.sub_with.
  set (block := tag ++ attrs ++ ">" ++ inner ++ ("</" ++ tag ++ ">")).
  assert (E : ("<" ++ tag) ++ attrs ++ ">" ++ inner ++ ("</" ++ tag ++ ">") ++ rest
              = String "<" (block ++ rest)).
  { unfold block. now rewrite !append_assoc. }
  pose proof (block_re_match tag attrs inner rest Hattrs Hinner) as Hm.
  rewrite E in *. cbn [Re.sub_loop]. unfold Re.match_len. rewrite Hm.
  change (String.length (String "<" (block ++ rest)))
    with (S (String.length (block ++ rest))).
  rewrite length_append.
  replace (S (String.length block + String.length rest) - String.length rest)
    with (S (String.length block)) by lia.
  cbn [append]. apply sub_loop_skip.
Qed.

(** A lower-case [style] block at the head of the markup leaves no trace
    in the normalized text. *)
Lemma strip_html_style_block (attrs inner rest : string) :
  Str.contains ">" attrs = false ->
  Str.contains "<" inner = false ->
  strip_html ("<style" ++ attrs ++ ">" ++ inner ++ "</style>" ++ rest)
  = strip_html rest.
Proof.
  intros Hattrs Hinner. unfold strip_html.
  now rewrite <- (sub_block_removed "style" attrs inner rest Hattrs Hinner).
Qed.

(** C6 at an upper-case block: the patterns for [style] and [script] are
    matched case-sensitively (those for [br] and [/p] are not), so the block
    content stays in the text. *)
Lemma strip_html_keeps_uppercase_style :
  strip_html "<STYLE>p{color:red}</STYLE>Hello" = "p{color:red}Hello"
  /\ strip_html "<style>p{color:red}</style>Hello" = "Hello"
  /\ strip_html "<SCRIPT>track()</SCRIPT>Hello<BR>x</P>" = "track()Hello" ++ nl ++ "x".
Proof. repeat split; reflexivity. Qed.

(* ================================================================== *)
(** * Slugs *)

Lemma length_cons_sub (c : ascii) (t rest : string) :
  String.length rest <= String.length t ->
  exists n, String.length (String c t) - String.length rest = S n.
Proof.
  intros H. exists (String.length t - String.length rest).
  change (String.length (String c t)) with (S (String.length t)). lia.
Qed.

(** A greedy star followed by nothing always matches, within the text. *)
Lemma run_star_total (p : ascii -> bool) :
  forall t, exists rest,
    Re.greedy p Some t = Some rest
    /\ String.length rest <= String.length t.
Proof.
  induction t as [|c t (rest & E & Hlen)]; cbn [Re.greedy].
  - exists "". split; [reflexivity | simpl; lia].
  - destruct (p c).
    + rewrite E. exists rest. split; [reflexivity | simpl; lia].
    + exists (String c t). split; [reflexivity | simpl; lia].
Qed.

Lemma match_len_cls (p : ascii -> bool) (c : ascii) (t : string) :
  p c = true -> exists n, Re.match_len (Re.Cls p) (String c t) = Some (S n).
Proof.
  intros Hp. unfold Re.match_len, Re.match_at. cbn [Re.run]. rewrite Hp.
  destruct (length_cons_sub c t t (le_n _)) as (n & ->). now exists n.
Qed.

Lemma match_len_plus (p : ascii -> bool) (c : ascii) (t : string) :
  p c = true -> exists n, Re.match_len (Re.Plus p) (String c t) = Some (S n).
Proof.
  intros Hp. unfold Re.match_len, Re.match_at, Re.Plus.
  cbn [Re.run]. rewrite Hp.
  destruct (run_star_total p t) as (rest & E & Hlen).
  rewrite E.
  destruct (length_cons_sub c t rest Hlen) as (n & ->). now exists n.
Qed.

(** Characters of a class that the pattern always consumes do not survive
    a substitution whose replacement has none of them. *)
Lemma sub_loop_removes (r : Re.regex) (repl : string -> string)
  (q : ascii -> bool) :
  (forall m, Str.forallb q (repl m) = true) ->
  (forall c t, q c = false -> exists n, Re.match_len r (String c t) = Some (S n)) ->
  forall s skip, Str.forallb q (Re.sub_loop r repl skip s) = true.
Proof.
  intros Hrepl Hr. induction s as [|c s IH]; intros skip; [reflexivity|].
  simpl. destruct skip as [|k]; [|apply IH].
  destruct (Re.match_len r (String c s)) as [[|n]|] eqn:E.
  - simpl. rewrite IH, andb_true_r.
    destruct (q c) eqn:Hq; [reflexivity|].
    destruct (Hr c s Hq) as (n & En). congruence.
  - now rewrite forallb_app, Hrepl, IH.
  - simpl. rewrite IH, andb_true_r.
    destruct (q c) eqn:Hq; [reflexivity|].
    destruct (Hr c s Hq) as (n & En). congruence.
Qed.

(** A substitution keeps a class that holds of the text and of the
    replacement. *)
Lemma sub_loop_keeps (r : Re.regex) (repl : string -> string)
  (q : ascii -> bool) :
  (forall m, Str.forallb q (repl m) = true) ->
  forall s skip,
    Str.forallb q s = true -> Str.forallb q (Re.sub_loop r repl skip s) = true.
Proof.
  intros Hrepl. induction s as [|c s IH]; intros skip Hs; [reflexivity|].
  simpl in Hs. apply andb_true_iff in Hs as [Hc Hs].
  simpl. destruct skip as [|k]; [|now apply IH].
  destruct (Re.match_len r (String c s)) as [[|n]|].
  - simpl. now rewrite Hc, IH.
  - now rewrite forallb_app, Hrepl, IH.
  - simpl. now rewrite Hc, IH.
Qed.

Lemma forallb_both (p q r : ascii -> bool) :
  (forall c, p c = true -> q c = true -> r c = true) ->
  forall s, Str.forallb p s = true -> Str.forallb q s = true ->
            Str.forallb r s = true.
Proof.
  intros H. induction s as [|c s IH]; intros Hp Hq; [reflexivity|].
  simpl in *. apply andb_true_iff in Hp as [Hp1 Hp2].
  apply andb_true_iff in Hq as [Hq1 Hq2].
  now rewrite (H c Hp1 Hq1), (IH Hp2 Hq2).
Qed.

(** The slug is never empty and is written in [[a-z0-9-]]. *)
Lemma slugify_chars (value : string) :
  Str.forallb slug_char (slugify value) = true /\ slugify value <> "".
Proof.
  unfold slugify.
  set (v0 := Str.lower (Str.strip value)).
  set (v1 := Re.sub (Re.Cls not_slug_char) "" v0).
  set (v2 := Re.sub (Re.Plus Chars.isspace) "-" v1).
  assert (H1 : Str.forallb (Chars.neg not_slug_char) v1 = true).
  { apply sub_loop_removes; [reflexivity|].
    intros c t Hq. apply match_len_cls.
    unfold Chars.neg in Hq. now apply negb_false_iff in Hq. }
  assert (H2 : Str.forallb (Chars.neg not_slug_char) v2 = true).
  { apply sub_loop_keeps; [reflexivity | exact H1]. }
  assert (H3 : Str.forallb (Chars.neg Chars.isspace) v2 = true).
  { apply sub_loop_removes; [reflexivity|].
    intros c t Hq. apply match_len_plus.
    unfold Chars.neg in Hq. now apply negb_false_iff in Hq. }
  assert (H4 : Str.forallb slug_char v2 = true).
  { revert H2 H3. apply forallb_both. intros c.
    unfold Chars.neg, not_slug_char, slug_char, Chars.neg, Chars.either.
    destruct (Chars.isalnum_lower c), (Chars.just "-" c), (Chars.isspace c);
      simpl; congruence. }
  unfold Str.or_else. destruct v2 as [|c v2]; simpl.
  - split; [reflexivity | discriminate].
  - split; [exact H4 | discriminate].
Qed.

(* ================================================================== *)
(** * Paths *)

Lemma split_on_plain (sep : ascii) :
  forall s, Str.contains sep s = false -> Fs.split_on sep s = [s].
Proof.
  induction s as [|c s IH]; intros H; [reflexivity|].
  unfold Str.contains in *. simpl in H. apply orb_false_iff in H as [Hc H].
  unfold Chars.just in Hc. simpl. rewrite Ascii.eqb_sym, Hc.
  now rewrite (IH H).
Qed.

(** A segment without [/] that is neither empty nor [.] is one component. *)
Lemma segments_single (s : string) :
  Str.contains "/" s = false -> s <> "" -> s <> "." -> Fs.segments s = [s].
Proof.
  intros Hs Hne Hdot. unfold Fs.segments. rewrite (split_on_plain _ s Hs).
  cbn [filter]. unfold Fs.kept_component.
  destruct (String.eqb_spec s ""); [contradiction|].
  destruct (String.eqb_spec s "."); [contradiction|]. reflexivity.
Qed.

Lemma slug_char_not_sep (c : ascii) :
  slug_char c = true -> Chars.just "/" c = false /\ c <> "."%char.
Proof.
  destruct c as [[] [] [] [] [] [] [] []]; simpl; intros H;
    try discriminate H; split; try reflexivity; discriminate.
Qed.

Lemma slug_no_slash :
  forall s, Str.forallb slug_char s = true -> Str.contains "/" s = false.
Proof.
  induction s as [|c s IH]; intros H; [reflexivity|].
  cbn [Str.forallb] in H. apply andb_true_iff in H as [Hc H].
  unfold Str.contains in *. cbn [Str.existsb].
  destruct (slug_char_not_sep c Hc) as [-> _]. now apply IH.
Qed.

(** A text that begins with a slug and has no [/] is one component. *)
Lemma segments_slug_prefix (value rest : string) :
  Str.contains "/" rest = false ->
  Fs.segments (slugify value ++ rest) = [slugify value ++ rest].
Proof.
  intros Hrest. destruct (slugify_chars value) as [Hc Hne].
  apply segments_single.
  - unfold Str.contains in *.
    rewrite existsb_app, Hrest, orb_false_r.
    now apply slug_no_slash.
  - destruct (slugify value); [congruence | discriminate].
  - destruct (slugify value) as [|c s]; [congruence|].
    simpl in Hc. apply andb_true_iff in Hc as [Hc _].
    destruct (slug_char_not_sep c Hc) as [_ Hdot].
    simpl. intros E. injection E as E _. contradiction.
Qed.

Lemma segments_slug (value : string) :
  Fs.segments (slugify value) = [slugify value].
Proof.
  rewrite <- (append_empty_r (slugify value)) at 1.
  rewrite (segments_slug_prefix value "" eq_refl).
  now rewrite append_empty_r.
Qed.

(* ================================================================== *)
(** * The exporter *)

Lemma node_at_snoc (w : Fs.World) (base : Fs.Path) (c : string) :
  Fs.node_at w (base ++ [c])%list = Fs.nodes w (base ++ [c])%list.
Proof. destruct base; reflexivity. Qed.


(** The step of [mkdir] at a directory that exists: it goes on below, or,
    at the last component, ends where it is. *)
Lemma mkdir_from_at_dir (base : Fs.Path) (c : string) (rest : list string)
  (w : Fs.World) (r : Fs.outcome unit) (w' : Fs.World) :
  Fs.nodes w (base ++ [c])%list = Some Fs.Dir ->
  Fs.mkdir_from base (c :: rest) w = (r, w') ->
  w' = w \/ Fs.mkdir_from (base ++ [c])%list rest w = (r, w').
Proof.
  intros Hn. cbn [Fs.mkdir_from]. rewrite node_at_snoc, Hn.
  destruct rest as [|c' rest]; [|now right].
  destruct (Fs.denied w (base ++ [c])%list); intros H; injection H as _ <-;
    now left.
Qed.


(** Whatever its outcome, [mkdir] leaves the clock and every existing node
    as they are. *)
Lemma mkdir_from_frame :
  forall comps base w r w',
    Fs.mkdir_from base comps w = (r, w') ->
    Fs.clock w' = Fs.clock w /\ Fs.reads w' = Fs.reads w
    /\ (forall q n, Fs.nodes w q = Some n -> Fs.nodes w' q = Some n).
Proof.
  induction comps as [|c rest IH]; intros base w r w' Hrun.
  - injection Hrun as _ <-. auto.
  - destruct (Fs.nodes w (base ++ [c])%list) as [[|content]|] eqn:Hn.
    + destruct (mkdir_from_at_dir _ _ _ _ _ _ Hn Hrun) as [-> | Hrun'];
        [auto | exact (IH _ _ _ _ Hrun')].
    + cbn [Fs.mkdir_from] in Hrun. rewrite node_at_snoc, Hn in Hrun.
      destruct rest; injection Hrun as _ <-; auto.
    + cbn [Fs.mkdir_from] in Hrun. rewrite node_at_snoc, Hn in Hrun.
      destruct (Fs.denied w (base ++ [c])%list) as [e|];
        [injection Hrun as _ <-; auto|].
      destruct (IH _ _ _ _ Hrun) as (Hc & Hr & Hf).
      repeat split; auto. intros q n Hq. apply Hf.
      unfold Fs.put. simpl.
      destruct (Fs.path_eq_dec q (base ++ [c])%list) as [->|_]; [congruence|].
      exact Hq.
Qed.


Lemma write_text_inv (p : Fs.Path) (content : string) (w w' : Fs.World) :
  Fs.write_text p content w = (Fs.Ok tt, w') ->
  w' = Fs.put p (Fs.File content) w.
Proof.
  unfold Fs.write_text, Fs.raise.
  destruct (Fs.node_at w (removelast p)) as [[|?]|]; try discriminate.
  destruct (Fs.node_at w p) as [[|?]|]; try discriminate;
    destruct (Fs.denied w p); try discriminate; now intros [= <-].
Qed.

(** The folder the loop body settles on is the effective folder of the
    specification. *)
Lemma effective_folder_code (folder_overrides : option (list (string * string)))
  (record : NoteRecord) :
  Str.or_else (folder_name_of folder_overrides record) "Uncategorized"
  = effective_folder folder_overrides record.
Proof.
  unfold effective_folder, folder_name_of, Str.or_else.
  rewrite truthy_nonempty.
  assert (Hget : forall d,
             dict_get d (title record) (folder record)
             = match find (fun kv => String.eqb (fst kv) (title record)) d with
               | Some kv => snd kv
               | None => folder record
               end).
  { induction d as [|[k v] d IH]; simpl; [reflexivity|].
    rewrite String.eqb_sym. destruct (String.eqb k (title record)); auto. }
  destruct folder_overrides as [[|kv d]|]; simpl overrides_truthy; cbv iota.
  - simpl. now destruct (String.eqb (folder record) "").
  - rewrite Hget. now destruct (String.eqb _ "").
  - now destruct (String.eqb (folder record) "").
Qed.

(** The destination the loop body computes for a note. *)
Lemma destination_code (output_dir : Fs.Path) (output_format timestamp : string)
  (folder_overrides : option (list (string * string))) (record : NoteRecord) :
  Fs.div
    (Fs.div output_dir
       (slugify (Str.or_else (folder_name_of folder_overrides record) "Uncategorized")))
    (slugify (title record) ++ "-" ++ timestamp ++ "." ++ output_format)
  = destination output_dir output_format timestamp folder_overrides record.
Proof. unfold destination. now rewrite effective_folder_code. Qed.

Section ExportLoop.

Variables (out : Fs.Path) (fmt ts : string)
          (ov : option (list (string * string))).

Local Abbreviation dest := (destination out fmt ts ov).

(** What a completed run of the loop returns and leaves behind. *)
Lemma export_loop_inv :
  forall notes created w paths w',
    export_loop notes out fmt ts ov created w = (Fs.Ok paths, w') ->
    paths = (created ++ List.map dest notes)%list
    /\ Fs.reads w' = Fs.reads w
    /\ (forall q n, Fs.nodes w q = Some n -> ~ In q (List.map dest notes) ->
                    Fs.nodes w' q = Some n)
    /\ (NoDup (List.map dest notes) ->
        Forall2 (fun note p => Fs.nodes w' p = Some (Fs.File (format_note note fmt)))
          notes (List.map dest notes)).
Proof.
  induction notes as [|record rest IH]; intros created w paths w' Hrun.
  - injection Hrun as <- <-. rewrite app_nil_r. repeat split; auto.
  - cbn [export_loop] in Hrun. rewrite destination_code in Hrun.
    unfold Fs.bind at 1 in Hrun.
    destruct (Fs.mkdir _ w) as [[[]|e] w1] eqn:Hmk; [|discriminate].
    unfold Fs.bind at 1 in Hrun.
    destruct (Fs.write_text _ _ w1) as [[[]|e] w2] eqn:Hwr; [|discriminate].
    apply write_text_inv in Hwr. subst w2.
    destruct (mkdir_from_frame _ _ _ _ _ Hmk) as (_ & Hr1 & Hf1).
    destruct (IH _ _ _ _ Hrun) as (Hp & Hr & Hf & Hfiles).
    cbn [List.map]. repeat split.
    + rewrite Hp, <- app_assoc. reflexivity.
    + rewrite Hr. simpl. exact Hr1.
    + intros q n Hq Hnot. apply Hf.
      * unfold Fs.put. simpl.
        destruct (Fs.path_eq_dec q (dest record)) as [->|_].
        -- exfalso. apply Hnot. now left.
        -- now apply Hf1.
      * intros Hin. apply Hnot. now right.
    + intros Hnd. inversion Hnd as [|? ? Hnotin Hnd']; subst.
      constructor; [|now apply Hfiles].
      apply Hf; [|exact Hnotin].
      unfold Fs.put. simpl.
      now destruct (Fs.path_eq_dec (dest record) (dest record)).
Qed.

End ExportLoop.

(** What a completed export returns and leaves behind: one destination per
    note, in order, all built from the one clock reading of the call. *)
Lemma export_notes_inv (notes : list NoteRecord) (out : Fs.Path) (fmt : string)
  (ov : option (list (string * string))) (w : Fs.World)
  (paths : list Fs.Path) (w' : Fs.World) :
  export_notes notes out fmt ov w = (Fs.Ok paths, w') ->
  paths = List.map (destination out fmt (run_timestamp w) ov) notes
  /\ Fs.reads w' = S (Fs.reads w)
  /\ (NoDup paths ->
      Forall2 (fun note p => Fs.nodes w' p = Some (Fs.File (format_note note fmt)))
        notes paths).
Proof.
  unfold export_notes, run_timestamp. intros Hrun.
  unfold Fs.bind at 1 in Hrun.
  destruct (Fs.mkdir out w) as [[[]|e] w1] eqn:Hmk; [|discriminate].
  destruct (mkdir_from_frame _ _ _ _ _ Hmk) as (Hc1 & Hr1 & _).
  unfold Fs.bind at 1, Fs.now at 1 in Hrun.
  destruct (export_loop_inv _ _ _ _ _ _ _ _ _ Hrun) as (Hp & Hr & _ & Hfiles).
  simpl in Hp, Hr. rewrite Hc1, Hr1 in Hp. rewrite Hr1 in Hr.
  repeat split; auto.
  rewrite Hc1, Hr1 in Hfiles. rewrite Hp. exact Hfiles.
Qed.

(** A time stamp is made of digits and a hyphen. *)
Lemma string_of_uint_digits (d : Decimal.uint) :
  Str.forallb Chars.isdigit (NilEmpty.string_of_uint d) = true.
Proof. induction d; simpl; auto. Qed.

Lemma zeros_digits (n : nat) : Str.forallb Chars.isdigit (Fs.zeros n) = true.
Proof. induction n; simpl; auto. Qed.

Lemma padded_digits (width n : nat) :
  Str.forallb Chars.isdigit (Fs.padded width n) = true.
Proof.
  unfold Fs.padded, Str.of_nat.
  now rewrite forallb_app, zeros_digits, string_of_uint_digits.
Qed.

Lemma forallb_weaken (p q : ascii -> bool) :
  (forall c, p c = true -> q c = true) ->
  forall s, Str.forallb p s = true -> Str.forallb q s = true.
Proof.
  intros H s Hs. apply (forallb_both p p q); auto.
Qed.

Lemma strftime_chars (t : Fs.datetime) :
  Str.forallb stamp_char (Fs.strftime t) = true.
Proof.
  assert (Hpad : forall width n, Str.forallb stamp_char (Fs.padded width n) = true).
  { intros width n. apply (forallb_weaken Chars.isdigit); [|apply padded_digits].
    intros c Hc. unfold stamp_char, Chars.either. now rewrite Hc. }
  unfold Fs.strftime. rewrite !forallb_app, !Hpad. reflexivity.
Qed.

Lemma forallb_excludes (p q : ascii -> bool) :
  (forall c, p c = true -> q c = false) ->
  forall s, Str.forallb p s = true -> Str.existsb q s = false.
Proof.
  intros H. induction s as [|c s IH]; intros Hs; [reflexivity|].
  cbn [Str.forallb] in Hs. apply andb_true_iff in Hs as [Hc Hs].
  cbn [Str.existsb]. now rewrite (H c Hc), (IH Hs).
Qed.

Lemma stamp_char_not_sep (c : ascii) :
  stamp_char c = true -> Chars.just "/" c = false.
Proof.
  destruct c as [[] [] [] [] [] [] [] []]; simpl; intros H;
    try discriminate H; reflexivity.
Qed.

Lemma strftime_no_slash (t : Fs.datetime) :
  Str.contains "/" (Fs.strftime t) = false.
Proof.
  apply (forallb_excludes stamp_char); [exact stamp_char_not_sep|].
  apply strftime_chars.
Qed.

Lemma div_slug (p : Fs.Path) (value : string) :
  Fs.div p (slugify value) = (p ++ [slugify value])%list.
Proof. unfold Fs.div. now rewrite segments_slug. Qed.

(** With no [/] in format and timestamp the file name is one component. *)
Lemma div_file (p : Fs.Path) (value fmt ts : string) :
  Str.contains "/" fmt = false -> Str.contains "/" ts = false ->
  Fs.div p (slugify value ++ "-" ++ ts ++ "." ++ fmt)
  = (p ++ [(slugify value ++ "-" ++ ts ++ "." ++ fmt)%string])%list.
Proof.
  intros Hfmt Hts. unfold Fs.div. rewrite segments_slug_prefix; [reflexivity|].
  unfold Str.contains in *.
  change ("-" ++ ts ++ "." ++ fmt) with (String "-" (ts ++ String "." fmt)).
  cbn [Str.existsb]. rewrite existsb_app. cbn [Str.existsb].
  now rewrite Hts, Hfmt.
Qed.

(** The destination then lies two components below the output directory. *)
Lemma destination_parts (out : Fs.Path) (fmt ts : string)
  (ov : option (list (string * string))) (note : NoteRecord) :
  Str.contains "/" fmt = false -> Str.contains "/" ts = false ->
  destination out fmt ts ov note
  = (out ++ [slugify (effective_folder ov note);
             (slugify (title note) ++ "-" ++ ts ++ "." ++ fmt)%string])%list.
Proof.
  intros Hfmt Hts. unfold destination.
  rewrite div_slug, (div_file _ _ _ _ Hfmt Hts). now rewrite <- app_assoc.
Qed.




















(* ================================================================== *)
(** * Further properties: slugs and tokens *)

(** A slug is a single path component: never empty, written in
    [[a-z0-9-]] only, and appended to a path as one component. *)
Theorem slugify_one_component (value : string) (p : Fs.Path) :
  slugify value <> ""
  /\ Str.forallb slug_char (slugify value) = true
  /\ Fs.div p (slugify value) = (p ++ [slugify value])%list.
Proof.
  destruct (slugify_chars value) as [Hc Hne].
  repeat split; [exact Hne | exact Hc | apply div_slug].
Qed.

Lemma slug_char_plain (c : ascii) :
  slug_char c = true ->
  Chars.isspace c = false /\ not_slug_char c = false /\ Chars.lower_char c = c.
Proof.
  destruct c as [[] [] [] [] [] [] [] []]; simpl; intros H;
    try discriminate H; repeat split.
Qed.

Lemma rstrip_of_none (q : ascii -> bool) :
  forall s, Str.existsb q s = false -> Str.rstrip_of q s = s.
Proof.
  induction s as [|c s IH]; intros H; [reflexivity|].
  cbn [Str.existsb] in H. apply orb_false_iff in H as [Hc H].
  cbn [Str.rstrip_of]. rewrite (IH H). destruct s; [now rewrite Hc | reflexivity].
Qed.

Lemma has_match_cls (p : ascii -> bool) :
  forall s, Str.existsb p s = false -> has_match (Re.Cls p) s = false.
Proof.
  induction s as [|c s IH]; intros H; [reflexivity|].
  cbn [Str.existsb] in H. apply orb_false_iff in H as [Hc H].
  cbn [has_match]. unfold Re.match_at. cbn [Re.run]. rewrite Hc. now apply IH.
Qed.

Lemma has_match_plus (p : ascii -> bool) :
  forall s, Str.existsb p s = false -> has_match (Re.Plus p) s = false.
Proof.
  induction s as [|c s IH]; intros H; [reflexivity|].
  cbn [Str.existsb] in H. apply orb_false_iff in H as [Hc H].
  cbn [has_match]. unfold Re.match_at, Re.Plus. cbn [Re.run]. rewrite Hc.
  now apply IH.
Qed.

Lemma map_fixed (f : ascii -> ascii) (p : ascii -> bool) :
  (forall c, p c = true -> f c = c) ->
  forall s, Str.forallb p s = true -> Str.map f s = s.
Proof.
  intros Hf. induction s as [|c s IH]; intros H; [reflexivity|].
  cbn [Str.forallb] in H. apply andb_true_iff in H as [Hc H].
  cbn [Str.map]. now rewrite (Hf c Hc), (IH H).
Qed.

(** A text written in the slug alphabet is its own slug. *)
Lemma slugify_fixed (s : string) :
  s <> "" -> Str.forallb slug_char s = true -> slugify s = s.
Proof.
  intros Hne Hs.
  assert (Hsp : Str.existsb Chars.isspace s = false).
  { apply (forallb_excludes slug_char); [|exact Hs].
    intros c Hc. now destruct (slug_char_plain c Hc). }
  assert (Hns : Str.existsb not_slug_char s = false).
  { apply (forallb_excludes slug_char); [|exact Hs].
    intros c Hc. now destruct (slug_char_plain c Hc) as (_ & H & _). }
  assert (Hstrip : Str.strip s = s).
  { unfold Str.strip, Str.rstrip. rewrite lstrip_fixed.
    - now apply rstrip_of_none.
    - destruct s as [|c s]; [exact I|]. simpl.
      cbn [Str.existsb] in Hsp. now apply orb_false_iff in Hsp as [Hc _]. }
  unfold slugify. rewrite Hstrip. unfold Str.lower.
  rewrite (map_fixed Chars.lower_char slug_char); [|intros c Hc|exact Hs].
  2:{ now destruct (slug_char_plain c Hc) as (_ & _ & H). }
  unfold Re.sub, Re.sub_with.
  rewrite (sub_loop_no_match (Re.Cls not_slug_char)) by now apply has_match_cls.
  rewrite (sub_loop_no_match (Re.Plus Chars.isspace)) by now apply has_match_plus.
  unfold Str.or_else. destruct s; [contradiction | reflexivity].
Qed.

(** Making a slug of a slug changes nothing. *)
Theorem slugify_idempotent (value : string) :
  slugify (slugify value) = slugify value.
Proof.
  destruct (slugify_chars value) as [Hc Hne]. now apply slugify_fixed.
Qed.

Lemma take_app (rest : string) :
  forall a, Str.take (String.length a) (a ++ rest) = a.
Proof.
  unfold Str.take. induction a as [|c a IH]; simpl.
  - now destruct rest.
  - now rewrite IH.
Qed.

(** The greedy run of [p] followed by nothing consumes characters of [p]
    only. *)
Lemma greedy_split (p : ascii -> bool) :
  forall t rest,
    Re.greedy p Some t = Some rest ->
    exists a, t = a ++ rest /\ Str.forallb p a = true.
Proof.
  induction t as [|c t IH]; intros rest H; cbn [Re.greedy] in H.
  - injection H as <-. now exists "".
  - destruct (p c) eqn:Hp.
    + destruct (run_star_total p t) as (r & E & _). rewrite E in H.
      cbn [Re.orelse] in H. injection H as <-.
      destruct (IH r E) as (a & Ea & Ha).
      exists (String c a). cbn [append Str.forallb]. now rewrite <- Ea, Hp, Ha.
    + injection H as <-. now exists "".
Qed.

Lemma findall_plus_tokens (p : ascii -> bool) :
  forall s skip,
    Forall (fun t => t <> "" /\ Str.forallb p t = true)
      (Re.findall_loop (Re.Plus p) skip s).
Proof.
  induction s as [|c s IH]; intros skip; [constructor|].
  cbn [Re.findall_loop]. destruct skip as [|k]; [|apply IH].
  destruct (Re.match_len (Re.Plus p) (String c s)) as [[|n]|] eqn:E;
    try apply IH.
  constructor; [|apply IH].
  unfold Re.match_len, Re.match_at, Re.Plus in E. cbn [Re.run] in E.
  destruct (p c) eqn:Hp; [|discriminate].
  destruct (Re.greedy p Some s) as [rest|] eqn:Hg; [|discriminate].
  destruct (greedy_split p s rest Hg) as (a & Ea & Ha).
  injection E as E. rewrite Ea in E.
  change (String.length (String c (a ++ rest)))
    with (S (String.length (a ++ rest))) in E.
  rewrite length_append in E.
  assert (En : S n = String.length (String c a))
    by (simpl; destruct (String.length rest); lia).
  rewrite En, Ea.
  change (String c (a ++ rest)) with (String c a ++ rest).
  rewrite take_app. split; [discriminate|].
  cbn [Str.forallb]. now rewrite Hp, Ha.
Qed.

(** Every token is a non-empty word over [[a-z0-9]]. *)
Theorem tokenize_tokens (text : string) :
  Forall (fun t => t <> "" /\ Str.forallb Chars.isalnum_lower t = true)
    (tokenize text).
Proof. apply findall_plus_tokens. Qed.


(* ================================================================== *)
(** * Further properties: the note source *)

Lemma split_on_nonempty (sep : ascii) (s : string) : Fs.split_on sep s <> [].
Proof.
  destruct s as [|c s]; simpl; [discriminate|].
  destruct (Ascii.eqb c sep); [discriminate|].
  destruct (Fs.split_on sep s); discriminate.
Qed.

(** Splitting a text that holds a separator: the parts before it, then the
    parts after it. *)
Lemma split_on_sep_app (sep : ascii) (b : string) :
  forall a,
    Fs.split_on sep (a ++ String sep b)
    = (Fs.split_on sep a ++ Fs.split_on sep b)%list.
Proof.
  induction a as [|c a IH]; cbn [append Fs.split_on].
  - now rewrite Ascii.eqb_refl.
  - destruct (Ascii.eqb c sep); rewrite IH; [reflexivity|].
    pose proof (split_on_nonempty sep a) as Hne.
    destruct (Fs.split_on sep a); [contradiction | reflexivity].
Qed.

Lemma split_on_pieces (sep : ascii) (p : ascii -> bool) :
  forall s,
    Str.existsb p s = false ->
    Forall (fun w => Str.existsb p w = false) (Fs.split_on sep s).
Proof.
  induction s as [|c s IH]; intros H; cbn [Fs.split_on].
  - now constructor.
  - cbn [Str.existsb] in H. apply orb_false_iff in H as [Hc H].
    specialize (IH H). destruct (Ascii.eqb c sep).
    + now constructor.
    + destruct (Fs.split_on sep s) as [|w ws].
      * constructor; [cbn [Str.existsb]; now rewrite Hc | constructor].
      * inversion IH; subst. constructor; [|assumption].
        cbn [Str.existsb]. now rewrite Hc.
Qed.

Lemma split_on_no_sep (sep : ascii) :
  forall s, Forall (fun w => Str.contains sep w = false) (Fs.split_on sep s).
Proof.
  unfold Str.contains, Chars.just.
  induction s as [|c s IH]; cbn [Fs.split_on].
  - now constructor.
  - destruct (Ascii.eqb c sep) eqn:E.
    + now constructor.
    + destruct (Fs.split_on sep s) as [|w ws].
      * constructor; [|constructor]. cbn [Str.existsb].
        now rewrite Ascii.eqb_sym, E.
      * inversion IH; subst. constructor; [|assumption].
        cbn [Str.existsb]. now rewrite Ascii.eqb_sym, E.
Qed.

Lemma fold_left_app_flat_map {A B} (f : A -> list B) :
  forall l acc,
    fold_left (fun acc x => (acc ++ f x)%list) l acc = (acc ++ flat_map f l)%list.
Proof.
  induction l as [|x l IH]; intros acc; simpl.
  - now rewrite app_nil_r.
  - now rewrite IH, app_assoc.
Qed.

Lemma parse_notes_flat (raw : string) :
  parse_notes raw = flat_map parse_record (split raw RECORD_SEPARATOR).
Proof. unfold parse_notes. now rewrite fold_left_app_flat_map. Qed.

Lemma parse_notes_split (a b : string) :
  parse_notes (a ++ String RECORD_SEPARATOR b)
  = (parse_notes a ++ parse_notes b)%list.
Proof.
  rewrite !parse_notes_flat. unfold split.
  now rewrite split_on_sep_app, flat_map_app.
Qed.

(** Parsing goes record by record: the notes of two texts joined by a
    record separator are the notes of the first followed by the notes of
    the second, whatever the texts. *)
Theorem parse_notes_app (a b : string) :
  parse_notes (a ++ String RECORD_SEPARATOR "" ++ b)
  = (parse_notes a ++ parse_notes b)%list.
Proof. apply parse_notes_split. Qed.

Lemma strip_clean (sep : ascii) (f : string) :
  Str.contains sep f = false -> Str.contains sep (Str.strip f) = false.
Proof. apply strip_existsb. Qed.

Lemma parse_record_clean (record : string) :
  Str.contains RECORD_SEPARATOR record = false ->
  Forall (fun note => Forall clean_field (note_fields note)) (parse_record record).
Proof.
  intros Hrs. unfold parse_record.
  destruct (negb (Str.truthy (Str.strip record))); [constructor|].
  pose proof (split_on_no_sep FIELD_SEPARATOR record) as Hfs.
  pose proof (split_on_pieces FIELD_SEPARATOR (Chars.just RECORD_SEPARATOR)
                record Hrs) as Hr.
  unfold split. destruct (Fs.split_on FIELD_SEPARATOR record)
    as [|f1 [|f2 [|f3 [|f4 more]]]]; try constructor; [|constructor].
  assert (Hclean : forall f,
             Str.contains FIELD_SEPARATOR f = false ->
             Str.existsb (Chars.just RECORD_SEPARATOR) f = false ->
             clean_field (Str.strip f)).
  { intros f H1 H2. repeat split.
    - apply strip_idem.
    - now apply strip_clean.
    - now apply strip_clean. }
  inversion Hfs as [|? ? A1 Hfs1]; subst. inversion Hfs1 as [|? ? A2 Hfs2]; subst.
  inversion Hfs2 as [|? ? A3 Hfs3]; subst. inversion Hfs3 as [|? ? A4 _]; subst.
  inversion Hr as [|? ? B1 Hr1]; subst. inversion Hr1 as [|? ? B2 Hr2]; subst.
  inversion Hr2 as [|? ? B3 Hr3]; subst. inversion Hr3 as [|? ? B4 _]; subst.
  unfold note_fields. cbn [folder title created body_html].
  repeat (constructor; [now apply Hclean|]). constructor.
Qed.

(** Every field of every parsed note is trimmed and holds neither
    separator. *)
Theorem parse_notes_fields_clean (raw : string) :
  Forall (fun note => Forall clean_field (note_fields note)) (parse_notes raw).
Proof.
  rewrite parse_notes_flat. apply Forall_flat_map.
  pose proof (split_on_no_sep RECORD_SEPARATOR raw) as H. unfold split.
  revert H. apply Forall_impl. intros record. apply parse_record_clean.
Qed.

Lemma lstrip_ink :
  forall s, Str.existsb ink s = true ->
            exists c t, Str.lstrip s = String c t /\ Chars.isspace c = false.
Proof.
  induction s as [|c s IH]; intros H; [discriminate|].
  cbn [Str.existsb] in H. cbn [Str.lstrip].
  destruct (Chars.isspace c) eqn:E.
  - unfold ink at 1 in H. unfold Chars.neg in H. rewrite E in H. now apply IH.
  - now exists c, s.
Qed.

(** A text with a character that is not white space is not blank. *)
Lemma strip_truthy (s : string) :
  Str.existsb ink s = true -> Str.truthy (Str.strip s) = true.
Proof.
  intros H. destruct (lstrip_ink s H) as (c & t & E & Hc).
  unfold Str.strip, Str.rstrip. rewrite E. cbn [Str.rstrip_of].
  destruct (Str.rstrip_of Chars.isspace t); [now rewrite Hc | reflexivity].
Qed.

Lemma stripped_ink (f : string) :
  Str.strip f = f -> Str.existsb ink f = negb (String.eqb f "").
Proof.
  intros E. assert (H : no_leading_space f).
  { rewrite <- E. unfold Str.strip, Str.rstrip.
    apply rstrip_of_no_leading_space, lstrip_no_leading_space. }
  destruct f as [|c f]; [reflexivity|]. simpl in H.
  cbn [Str.existsb]. unfold ink at 1, Chars.neg. now rewrite H.
Qed.

Lemma record_text_split (note : NoteRecord) :
  Forall clean_field (note_fields note) ->
  split (record_text note) FIELD_SEPARATOR = note_fields note
  /\ Str.contains RECORD_SEPARATOR (record_text note) = false.
Proof.
  intros H. unfold note_fields in *.
  inversion H as [|? ? (S1 & R1 & F1) H1]; subst.
  inversion H1 as [|? ? (S2 & R2 & F2) H2]; subst.
  inversion H2 as [|? ? (S3 & R3 & F3) H3]; subst.
  inversion H3 as [|? ? (S4 & R4 & F4) _]; subst.
  unfold record_text, split. cbn [append]. split.
  - rewrite !split_on_sep_app, !split_on_plain by assumption. reflexivity.
  - unfold Str.contains in *.
    rewrite existsb_app, R1. cbn [Str.existsb orb].
    rewrite existsb_app, R2. cbn [Str.existsb orb].
    rewrite existsb_app, R3. cbn [Str.existsb orb].
    rewrite R4. reflexivity.
Qed.

Lemma record_text_ink (note : NoteRecord) :
  Forall clean_field (note_fields note) ->
  note_fields note <> [""; ""; ""; ""] ->
  Str.existsb ink (record_text note) = true.
Proof.
  intros H Hne. unfold note_fields in *.
  inversion H as [|? ? (S1 & _) H1]; subst.
  inversion H1 as [|? ? (S2 & _) H2]; subst.
  inversion H2 as [|? ? (S3 & _) H3]; subst.
  inversion H3 as [|? ? (S4 & _) _]; subst.
  unfold record_text. cbn [append].
  rewrite existsb_app. cbn [Str.existsb].
  rewrite existsb_app. cbn [Str.existsb].
  rewrite existsb_app. cbn [Str.existsb].
  rewrite !stripped_ink by assumption.
  destruct (String.eqb_spec (folder note) ""); [|reflexivity].
  destruct (String.eqb_spec (title note) ""); [|now rewrite !orb_true_r].
  destruct (String.eqb_spec (created note) ""); [|now rewrite !orb_true_r].
  destruct (String.eqb_spec (body_html note) ""); [|now rewrite !orb_true_r].
  exfalso. apply Hne. congruence.
Qed.

Lemma parse_record_text (note : NoteRecord) :
  Forall clean_field (note_fields note) ->
  note_fields note <> [""; ""; ""; ""] ->
  parse_notes (record_text note) = [note].
Proof.
  intros H Hne. destruct (record_text_split note H) as [Hsplit Hrs].
  rewrite parse_notes_flat. unfold split at 1.
  rewrite (split_on_plain _ _ Hrs). cbn [flat_map]. rewrite app_nil_r.
  unfold parse_record. rewrite (strip_truthy _ (record_text_ink note H Hne)).
  cbn [negb]. rewrite Hsplit. unfold note_fields in *.
  inversion H as [|? ? (S1 & _) H1]; subst.
  inversion H1 as [|? ? (S2 & _) H2]; subst.
  inversion H2 as [|? ? (S3 & _) H3]; subst.
  inversion H3 as [|? ? (S4 & _) _]; subst.
  rewrite S1, S2, S3, S4. now destruct note.
Qed.

Lemma script_output_cons (note : NoteRecord) (rest : list NoteRecord) :
  script_output (note :: rest)
  = record_text note ++ String RECORD_SEPARATOR (script_output rest).
Proof.
  cbn [script_output]. unfold script_record, record_text.
  repeat (rewrite append_assoc; cbn [append]). reflexivity.
Qed.

(** Round trip: notes whose fields are trimmed and separator-free, and not
    all four empty, come back from the script's output unchanged and in
    order. *)
Theorem parse_notes_script_output (notes : list NoteRecord) :
  Forall (fun note => Forall clean_field (note_fields note)
                      /\ note_fields note <> [""; ""; ""; ""]) notes ->
  parse_notes (script_output notes) = notes.
Proof.
  induction notes as [|note rest IH]; intros H; [reflexivity|].
  inversion H as [|? ? (Hc & Hne) Hrest]; subst.
  rewrite script_output_cons, parse_notes_split.
  now rewrite (parse_record_text note Hc Hne), (IH Hrest).
Qed.

Lemma parse_notes_script_output_witness :
  parse_notes
    (script_output
       [mkNote "Inbox" "Client meeting" "2024-11-02" "<p>Send timeline</p>";
        mkNote "" "Untitled" "" ""])
  = [mkNote "Inbox" "Client meeting" "2024-11-02" "<p>Send timeline</p>";
     mkNote "" "Untitled" "" ""].
Proof.
  apply (parse_notes_script_output
           [mkNote "Inbox" "Client meeting" "2024-11-02" "<p>Send timeline</p>";
            mkNote "" "Untitled" "" ""]).
  repeat (constructor;
          [split; [repeat (constructor; [repeat split|]); constructor
                  | discriminate]|]).
  constructor.
Defined.

(** A note whose four fields are blank leaves no record behind: the
    parser drops it. *)
Theorem parse_notes_drops_blank (note : NoteRecord) (rest : list NoteRecord) :
  Forall (fun f => Str.existsb ink f = false) (note_fields note) ->
  parse_notes (script_output (note :: rest)) = parse_notes (script_output rest).
Proof.
  intros H. rewrite script_output_cons, parse_notes_split.
  replace (parse_notes (record_text note)) with (@nil NoteRecord); [reflexivity|].
  unfold note_fields in H.
  inversion H as [|? ? I1 H1]; subst. inversion H1 as [|? ? I2 H2]; subst.
  inversion H2 as [|? ? I3 H3]; subst. inversion H3 as [|? ? I4 _]; subst.
  assert (Hblank : Str.existsb ink (record_text note) = false).
  { unfold record_text. cbn [append].
    rewrite existsb_app, I1. cbn [Str.existsb orb].
    rewrite existsb_app, I2. cbn [Str.existsb orb].
    rewrite existsb_app, I3. cbn [Str.existsb orb].
    now rewrite I4. }
  rewrite parse_notes_flat.
  assert (Hall : forall records,
             Forall (fun r => Str.existsb ink r = false) records ->
             flat_map parse_record records = []).
  { induction records as [|r rs IHr]; intros Hr; [reflexivity|].
    inversion Hr as [|? ? Hr1 Hr2]; subst. cbn [flat_map].
    rewrite (IHr Hr2), app_nil_r. unfold parse_record.
    assert (Hs : Str.strip r = "").
    { pose proof (strip_existsb ink r Hr1) as Hs.
      pose proof (stripped_ink (Str.strip r) (strip_idem r)) as Hi.
      rewrite Hs in Hi. destruct (Str.strip r); [reflexivity | discriminate]. }
    now rewrite Hs. }
  symmetry. apply Hall. unfold split. now apply split_on_pieces.
Qed.

Lemma parse_notes_drops_blank_witness :
  parse_notes (script_output [mkNote " " "" "" "  "; mkNote "A" "b" "c" "d"])
  = [mkNote "A" "b" "c" "d"].
Proof.
  rewrite (parse_notes_drops_blank (mkNote " " "" "" "  ") [mkNote "A" "b" "c" "d"]).
  - reflexivity.
  - repeat (constructor; [reflexivity|]). constructor.
Defined.

(* ================================================================== *)
(** * Further properties: fetching, the command line, the web interface *)

(** [fetch_notes] never returns an empty list: it is the parsed output of a
    script that ran without error, or else the sample notes. *)
Theorem fetch_notes_fallback (p : process) :
  fetch_notes p <> []
  /\ (fetch_notes p = SAMPLE_NOTES
      \/ exists stdout stderr,
           p = Completed 0 stdout stderr
           /\ String.prefix "ERROR:" stdout = false
           /\ fetch_notes p = parse_notes stdout).
Proof.
  unfold fetch_notes, fetch_notes_try, run_applescript.
  destruct p as [rc out err|]; [|split; [discriminate | now left]].
  destruct (Z.eqb_spec rc 0) as [->|Hrc]; cbn [negb];
    [|split; [discriminate | now left]].
  destruct (String.prefix "ERROR:" out) eqn:Hp;
    [split; [discriminate | now left]|].
  destruct (parse_notes out) as [|n ns] eqn:Hn;
    [split; [discriminate | now left]|].
  split; [discriminate|]. right. exists out, err. auto.
Qed.

(** A dry run leaves the filesystem and the clock alone, whatever the note
    source answers. *)
Theorem main_dry_run_changes_nothing (args : Args) (p : process) (w : Fs.World) :
  dry_run args = true -> world (main args p w) = w.
Proof.
  intros Hdry. unfold main.
  destruct (run_applescript p) as [[msg|]|raw]; try reflexivity.
  destruct (parse_notes raw) as [|first rest]; [reflexivity|].
  now rewrite Hdry.
Qed.

Lemma main_dry_run_changes_nothing_witness :
  main (mkArgs ["notes-export"] "text" true)
    (Completed 0 (script_output [mkNote "Inbox" "Call mum" "2024-11-04" "<p>Sunday</p>"]) "")
    (fresh_world sample_clock)
  = mkRun Returned
      [ "Found 1 notes. Sample output:" ++ nl;
        "Call mum" ++ nl ++ "Inbox" ++ nl ++ "2024-11-04" ++ nl ++ nl ++ "Sunday" ++ nl ]
      (fresh_world sample_clock).
Proof.
  pose proof (main_dry_run_changes_nothing
                (mkArgs ["notes-export"] "text" true)
                (Completed 0
                   (script_output
                      [mkNote "Inbox" "Call mum" "2024-11-04" "<p>Sunday</p>"]) "")
                (fresh_world sample_clock) eq_refl) as H.
  destruct (main _ _ _) as [e pr wd] eqn:E. cbn [world] in H. subst wd.
  rewrite <- E. reflexivity.
Defined.

(** Where [fetch_notes] falls back on the sample notes, the command line
    does not: it ends with an exception, prints nothing and writes
    nothing. *)
Theorem main_never_falls_back (args : Args) (p : process) (w : Fs.World)
  (e : SourceError) :
  fetch_notes_try p = inl e ->
  fetch_notes p = SAMPLE_NOTES
  /\ (exists e', exit (main args p w) = RaisedSource e')
  /\ printed (main args p w) = []
  /\ world (main args p w) = w.
Proof.
  intros Htry. split.
  - unfold fetch_notes. rewrite Htry. now destruct e.
  - unfold fetch_notes_try in Htry. unfold main.
    destruct (run_applescript p) as [[msg|]|raw].
    + split; [eexists; reflexivity | split; reflexivity].
    + split; [eexists; reflexivity | split; reflexivity].
    + destruct (parse_notes raw) as [|first rest]; [|discriminate].
      split; [eexists; reflexivity | split; reflexivity].
Qed.

Lemma main_never_falls_back_witness :
  fetch_notes (Completed 1 "" "execution error: Not authorized") = SAMPLE_NOTES
  /\ main (mkArgs ["notes-export"] "markdown" false)
       (Completed 1 "" "execution error: Not authorized") (fresh_world sample_clock)
     = mkRun (RaisedSource
                (NotesExportError
                   "Unable to read Notes: execution error: Not authorized"))
         [] (fresh_world sample_clock).
Proof.
  destruct (main_never_falls_back (mkArgs ["notes-export"] "markdown" false)
              (Completed 1 "" "execution error: Not authorized")
              (fresh_world sample_clock)
              (NotesExportError "execution error: Not authorized") eq_refl)
    as (Hf & _ & _ & _).
  split; [exact Hf | reflexivity].
Defined.





(* ================================================================== *)
(** * Further properties: classifier and aggregator *)

Lemma max_from_in (rest : list (string * nat)) (best : string * nat) :
  In (max_from best rest) (best :: rest).
Proof.
  destruct (max_from_first_max rest best) as (l1 & l2 & E & _).
  rewrite E. apply in_or_app. right. now left.
Qed.

(** The suggested name is never empty: it is a folder of the keyword table,
    the note's own folder, or "Uncategorized". *)
Theorem suggest_folder_name_range (note : NoteRecord) (knownFolders : list string) :
  name (suggest_folder note knownFolders) <> ""
  /\ (In (name (suggest_folder note knownFolders))
        ["Work"; "Personal"; "Finance"; "Ideas"; "Journal"]
      \/ name (suggest_folder note knownFolders) = folder note
      \/ name (suggest_folder note knownFolders) = "Uncategorized").
Proof.
  assert (Hor : Str.or_else (folder note) "Uncategorized" <> ""
                /\ (Str.or_else (folder note) "Uncategorized" = folder note
                    \/ Str.or_else (folder note) "Uncategorized" = "Uncategorized")).
  { unfold Str.or_else. destruct (folder note); simpl; split; auto; discriminate. }
  unfold suggest_folder. fold (note_tokens note).
  destruct (note_tokens note) as [|t ts]; [cbn [name]; intuition|].
  rewrite (score_tokens_hits keyword_map (t :: ts) keyword_map_NoDup).
  set (scores := List.map _ keyword_map).
  assert (Hkeys : List.map fst scores
                  = ["Work"; "Personal"; "Finance"; "Ideas"; "Journal"])
    by reflexivity.
  destruct scores as [|first rest] eqn:Hs; [discriminate|].
  cbn [max_item]. pose proof (max_from_in rest first) as Hin.
  destruct (max_from first rest) as [bf bs].
  apply (in_map fst) in Hin. rewrite Hkeys in Hin. cbn [fst] in Hin.
  destruct (bs =? 0)%nat.
  - destruct (Str.mem _ knownFolders); cbn [name]; [intuition|].
    split; [discriminate | auto].
  - cbn [name]. split; [|now left].
    simpl in Hin. intuition (subst; discriminate).
Qed.

Lemma insert_by_sorted {A} (key : A -> string) (x : A) :
  forall xs,
    Sorted (fun a b => ascending (key a) (key b)) xs ->
    Sorted (fun a b => ascending (key a) (key b)) (insert_by key x xs).
Proof.
  induction xs as [|y ys IH]; intros Hs; cbn [insert_by].
  - repeat constructor.
  - destruct (String.leb (key x) (key y)) eqn:E.
    + constructor; [exact Hs | constructor; exact E].
    + inversion Hs as [|? ? Hys Hhd]; subst.
      constructor; [now apply IH|].
      assert (Hyx : ascending (key y) (key x)).
      { destruct (String.leb_total (key x) (key y)) as [H|H];
          [congruence | exact H]. }
      destruct ys as [|z zs]; cbn [insert_by].
      * constructor. exact Hyx.
      * destruct (String.leb (key x) (key z)); constructor;
          [exact Hyx | now inversion Hhd].
Qed.

(** [sorted] leaves its result in ascending order. *)
Lemma sorted_by_sorted {A} (key : A -> string) :
  forall xs, Sorted (fun a b => ascending (key a) (key b)) (sorted_by key xs).
Proof.
  induction xs as [|x xs IH]; cbn [sorted_by fold_right]; [constructor|].
  now apply insert_by_sorted.
Qed.

(** The known folders of the listing and of the assessment: in ascending
    order, without repetition, exactly the non-empty folders of the notes. *)
Theorem known_folders_of_spec (notes : list NoteRecord) :
  Sorted ascending (known_folders_of notes)
  /\ NoDup (known_folders_of notes)
  /\ forall f, In f (known_folders_of notes)
               <-> f <> "" /\ In f (List.map folder notes).
Proof.
  unfold known_folders_of.
  pose proof (sorted_by_perm (fun s : string => s) (folder_set notes)) as Hperm.
  split; [apply (sorted_by_sorted (fun s : string => s))|]. split.
  - apply (Permutation_NoDup (Permutation_sym Hperm)). apply NoDup_nodup.
  - intros f. split.
    + intros Hin. apply (Permutation_in _ Hperm) in Hin.
      unfold folder_set in Hin. apply nodup_In, filter_In in Hin as [Hin Ht].
      split; [|exact Hin]. intros ->. discriminate.
    + intros [Hne Hin]. apply (Permutation_in _ (Permutation_sym Hperm)).
      unfold folder_set. apply nodup_In, filter_In. split; [exact Hin|].
      destruct f; [contradiction | reflexivity].
Qed.

Lemma confidences_of_setdefault (k k' : string) (v : Q) :
  forall counts,
    confidences_of k (setdefault_append k' v counts)
    = if String.eqb k' k then (confidences_of k counts ++ [v])%list
      else confidences_of k counts.
Proof.
  unfold confidences_of.
  induction counts as [|[k0 vs] rest IH]; cbn [setdefault_append find fst].
  - destruct (String.eqb k' k); reflexivity.
  - destruct (String.eqb_spec k' k0) as [->|Hne]; cbn [find fst snd].
    + destruct (String.eqb k0 k); reflexivity.
    + destruct (String.eqb_spec k0 k) as [->|Hk].
      * destruct (String.eqb_spec k' k); [contradiction | reflexivity].
      * exact IH.
Qed.

Lemma confidences_of_fold (name_of : NoteRecord -> string)
  (conf_of : NoteRecord -> Q) (k : string) :
  forall notes counts,
    confidences_of k
      (fold_left (fun counts note =>
                    setdefault_append (name_of note) (conf_of note) counts)
         notes counts)
    = (confidences_of k counts
       ++ List.map conf_of
            (filter (fun note => String.eqb (name_of note) k) notes))%list.
Proof.
  induction notes as [|note notes IH]; intros counts; cbn [fold_left filter].
  - now rewrite app_nil_r.
  - rewrite IH, confidences_of_setdefault.
    destruct (String.eqb (name_of note) k); [|reflexivity].
    cbn [List.map]. now rewrite <- app_assoc.
Qed.

Lemma confidences_of_in (k : string) (vs : list Q) :
  forall counts,
    NoDup (List.map fst counts) -> In (k, vs) counts ->
    confidences_of k counts = vs.
Proof.
  unfold confidences_of.
  induction counts as [|[k0 vs0] rest IH]; intros Hnd Hin; [contradiction|].
  inversion Hnd as [|? ? Hnot Hnd']; subst. cbn [find fst].
  destruct Hin as [E|Hin].
  - injection E as -> ->. now rewrite String.eqb_refl.
  - destruct (String.eqb_spec k0 k) as [->|_]; [|now apply IH].
    exfalso. apply Hnot. now apply (in_map fst) in Hin.
Qed.

Lemma fold_setdefault_keys (name_of : NoteRecord -> string)
  (conf_of : NoteRecord -> Q) :
  forall notes counts note,
    In note notes ->
    In (name_of note)
      (List.map fst
         (fold_left (fun counts note =>
                       setdefault_append (name_of note) (conf_of note) counts)
            notes counts)).
Proof.
  assert (Hkeep : forall notes counts k,
             In k (List.map fst counts) ->
             In k (List.map fst
                     (fold_left (fun counts note =>
                                   setdefault_append (name_of note) (conf_of note)
                                     counts) notes counts))).
  { induction notes as [|n notes IH]; intros counts k Hk; [exact Hk|].
    cbn [fold_left]. apply IH. apply setdefault_append_keys. now right. }
  induction notes as [|n notes IH]; intros counts note Hin; [contradiction|].
  cbn [fold_left]. destruct Hin as [->|Hin]; [|now apply IH].
  apply Hkeep. apply setdefault_append_keys. now left.
Qed.

Lemma sorted_map_key {A B} (key : A -> string) (key' : B -> string)
  (g : A -> B) :
  (forall a, key' (g a) = key a) ->
  forall l,
    Sorted (fun a b => ascending (key a) (key b)) l ->
    Sorted (fun a b => ascending (key' a) (key' b)) (List.map g l).
Proof.
  intros Hk. induction 1 as [|item l Hl IHl Hhd]; [constructor|].
  cbn [List.map]. constructor; [exact IHl|].
  destruct Hhd; cbn [List.map]; constructor. now rewrite !Hk.
Qed.

Lemma assess_groups (notes : list NoteRecord) :
  Sorted (fun a b => ascending (bucket_folder a) (bucket_folder b))
    (buckets (assess_suggestions notes))
  /\ (forall b,
         In b (buckets (assess_suggestions notes)) ->
         count b
         = List.length
             (filed_under (known_folders_of notes) (bucket_folder b) notes))
  /\ (forall note,
         In note notes ->
         exists b,
           In b (buckets (assess_suggestions notes))
           /\ bucket_folder b
              = name (suggest_folder note (known_folders_of notes))).
Proof.
  unfold assess_suggestions. fold (known_folders_of notes).
  set (known := known_folders_of notes).
  set (name_of := fun note => name (suggest_folder note known)).
  set (conf_of := fun note => confidence (suggest_folder note known)).
  set (counts := fold_left _ notes []).
  cbn [buckets].
  set (mk := fun item : string * list Q => mkBucket (fst item) _ _).
  assert (Hok : counts_ok counts (List.length notes + 0)).
  { apply (fold_setdefault_invariant name_of conf_of). repeat split; constructor. }
  destruct Hok as (Hnd & _ & _).
  pose proof (sorted_by_perm fst counts) as Hperm.
  split; [|split].
  - apply (sorted_map_key fst); [reflexivity | apply sorted_by_sorted].
  - intros b Hb. apply in_map_iff in Hb as ([k vs] & <- & Hin).
    apply (Permutation_in _ Hperm) in Hin. cbn [count bucket_folder mk fst snd].
    rewrite <- (confidences_of_in k vs counts Hnd Hin).
    change (confidences_of k counts)
      with (confidences_of k
              (fold_left (fun counts note =>
                            setdefault_append (name_of note) (conf_of note) counts)
                 notes [])).
    rewrite (confidences_of_fold name_of conf_of k notes []).
    cbn [confidences_of find app]. now rewrite length_map.
  - intros note Hin.
    pose proof (fold_setdefault_keys name_of conf_of notes [] note Hin) as Hk.
    fold counts in Hk. apply in_map_iff in Hk as (item & Ek & Hitem).
    exists (mk item). split.
    + apply in_map. apply (Permutation_in _ (Permutation_sym Hperm)). exact Hitem.
    + exact Ek.
Qed.

(** The buckets of the assessment come in ascending order of folder name;
    a bucket counts exactly the notes that the classifier files under its
    folder, and every note has its bucket. *)
Theorem assess_suggestions_groups (notes : list NoteRecord) :
  Sorted (fun a b => ascending (bucket_folder a) (bucket_folder b))
    (buckets (assess_suggestions notes))
  /\ (forall b,
         In b (buckets (assess_suggestions notes)) ->
         count b
         = List.length
             (filed_under (known_folders_of notes) (bucket_folder b) notes))
  /\ (forall note,
         In note notes ->
         exists b,
           In b (buckets (assess_suggestions notes))
           /\ bucket_folder b
              = name (suggest_folder note (known_folders_of notes))).
Proof. apply assess_groups. Qed.

(* ================================================================== *)
(** * Further properties: renderer and exporter *)

(** A format other than "html" and "text" is rendered as markdown: the
    renderer rejects nothing. *)
Theorem format_note_unknown_format (record : NoteRecord) (fmt : string) :
  fmt <> "html" -> fmt <> "text" ->
  format_note record fmt = format_note record "markdown".
Proof.
  intros Hh Ht. unfold format_note.
  destruct (String.eqb_spec fmt "html"); [contradiction|].
  destruct (String.eqb_spec fmt "text"); [contradiction|]. reflexivity.
Qed.

Lemma format_note_unknown_format_witness :
  format_note (mkNote "Inbox" "Call mum" "2024-11-04" "<p>Sunday</p>") "pdf"
  = "# Call mum" ++ nl ++ nl ++ "Folder: Inbox" ++ nl ++ "Created: 2024-11-04"
    ++ nl ++ nl ++ "Sunday" ++ nl.
Proof.
  rewrite (format_note_unknown_format
             (mkNote "Inbox" "Call mum" "2024-11-04" "<p>Sunday</p>") "pdf");
    [reflexivity | discriminate | discriminate].
Defined.





(** No title, folder or override leads out of the output directory: with a
    format without [/], every path of a completed export lies exactly two
    components below it, in a directory named by a slug. *)
Theorem export_notes_confined (notes : list NoteRecord) (out : Fs.Path)
  (fmt : string) (ov : option (list (string * string))) (w : Fs.World)
  (paths : list Fs.Path) (w' : Fs.World) :
  Str.contains "/" fmt = false ->
  export_notes notes out fmt ov w = (Fs.Ok paths, w') ->
  Forall (fun p => exists a b,
              p = (out ++ [a; b])%list
              /\ a <> "" /\ Str.forallb slug_char a = true
              /\ b <> "" /\ Str.contains "/" b = false) paths.
Proof.
  intros Hfmt Hrun.
  destruct (export_notes_inv _ _ _ _ _ _ _ Hrun) as (-> & _ & _).
  apply Forall_map, Forall_forall. intros note _. unfold run_timestamp.
  rewrite (destination_parts _ _ _ _ _ Hfmt (strftime_no_slash _)).
  destruct (slugify_chars (effective_folder ov note)) as [Hc Hne].
  destruct (slugify_chars (title note)) as [Hc' Hne'].
  eexists _, _. split; [reflexivity|]. repeat split; auto.
  - destruct (slugify (title note)); [contradiction | discriminate].
  - pose proof (slug_no_slash _ Hc') as Hs.
    pose proof (strftime_no_slash (Fs.clock w (Fs.reads w))) as Ht.
    unfold Str.contains in *.
    rewrite existsb_app, Hs. cbn [orb append Str.existsb].
    rewrite existsb_app, Ht. cbn [orb Str.existsb]. exact Hfmt.
Qed.

Lemma export_notes_confined_witness :
  fst (export_notes [mkNote "../../etc" "../passwd" "2024-11-04" "<p>x</p>"]
         ["export"] "text" None (fresh_world sample_clock))
  = Fs.Ok [["export"; "etc"; "passwd-20241102-101500.text"]].
Proof.
  pose proof (export_notes_confined
                [mkNote "../../etc" "../passwd" "2024-11-04" "<p>x</p>"]
                ["export"] "text" None (fresh_world sample_clock)) as H.
  destruct (export_notes _ _ _ _ _) as [r w'] eqn:E.
  destruct r as [paths|e]; [|vm_compute in E; discriminate].
  specialize (H paths w' eq_refl eq_refl). clear H.
  rewrite <- E. reflexivity.
Defined.

Lemma mkdir_blocked (content : string) :
  forall comps base w,
    comps <> [] ->
    (forall pre suf, comps = (pre ++ suf)%list -> pre <> [] -> suf <> [] ->
                     Fs.nodes w (base ++ pre)%list = Some Fs.Dir) ->
    Fs.nodes w (base ++ comps)%list = Some (Fs.File content) ->
    Fs.mkdir_from base comps w = (Fs.Raise Fs.FileExistsError, w).
Proof.
  induction comps as [|c rest IH]; intros base w Hne Hdirs Hfile; [contradiction|].
  cbn [Fs.mkdir_from]. rewrite node_at_snoc.
  destruct rest as [|c' rest].
  - now rewrite Hfile.
  - rewrite (Hdirs [c] (c' :: rest)) by (reflexivity || discriminate).
    apply IH.
    + discriminate.
    + intros pre suf E Hp Hs. rewrite <- app_assoc.
      apply (Hdirs (c :: pre) suf); [now rewrite E | discriminate | exact Hs].
    + now rewrite <- app_assoc.
Qed.

(** When the output directory is a regular file (below existing
    directories) the export raises [FileExistsError] at once: the clock is
    not read and nothing is written. *)
Theorem export_notes_blocked_by_file (notes : list NoteRecord) (out : Fs.Path)
  (fmt : string) (ov : option (list (string * string))) (w : Fs.World)
  (content : string) :
  (forall pre suf, out = (pre ++ suf)%list -> pre <> [] -> suf <> [] ->
                   Fs.nodes w pre = Some Fs.Dir) ->
  Fs.nodes w out = Some (Fs.File content) ->
  out <> [] ->
  export_notes notes out fmt ov w = (Fs.Raise Fs.FileExistsError, w).
Proof.
  intros Hdirs Hfile Hne. unfold export_notes, Fs.bind, Fs.mkdir.
  now rewrite (mkdir_blocked content out [] w Hne Hdirs Hfile).
Qed.

Lemma export_notes_blocked_by_file_witness :
  fst (export_notes SAMPLE_NOTES ["home"; "notes"] "text" None
         (Fs.put ["home"; "notes"] (Fs.File "not a directory")
            (Fs.put ["home"] Fs.Dir (fresh_world sample_clock))))
  = Fs.Raise Fs.FileExistsError.
Proof.
  rewrite (export_notes_blocked_by_file SAMPLE_NOTES ["home"; "notes"] "text" None
             (Fs.put ["home"; "notes"] (Fs.File "not a directory")
                (Fs.put ["home"] Fs.Dir (fresh_world sample_clock)))
             "not a directory").
  - reflexivity.
  - intros pre suf E Hp Hs.
    destruct pre as [|a [|b pre]]; [contradiction| |].
    + injection E as <- _. reflexivity.
    + injection E as _ _ E. destruct pre; destruct suf; try discriminate E.
      contradiction.
  - reflexivity.
  - discriminate.
Defined.

Lemma append_inv_same_length :
  forall a b x y,
    a ++ x = b ++ y -> String.length x = String.length y -> x = y.
Proof.
  induction a as [|c a IH]; intros [|d b] x y E Hlen; cbn [append] in E.
  - exact E.
  - apply (f_equal String.length) in E. cbn [String.length] in E.
    rewrite length_append in E. lia.
  - apply (f_equal String.length) in E. cbn [String.length] in E.
    rewrite length_append in E. lia.
  - injection E as _ E. exact (IH _ _ _ E Hlen).
Qed.

Lemma zeros_length (n : nat) : String.length (Fs.zeros n) = n.
Proof. induction n; simpl; auto. Qed.

Lemma of_nat_width (width bound : nat) :
  forallb (fun n => (String.length (Str.of_nat n) <=? width)%nat) (seq 0 bound)
  = true ->
  forall n, n < bound -> String.length (Fs.padded width n) = width.
Proof.
  intros Hall n Hn. rewrite forallb_forall in Hall.
  assert (Hin : In n (seq 0 bound)) by (apply in_seq; lia).
  apply Hall, Nat.leb_le in Hin.
  unfold Fs.padded. rewrite length_append, zeros_length. lia.
Qed.

(** A plausible clock reading is stamped with fifteen characters. *)
Lemma strftime_length (t : Fs.datetime) :
  plausible t -> String.length (Fs.strftime t) = 15.
Proof.
  intros (Hy & Hm & Hd & Hh & Hmi & Hs).
  assert (H2 : forall n, n < 100 -> String.length (Fs.padded 2 n) = 2)
    by (apply of_nat_width; vm_compute; reflexivity).
  assert (H4 : forall n, n < 100 * 100 -> String.length (Fs.padded 4 n) = 4)
    by (apply of_nat_width; vm_compute; reflexivity).
  unfold Fs.strftime. rewrite !length_append.
  rewrite (H4 _ Hy), (H2 _ Hm), (H2 _ Hd), (H2 _ Hh), (H2 _ Hmi), (H2 _ Hs).
  reflexivity.
Qed.

(** Two exports with different time stamps never share a path, whatever
    their notes and overrides: a later run cannot overwrite the files of an
    earlier one. *)
Theorem export_runs_do_not_collide (out : Fs.Path) (fmt : string)
  (t1 t2 : Fs.datetime) (ov1 ov2 : option (list (string * string)))
  (note1 note2 : NoteRecord) :
  plausible t1 -> plausible t2 ->
  Fs.strftime t1 <> Fs.strftime t2 ->
  Str.contains "/" fmt = false ->
  destination out fmt (Fs.strftime t1) ov1 note1
  <> destination out fmt (Fs.strftime t2) ov2 note2.
Proof.
  intros Hp1 Hp2 Hdiff Hfmt E.
  rewrite !(destination_parts _ _ _ _ _ Hfmt (strftime_no_slash _)) in E.
  apply app_inv_head in E. injection E as _ E.
  assert (Hshape : forall s ts,
             s ++ String "-" (ts ++ String "." fmt)
             = ((s ++ "-") ++ ts) ++ String "." fmt)
    by (intros; now rewrite !append_assoc).
  rewrite !Hshape in E. apply append_inv_tail in E.
  apply append_inv_same_length in E; [contradiction|].
  now rewrite !strftime_length.
Qed.

Lemma export_runs_do_not_collide_witness :
  destination ["export"] "text" (Fs.strftime (sample_clock 0)) None
    (mkNote "Inbox" "Call mum" "2024-11-04" "<p>Sunday</p>")
  <> destination ["export"] "text" (Fs.strftime (sample_clock 1)) None
       (mkNote "Inbox" "Call mum" "2024-11-04" "<p>Sunday</p>").
Proof.
  apply (export_runs_do_not_collide ["export"] "text" (sample_clock 0)
           (sample_clock 1) None None).
  - unfold plausible. simpl. lia.
  - unfold plausible. simpl. lia.
  - vm_compute. discriminate.
  - reflexivity.
Defined.

(* ================================================================== *)
(** * Further properties: the normalizer *)

Lemma strip_html_style_block_witness :
  strip_html ("<style" ++ " type='text/css'" ++ ">" ++ "p { color: red }"
              ++ "</style>" ++ "<p>Hello</p>")
  = "Hello".
Proof.
  rewrite (strip_html_style_block " type='text/css'" "p { color: red }"
             "<p>Hello</p>"); reflexivity.
Defined.

Lemma no_lt_no_tag :
  forall s, Str.contains "<" s = false -> has_tag s = false.
Proof.
  unfold Str.contains. induction s as [|c s IH]; intros H; [reflexivity|].
  cbn [Str.existsb] in H. apply orb_false_iff in H as [Hc H].
  rewrite has_tag_step, (IH H), orb_false_r.
  destruct s; cbn [tag_at]; [reflexivity | now rewrite Hc].
Qed.

(** A pattern that only matches where a tag begins passes over text
    without [<]. *)
Lemma sub_loop_prefix (r : Re.regex) (repl : string -> string) (rest : string) :
  (forall s res, Re.match_at r s = Some res -> tag_at s = true) ->
  forall a,
    Str.contains "<" a = false ->
    Re.sub_loop r repl 0 (a ++ rest) = a ++ Re.sub_loop r repl 0 rest.
Proof.
  intros Hr. unfold Str.contains.
  induction a as [|c a IH]; intros H; [reflexivity|].
  cbn [Str.existsb] in H. apply orb_false_iff in H as [Hc H].
  cbn [append Re.sub_loop]. unfold Re.match_len.
  destruct (Re.match_at r (String c (a ++ rest))) eqn:E.
  - apply Hr in E. destruct (a ++ rest); cbn [tag_at] in E;
      [discriminate | rewrite Hc in E; discriminate].
  - now rewrite (IH H).
Qed.

Lemma sub_loop_plain (r : Re.regex) (repl : string -> string) (s : string) :
  (forall s res, Re.match_at r s = Some res -> tag_at s = true) ->
  Str.contains "<" s = false ->
  Re.sub_loop r repl 0 s = s.
Proof.
  intros Hr Hs. apply sub_loop_no_match.
  now apply (no_tag_no_match r Hr), no_lt_no_tag.
Qed.

(** A [<] at which the pattern does not match stays, with the [<]-free text
    around it. *)
Lemma sub_loop_miss (r : Re.regex) (repl : string -> string) (a m b : string) :
  (forall s res, Re.match_at r s = Some res -> tag_at s = true) ->
  Re.match_at r (String "<" (m ++ b)) = None ->
  Str.contains "<" a = false -> Str.contains "<" m = false ->
  Str.contains "<" b = false ->
  Re.sub_loop r repl 0 (a ++ String "<" (m ++ b)) = a ++ String "<" (m ++ b).
Proof.
  intros Hr Hmiss Ha Hm Hb. rewrite (sub_loop_prefix r repl _ Hr a Ha).
  cbn [Re.sub_loop]. unfold Re.match_len. rewrite Hmiss.
  rewrite (sub_loop_plain r repl (m ++ b) Hr); [reflexivity|].
  unfold Str.contains in *. now rewrite existsb_app, Hm, Hb.
Qed.

(** A [<] at which the pattern matches the marker [<m] is replaced, with
    the [<]-free text around it kept. *)
Lemma sub_loop_hit (r : Re.regex) (repl : string) (a m b : string) :
  (forall s res, Re.match_at r s = Some res -> tag_at s = true) ->
  Re.match_at r (String "<" (m ++ b)) = Some b ->
  Str.contains "<" a = false -> Str.contains "<" b = false ->
  Re.sub_loop r (fun _ => repl) 0 (a ++ String "<" (m ++ b)) = a ++ repl ++ b.
Proof.
  intros Hr Hhit Ha Hb. rewrite (sub_loop_prefix r _ _ Hr a Ha).
  cbn [Re.sub_loop]. unfold Re.match_len. rewrite Hhit.
  change (String.length (String "<" (m ++ b)))
    with (S (String.length (m ++ b))).
  rewrite length_append.
  replace (S (String.length m + String.length b) - String.length b)
    with (S (String.length m)) by lia.
  now rewrite sub_loop_skip, (sub_loop_plain r _ b Hr Hb).
Qed.

Lemma tag_re_is_tag (s res : string) :
  Re.match_at tag_re s = Some res -> tag_at s = true.
Proof. intros H. rewrite <- match_at_tag_re. now rewrite H. Qed.

Lemma style_is_tag (s res : string) :
  Re.match_at (block_re "style") s = Some res -> tag_at s = true.
Proof. now apply block_re_is_tag. Qed.

Lemma script_is_tag (s res : string) :
  Re.match_at (block_re "script") s = Some res -> tag_at s = true.
Proof. now apply block_re_is_tag. Qed.

Lemma contains_app (c : ascii) (a b : string) :
  Str.contains c (a ++ b) = Str.contains c a || Str.contains c b.
Proof. apply existsb_app. Qed.

(** The longest run of white space is the first that [\s*] tries: when
    the continuation accepts what follows it, that is the match. *)
Lemma greedy_space_run (k : string -> option string) (t rest : string) :
  no_leading_space t ->
  k t = Some rest ->
  forall s,
    Str.forallb Chars.isspace s = true ->
    Re.greedy Chars.isspace k (s ++ t) = Some rest.
Proof.
  intros Ht Hk. induction s as [|c s IH]; intros Hs.
  - cbn [append]. destruct t as [|d t]; cbn [Re.greedy]; [exact Hk|].
    cbn [no_leading_space] in Ht. now rewrite Ht.
  - cbn [Str.forallb] in Hs. apply andb_true_iff in Hs as [Hc Hs].
    cbn [append Re.greedy]. now rewrite Hc, (IH Hs).
Qed.

Lemma space_not_lt (c : ascii) :
  Chars.isspace c = true -> Chars.just "<" c = false.
Proof.
  destruct c as [[] [] [] [] [] [] [] []]; simpl; intros H;
    try discriminate H; reflexivity.
Qed.

(** The pattern of the line break matches each of its spellings, whole. *)
Lemma br_re_match (c1 c2 : ascii) (space : string) (closed : bool) (b : string) :
  (c1 = "b"%char \/ c1 = "B"%char) -> (c2 = "r"%char \/ c2 = "R"%char) ->
  Str.forallb Chars.isspace space = true ->
  Re.match_at br_re
    (String "<" (String c1 (String c2 (space ++ (if closed then "/>" else ">")))
                 ++ b))
  = Some b.
Proof.
  intros H1 H2 Hs. unfold Re.match_at, br_re.
  cbn [append].
  assert (Hrun : forall rest,
             Re.run (Re.LitNoCase "<br")
               (Re.run (Re.Seq (Re.Star Chars.isspace)
                          (Re.Seq (Re.Opt (Re.LitNoCase "/")) (Re.LitNoCase ">")))
                  Some)
               (String "<" (String c1 (String c2 rest)))
             = Re.greedy Chars.isspace
                 (Re.run (Re.Seq (Re.Opt (Re.LitNoCase "/")) (Re.LitNoCase ">")) Some)
                 rest).
  { intros rest. destruct H1 as [-> | ->], H2 as [-> | ->]; reflexivity. }
  change (Re.run (Re.Seq (Re.LitNoCase "<br") ?r) Some ?s)
    with (Re.run (Re.LitNoCase "<br") (Re.run r Some) s).
  rewrite Hrun.
  replace ((space ++ (if closed then "/>" else ">")) ++ b)
    with (space ++ (if closed then "/>" else ">") ++ b)
    by (now rewrite append_assoc).
  apply greedy_space_run; [| |exact Hs]; destruct closed; reflexivity.
Qed.

(** Line breaks survive the normalizer.  Between texts without markup and
    references, every spelling of the break tag ([<br], white space or
    none, closed by [/>] or by [>], in either letter case) becomes one
    newline, and the end of a paragraph, in either letter case, two. *)
Theorem strip_html_line_breaks (a b : string) (c1 c2 c3 : ascii)
  (space : string) (closed : bool) :
  Str.contains "<" a = false -> Str.contains "&" a = false ->
  Str.contains "<" b = false -> Str.contains "&" b = false ->
  (c1 = "b"%char \/ c1 = "B"%char) ->
  (c2 = "r"%char \/ c2 = "R"%char) ->
  (c3 = "p"%char \/ c3 = "P"%char) ->
  Str.forallb Chars.isspace space = true ->
  strip_html (a ++ br_tag c1 c2 space closed ++ b) = Str.strip (a ++ nl ++ b)
  /\ strip_html (a ++ p_close_tag c3 ++ b) = Str.strip (a ++ nl ++ nl ++ b).
Proof.
  intros Ha Haa Hb Hba H1 H2 H3 Hs.
  assert (Hplain : forall t,
             Str.contains "<" t = false -> Str.contains "&" t = false ->
             Str.strip
               (Html.unescape
                  (Re.sub tag_re ""
                     (Re.sub p_close_re (nl ++ nl) t)))
             = Str.strip t).
  { intros t Ht Hta. unfold Re.sub, Re.sub_with.
    rewrite (sub_loop_plain p_close_re _ t p_close_re_is_tag Ht).
    rewrite (sub_loop_plain tag_re _ t tag_re_is_tag Ht).
    unfold Html.unescape. now rewrite Hta. }
  assert (Hno : forall c, Str.contains c a = false -> Str.contains c b = false ->
                          Str.contains c nl = false ->
                          Str.contains c (a ++ nl ++ b) = false).
  { intros c Hca Hcb Hcn. now rewrite !contains_app, Hca, Hcb, Hcn. }
  unfold strip_html, Re.sub, Re.sub_with in *. split.
  - set (m := String c1 (String c2 (space ++ (if closed then "/>" else ">")))).
    change (a ++ br_tag c1 c2 space closed ++ b) with (a ++ String "<" (m ++ b)).
    assert (Hm : Str.contains "<" m = false).
    { unfold m, Str.contains. cbn [Str.existsb]. rewrite existsb_app.
      rewrite (forallb_excludes Chars.isspace (Chars.just "<") space_not_lt space Hs).
      destruct H1 as [-> | ->], H2 as [-> | ->], closed; reflexivity. }
    assert (Hstyle : Re.match_at (block_re "style") (String "<" (m ++ b)) = None)
      by (unfold m; destruct H1 as [-> | ->]; reflexivity).
    assert (Hscript : Re.match_at (block_re "script") (String "<" (m ++ b)) = None)
      by (unfold m; destruct H1 as [-> | ->]; reflexivity).
    rewrite (sub_loop_miss (block_re "style") _ a m b style_is_tag Hstyle Ha Hm Hb).
    rewrite (sub_loop_miss (block_re "script") _ a m b script_is_tag Hscript Ha Hm Hb).
    rewrite (sub_loop_hit br_re nl a m b br_re_is_tag
               (br_re_match c1 c2 space closed b H1 H2 Hs) Ha Hb).
    apply Hplain; apply Hno; auto.
  - set (m := String "/" (String c3 ">")).
    change (a ++ p_close_tag c3 ++ b) with (a ++ String "<" (m ++ b)).
    assert (Hm : Str.contains "<" m = false)
      by (unfold m; destruct H3 as [-> | ->]; reflexivity).
    rewrite (sub_loop_miss (block_re "style") _ a m b style_is_tag eq_refl Ha Hm Hb).
    rewrite (sub_loop_miss (block_re "script") _ a m b script_is_tag eq_refl Ha Hm Hb).
    rewrite (sub_loop_miss br_re _ a m b br_re_is_tag eq_refl Ha Hm Hb).
    assert (Hhit : Re.match_at p_close_re (String "<" (m ++ b)) = Some b)
      by (unfold m; destruct H3 as [-> | ->]; reflexivity).
    rewrite (sub_loop_hit p_close_re (nl ++ nl) a m b p_close_re_is_tag Hhit Ha Hb).
    rewrite (sub_loop_plain tag_re _ _ tag_re_is_tag).
    + unfold Html.unescape.
      replace (Str.contains "&" (a ++ (nl ++ nl) ++ b)) with false.
      * cbn [negb]. now rewrite append_assoc.
      * symmetry. rewrite !contains_app, Haa, Hba. reflexivity.
    + rewrite !contains_app, Ha, Hb. reflexivity.
Qed.

Lemma strip_html_line_breaks_witness :
  strip_html ("Dear all," ++ "<Br  />" ++ "see you on Monday.")
  = "Dear all," ++ nl ++ "see you on Monday."
  /\ strip_html ("Dear all," ++ "</P>" ++ "see you on Monday.")
     = "Dear all," ++ nl ++ nl ++ "see you on Monday.".
Proof.
  destruct (strip_html_line_breaks "Dear all," "see you on Monday."
              "B" "r" "P" "  " true eq_refl eq_refl eq_refl eq_refl
              (or_intror eq_refl) (or_introl eq_refl) (or_intror eq_refl) eq_refl)
    as (Hbr & Hp).
  split.
  - etransitivity; [exact Hbr | reflexivity].
  - etransitivity; [exact Hp | reflexivity].
Defined.

(** The normalized text never begins or ends with white space. *)
Theorem strip_html_trimmed (x : string) :
  Str.lstrip (strip_html x) = strip_html x
  /\ Str.rstrip (strip_html x) = strip_html x.
Proof.
  unfold strip_html.
  set (text := Html.unescape _). unfold Str.strip, Str.rstrip. split.
  - apply lstrip_fixed, rstrip_of_no_leading_space, lstrip_no_leading_space.
  - apply rstrip_of_idem.
Qed.

(* ================================================================== *)
(** * Further properties: average confidence *)

Lemma confidence_of_unit (best_score token_count : nat) :
  unit_interval (confidence_of best_score token_count).
Proof.
  unfold unit_interval, confidence_of.
  destruct (Nat.eqb_spec best_score 0) as [E|E]; [split; discriminate|].
  rewrite py_min_Qmin, py_max_Qmax. split.
  - apply Q.min_glb; [discriminate|].
    apply Qle_shift_div_l.
    + apply Qlt_le_trans with (y := 3%Q); [reflexivity | apply Q.le_max_l].
    + rewrite Qmult_0_l. unfold Qnat, Qle. simpl. lia.
  - apply Q.le_min_l.
Qed.

Lemma suggestion_confidence_unit (note : NoteRecord) (known : list string) :
  unit_interval (confidence (suggest_folder note known)).
Proof.
  unfold suggest_folder. destruct (tokenize _) as [|t ts];
    [split; discriminate|].
  destruct (max_item _) as [[bf bs]|]; [|split; discriminate].
  destruct (bs =? 0)%nat; [destruct (Str.mem _ known)|];
    apply confidence_of_unit.
Qed.

Lemma Qnat_succ (n : nat) : (Qnat (S n) == Qnat n + 1)%Q.
Proof.
  unfold Qnat. rewrite Nat2Z.inj_succ, <- Z.add_1_r, inject_Z_plus. reflexivity.
Qed.

Lemma fold_Qplus_bounds :
  forall vs acc (k : nat),
    Forall unit_interval vs ->
    (0 <= acc /\ acc <= Qnat k)%Q ->
    (0 <= fold_left Qplus vs acc
     /\ fold_left Qplus vs acc <= Qnat (k + List.length vs))%Q.
Proof.
  induction vs as [|v vs IH]; intros acc k Hvs [H0 H1]; cbn [fold_left List.length].
  - now rewrite Nat.add_0_r.
  - inversion Hvs as [|? ? [Hv0 Hv1] Hvs']; subst.
    replace (k + S (List.length vs)) with (S k + List.length vs) by lia.
    apply IH; [exact Hvs'|]. rewrite Qnat_succ. split; lra.
Qed.

(** The mean of confidences between 0 and 1 lies between 0 and 1. *)
Lemma mean_unit (vs : list Q) :
  vs <> [] -> Forall unit_interval vs ->
  unit_interval (Qsum vs / Qnat (List.length vs)).
Proof.
  intros Hne Hvs. unfold Qsum.
  destruct (fold_Qplus_bounds vs 0%Q 0 Hvs) as [H0 H1];
    [split; [apply Qle_refl | discriminate]|].
  cbn [Nat.add] in H1.
  assert (Hpos : (0 < Qnat (List.length vs))%Q).
  { destruct vs; [contradiction|]. unfold Qnat, Qlt. simpl. lia. }
  split.
  - apply Qle_shift_div_l; [exact Hpos|]. now rewrite Qmult_0_l.
  - apply Qle_shift_div_r; [exact Hpos|]. now rewrite Qmult_1_l.
Qed.

(** Rounding to two decimals keeps a number between 0 and 1 there. *)
Lemma round2_unit (x : Q) : unit_interval x -> unit_interval (round2 x).
Proof.
  intros [H0 H1]. unfold round2.
  set (y := (x * 100)%Q). set (lo := Qfloor y).
  assert (Hy0 : (0 <= y)%Q) by (unfold y; lra).
  assert (Hy1 : (y <= 100)%Q) by (unfold y; lra).
  assert (Hlo0 : (0 <= lo)%Z).
  { change 0%Z with (Qfloor 0). now apply Qfloor_resp_le. }
  assert (Hlo1 : (lo <= 100)%Z).
  { change 100%Z with (Qfloor 100). now apply Qfloor_resp_le. }
  assert (Hup : (0 <= match Qcompare (y - inject_Z lo) (1 # 2) with
                      | Lt => lo
                      | Gt => (lo + 1)%Z
                      | Eq => if Z.even lo then lo else (lo + 1)%Z
                      end <= 100)%Z).
  { destruct (Qcompare (y - inject_Z lo) (1 # 2)) eqn:C.
    - destruct (Z.even lo) eqn:Ev; [lia|].
      assert (lo <> 100%Z) by (intros ->; discriminate Ev). lia.
    - lia.
    - rewrite <- Qgt_alt in C.
      assert (lo <> 100%Z).
      { intros E. rewrite E in C. change (inject_Z 100) with 100%Q in C. lra. }
      lia. }
  destruct Hup as [Hu0 Hu1].
  set (up := match Qcompare _ _ with Lt => lo | _ => _ end) in *.
  unfold unit_interval, Qdiv, Qle. simpl. split; lia.
Qed.

(** The average confidence that a bucket of the assessment reports lies
    between 0 and 1. *)
Theorem assess_suggestions_avg_bounds (notes : list NoteRecord) :
  Forall (fun b => unit_interval (avg_confidence b))
    (buckets (assess_suggestions notes)).
Proof.
  unfold assess_suggestions. fold (known_folders_of notes).
  set (known := known_folders_of notes).
  set (name_of := fun note => name (suggest_folder note known)).
  set (conf_of := fun note => confidence (suggest_folder note known)).
  set (counts := fold_left _ notes []).
  cbn [buckets].
  assert (Hok : counts_ok counts (List.length notes + 0)).
  { apply (fold_setdefault_invariant name_of conf_of). repeat split; constructor. }
  destruct Hok as (Hnd & Hne & _).
  pose proof (sorted_by_perm fst counts) as Hperm.
  apply Forall_map, Forall_forall. intros [k vs] Hin.
  apply (Permutation_in _ Hperm) in Hin. cbn [avg_confidence fst snd].
  apply round2_unit, mean_unit.
  - rewrite Forall_forall in Hne. exact (Hne _ Hin).
  - rewrite <- (confidences_of_in k vs counts Hnd Hin).
    change (confidences_of k counts)
      with (confidences_of k
              (fold_left (fun counts note =>
                            setdefault_append (name_of note) (conf_of note) counts)
                 notes [])).
    rewrite (confidences_of_fold name_of conf_of k notes []).
    cbn [confidences_of find app]. apply Forall_map, Forall_forall.
    intros note _. apply suggestion_confidence_unit.
Qed.

(* ================================================================== *)
(** * Further properties: the web listing and the script errors *)

(** The listing and the assessment of the web interface agree: the
    assessment counts as many notes as the listing shows, at least one, and
    each bucket counts the entries listed with its folder as suggestion. *)
Theorem api_listing_matches_assessment (p : process) :
  total (api_assess p) = List.length (fst (api_notes p))
  /\ 1 <= total (api_assess p)
  /\ forall b,
       In b (buckets (api_assess p)) ->
       count b
       = List.length
           (filter (fun entry => String.eqb (suggested_folder entry) (bucket_folder b))
              (fst (api_notes p))).
Proof.
  unfold api_assess, api_notes. cbn [fst].
  set (notes := fetch_notes p).
  assert (Hne : notes <> []).
  { unfold notes, fetch_notes, fetch_notes_try.
    destruct (run_applescript p) as [[msg|]|raw]; try discriminate.
    destruct (parse_notes raw); discriminate. }
  split; [|split].
  - cbn [total assess_suggestions]. now rewrite length_map.
  - cbn [total assess_suggestions]. destruct notes; [contradiction | simpl; lia].
  - intros b Hb. destruct (assess_groups notes) as (_ & Hcount & _).
    rewrite (Hcount b Hb). unfold filed_under.
    generalize (known_folders_of notes) (bucket_folder b). intros known k.
    clear. clearbody notes.
    induction notes as [|note notes IH]; [reflexivity|].
    cbn [List.map filter suggested_folder].
    destruct (String.eqb (name (suggest_folder note known)) k);
      cbn [List.length]; now rewrite IH.
Qed.




(* ================================================================== *)
(** * Further properties: refusals of the system *)



